(** * dxf_parser_go: table reconstruction, field location and weld detection

    A shallow embedding of the Go sources
    - [weld_detector.go]     (stand-alone weld detector, with its own copy of
                              the table extractor),
    - [table_extraction.go]  (table extractor of the BOM tool),
    - [cut_length_extractor.go] (row validation, drawing-number locator),
    - [weld_integration.go]  (weld detection of the integrated tool),
    - [bom_utils.go]         (CSV post-processing),
    - [spatial.go]           (spatial analyzer),
    - [main.go]              (text parser, escape decoding),
    - the driver of the BOM tool ([processDXFFile], the aggregation loop of
      [runBOMExtraction]),
    together with the properties of these functions.

    Conventions of the embedding.
    - A Go [string] is a sequence of bytes: [string] of the standard library.
    - A Go [float64] in the table code is a primitive binary64 [float]; every
      operation is the IEEE-754 operation the compiled program executes.
    - The weld geometry is written once over an interface of the float64
      operations, with two instances: binary64, and the real numbers (the
      arithmetic without rounding), over which the numeric bounds are proved.
    - A run-time panic (slice bounds out of range) is the result [None].
    - [sort.Slice] is the insertion sort the library runs on short slices. *)

From Stdlib Require Import ZArith List String Ascii Bool Lia Sorted Permutation.
From Stdlib Require Import Floats Uint63.
From Stdlib Require Import QArith Reals Lra.
Import ListNotations.

Close Scope Q_scope.

Local Open Scope string_scope.
Local Open Scope list_scope.

(* ================================================================== *)
(** ** Package [strings] *)

Module Strings.

Definition byte (c : ascii) : nat := nat_of_ascii c.

Definition isUpperByte (c : ascii) : bool :=
  (65 <=? byte c)%nat && (byte c <=? 90)%nat.

Definition isLowerByte (c : ascii) : bool :=
  (97 <=? byte c)%nat && (byte c <=? 122)%nat.

Definition toLowerByte (c : ascii) : ascii :=
  if isUpperByte c then ascii_of_nat (byte c + 32) else c.

Definition toUpperByte (c : ascii) : ascii :=
  if isLowerByte c then ascii_of_nat (byte c - 32) else c.

Fixpoint mapBytes (f : ascii -> ascii) (s : string) : string :=
  match s with
  | EmptyString => EmptyString
  | String c s' => String (f c) (mapBytes f s')
  end.

(** [strings.ToLower] and [strings.ToUpper].  The letters [A-Z] and [a-z] are
    mapped; every other byte is kept.  (Go also maps letters outside ASCII;
    the titles and labels the program searches for are ASCII.) *)
Definition ToLower (s : string) : string := mapBytes toLowerByte s.
Definition ToUpper (s : string) : string := mapBytes toUpperByte s.

Definition HasPrefix (s pre : string) : bool := String.prefix pre s.

(** [strings.Contains]: [sub] occurs in [s] at some offset. *)
Fixpoint Contains (s sub : string) : bool :=
  HasPrefix s sub ||
  match s with
  | EmptyString => false
  | String _ s' => Contains s' sub
  end.

Definition HasSuffix (s suf : string) : bool :=
  (String.length suf <=? String.length s)%nat &&
  String.eqb (substring (String.length s - String.length suf) (String.length suf) s) suf.

Definition TrimSuffix (s suf : string) : string :=
  if HasSuffix s suf then substring 0 (String.length s - String.length suf) s else s.

Fixpoint Join (parts : list string) (sep : string) : string :=
  match parts with
  | [] => EmptyString
  | [p] => p
  | p :: rest => String.append p (String.append sep (Join rest sep))
  end.

(** The white space of [unicode.IsSpace] as UTF-8 byte sequences: the six
    ASCII characters, U+0085, U+00A0, U+1680, U+2000..U+200A, U+2028, U+2029,
    U+202F, U+205F and U+3000. *)
Definition isAsciiSpace (c : ascii) : bool :=
  let n := byte c in
  ((9 <=? n)%nat && (n <=? 13)%nat) || (n =? 32)%nat.

Definition spaceSeq2 (a b : nat) : bool :=
  (a =? 194)%nat && ((b =? 133)%nat || (b =? 160)%nat).

Definition spaceSeq3 (a b c : nat) : bool :=
  ((a =? 225)%nat && (b =? 154)%nat && (c =? 128)%nat) ||
  ((a =? 226)%nat && (b =? 128)%nat &&
     (((128 <=? c)%nat && (c <=? 138)%nat) || (c =? 168)%nat || (c =? 169)%nat || (c =? 175)%nat)) ||
  ((a =? 226)%nat && (b =? 129)%nat && (c =? 159)%nat) ||
  ((a =? 227)%nat && (b =? 128)%nat && (c =? 128)%nat).

(** Strip leading white space; [fuel] bounds the number of runes removed. *)
Fixpoint trimLeftBytes (fuel : nat) (l : list ascii) : list ascii :=
  match fuel with
  | O => l
  | S fuel' =>
      match l with
      | a :: rest1 =>
          if isAsciiSpace a then trimLeftBytes fuel' rest1
          else match rest1 with
               | b :: rest2 =>
                   if spaceSeq2 (byte a) (byte b) then trimLeftBytes fuel' rest2
                   else match rest2 with
                        | c :: rest3 =>
                            if spaceSeq3 (byte a) (byte b) (byte c)
                            then trimLeftBytes fuel' rest3 else l
                        | [] => l
                        end
               | [] => l
               end
      | [] => l
      end
  end.

(** Strip trailing white space, on the reversed byte sequence. *)
Fixpoint trimRightRev (fuel : nat) (l : list ascii) : list ascii :=
  match fuel with
  | O => l
  | S fuel' =>
      match l with
      | a :: rest1 =>
          if isAsciiSpace a then trimRightRev fuel' rest1
          else match rest1 with
               | b :: rest2 =>
                   if spaceSeq2 (byte b) (byte a) then trimRightRev fuel' rest2
                   else match rest2 with
                        | c :: rest3 =>
                            if spaceSeq3 (byte c) (byte b) (byte a)
                            then trimRightRev fuel' rest3 else l
                        | [] => l
                        end
               | [] => l
               end
      | [] => l
      end
  end.

(** [strings.TrimSpace]. *)
Definition TrimSpace (s : string) : string :=
  let l := list_ascii_of_string s in
  let l1 := trimLeftBytes (List.length l) l in
  string_of_list_ascii (rev (trimRightRev (List.length l1) (rev l1))).

End Strings.

(* ================================================================== *)
(** ** Package [math] and [sort] *)

Module GoMath.

(** [math.Round]: nearest integer, halves away from zero; zeros, infinities
    and NaN are returned unchanged.  A finite [x] is [m * 2^e]: for [e >= 0]
    it is an integer already, otherwise the integer part of [m / 2^(-e)] is
    incremented when the dropped bits are at least one half. *)
Definition Round (x : float) : float :=
  match Prim2SF x with
  | S754_finite s m e =>
      if (0 <=? e)%Z then x
      else
        let k := (- e)%Z in
        let q := Z.shiftr (Zpos m) k in
        let r := Z.land (Zpos m) (Z.ones k) in
        let n := if (Z.shiftl 1 (k - 1) <=? r)%Z then (q + 1)%Z else q in
        let f := PrimFloat.of_uint63 (Uint63.of_Z n) in
        if s then (- f)%float else f
  | _ => x
  end.

End GoMath.

Module Sort.

Section Insertion.
Context {A : Type} (less : A -> A -> bool).

(** One pass of the inner loop of insertion sort: [x] moves left while it is
    less than its left neighbour.  The sorted prefix is held reversed. *)
Fixpoint bubble (x : A) (revPrefix : list A) : list A :=
  match revPrefix with
  | [] => [x]
  | y :: rest => if less x y then y :: bubble x rest else x :: revPrefix
  end.

(** [sort.Slice(data, less)]. *)
Definition Slice (data : list A) : list A :=
  rev (fold_left (fun acc x => bubble x acc) data []).

End Insertion.

End Sort.

(* ================================================================== *)
(** ** Text entities and the table extractor ([extractTable]) *)

(** [TextEntity] of [weld_detector.go] / [main.go]. *)
Record TextEntity := mkTextEntity {
  Content    : string;
  X          : float;
  Y          : float;
  Height     : float;
  EntityType : string;
  Layer      : string
}.

(** [TableCell]: a cell with its X position and content. *)
Record TableCell := mkTableCell {
  cellX    : float;
  cellText : string
}.

(** [rowData] of [extractTable]: a row key and the cells collected under it. *)
Record rowData := mkRowData {
  rowY     : float;
  rowCells : list TableCell
}.

Definition Row := list string.

Module Table.

Import Strings.

(** The anchor: the first entity whose content contains the title, compared
    in lower case (the search loop ends with [break]). *)
Fixpoint findTitle (textEntities : list TextEntity) (tableTitle : string)
  : option TextEntity :=
  match textEntities with
  | [] => None
  | entity :: rest =>
      if Contains (ToLower (Content entity)) (ToLower tableTitle)
      then Some entity
      else findTitle rest tableTitle
  end.

(** The same search with [strings.ToLower], a function of the Go library,
    taken as a parameter.  [findTitle] is its instance at the mapping of the
    ASCII letters, which is what the library computes on ASCII text; on other
    text the library also maps letters outside ASCII and replaces invalid
    UTF-8 by U+FFFD. *)
Fixpoint findTitleWith (lower : string -> string) (textEntities : list TextEntity)
  (tableTitle : string) : option TextEntity :=
  match textEntities with
  | [] => None
  | entity :: rest =>
      if Contains (lower (Content entity)) (lower tableTitle)
      then Some entity
      else findTitleWith lower rest tableTitle
  end.

Definition isCutPipeLength (tableTitle : string) : bool :=
  String.eqb (ToLower tableTitle) "cut pipe length".

(** Entities strictly below the title and not left of [minX]. *)
Definition filterEntities (textEntities : list TextEntity) (titleY minX : float)
  : list TextEntity :=
  filter (fun entity => negb (titleY <=? Y entity)%float && (minX <=? X entity)%float)
         textEntities.

(** Row key: [math.Round(entity.Y*10) / 10]. *)
Definition yKey (entity : TextEntity) : float :=
  (GoMath.Round (Y entity * 10) / 10)%float.

(** [map[float64][]TableCell] as an association list in order of first
    insertion; keys are compared with the float equality [==], so a NaN key
    is never found again and the two zeros are one key. *)
Definition RowsDict := list (float * list TableCell).

Fixpoint dictLookup (m : RowsDict) (k : float) : option (list TableCell) :=
  match m with
  | [] => None
  | (k', cells) :: rest => if (k' =? k)%float then Some cells else dictLookup rest k
  end.

Fixpoint dictStore (m : RowsDict) (k : float) (cells : list TableCell) : RowsDict :=
  match m with
  | [] => [(k, cells)]
  | (k', cells') :: rest =>
      if (k' =? k)%float then (k, cells) :: rest
      else (k', cells') :: dictStore rest k cells
  end.

Definition dictGet (m : RowsDict) (k : float) : list TableCell :=
  match dictLookup m k with Some cells => cells | None => [] end.

(** Body of the grouping loop. *)
Definition groupStep (rowsDict : RowsDict) (entity : TextEntity) : RowsDict :=
  let k := yKey entity in
  let rowsDict1 :=
    match dictLookup rowsDict k with
    | Some _ => rowsDict
    | None => dictStore rowsDict k []
    end in
  dictStore rowsDict1 k
    (dictGet rowsDict1 k ++ [mkTableCell (X entity) (Content entity)]).

Definition groupRows (filteredEntities : list TextEntity) : RowsDict :=
  fold_left groupStep filteredEntities [].

(** Rows by descending Y, the cells of each row by ascending X. *)
Definition sortRows (rowsDict : RowsDict) : list rowData :=
  Sort.Slice (fun a b => (rowY b <? rowY a)%float)
             (map (fun kv => mkRowData (fst kv) (snd kv)) rowsDict).

Definition rowTexts (row : rowData) : Row :=
  map cellText (Sort.Slice (fun a b => (cellX a <? cellX b)%float) (rowCells row)).

Definition buildTableRows (filteredEntities : list TextEntity) : list Row :=
  map rowTexts (sortRows (groupRows filteredEntities)).

(** [mergeHeaderForCutPipeLength]. *)
Definition mergeHeaderForCutPipeLength (h1 h2 : string) : string :=
  if negb (String.eqb h1 "") && negb (String.eqb h2 "") then
    if String.eqb h1 "N.S." && String.eqb h2 "(MM)" then "N.S. (MM)"
    else if String.eqb h1 "PIECE" && String.eqb h2 "NO" then "PIECE NO"
    else if String.eqb h1 "CUT" && String.eqb h2 "LENGTH" then "CUT LENGTH"
    else if String.eqb h1 "REMARKS" && String.eqb h2 "NO" then "REMARKS"
    else if String.eqb h1 "REMARKS" && String.eqb h2 "" then "REMARKS"
    else if String.eqb h1 "PIECE" && String.eqb h2 "LENGTH" then "PIECE NO"
    else if String.eqb h1 "CUT" && String.eqb h2 "(MM)" then "CUT LENGTH"
    else TrimSpace (String.append h1 (String.append " " h2))
  else if negb (String.eqb h1 "") && String.eqb h2 "" then
    if String.eqb h1 "PIECE" then "PIECE NO"
    else if String.eqb h1 "CUT" then "CUT LENGTH"
    else if String.eqb h1 "N.S." then "N.S. (MM)"
    else h1
  else if negb (String.eqb h2 "") && String.eqb h1 "" then h2
  else "".

(** Header of a table with at least two rows: column by column, the first
    two rows merged. *)
Definition mergeHeader (tableTitle : string) (row0 row1 : Row) : Row :=
  let maxHeaderCols := Nat.max (List.length row0) (List.length row1) in
  map (fun i =>
         let h1 := nth i row0 "" in
         let h2 := nth i row1 "" in
         if isCutPipeLength tableTitle
         then mergeHeaderForCutPipeLength h1 h2
         else TrimSpace (String.append h1 (String.append " " h2)))
      (seq 0 maxHeaderCols).

Definition splitHeader (tableTitle : string) (tableRows : list Row)
  : Row * list Row :=
  match tableRows with
  | row0 :: row1 :: rest => (mergeHeader tableTitle row0 row1, rest)
  | [row0] => (row0, [])
  | [] => ([], [])
  end.

(** Insertion of the CATEGORY column at position 5.  The source slices
    [header[:5]], which panics when the header has fewer than five columns
    (a header is allocated with capacity equal to its length). *)
Definition insertCategory (header : Row) : option Row :=
  match header with
  | [] => Some header
  | _ =>
      if (List.length header <? 5)%nat then None
      else Some (firstn 5 header ++ ["CATEGORY"] ++ skipn 5 header)
  end.

Definition allEmpty (row : Row) : bool :=
  forallb (fun cell => String.eqb (TrimSpace cell) "") row.

(** The loop that copies rows up to the first row whose cells are all blank. *)
Fixpoint stopAtEmptyRow (dataRows : list Row) : list Row :=
  match dataRows with
  | [] => []
  | row :: rest => if allEmpty row then [] else row :: stopAtEmptyRow rest
  end.

(** The padding loop: a fresh row of [len(header)] cells, cell [i] taken
    from the data row when it has one. *)
Definition padRow (header : Row) (row : Row) : Row :=
  map (fun i => if (i <? List.length row)%nat then nth i row "" else "")
      (seq 0 (List.length header)).

Definition padRows (header : Row) (dataRows : list Row) : list Row :=
  map (padRow header) dataRows.

Section ExtractTable.

(** The two table-kind specific passes differ between the two programs. *)
Variable processErectionMaterialsTable : list Row -> list Row.
Variable validateAndCorrectCutLengthRow : Row -> Row.

(** Everything between the header split and the padding loop: the header
    and the data rows as they enter the padding loop. *)
Definition processTable (tableTitle : string) (tableRows : list Row)
  : option (Row * list Row) :=
  let '(header0, dataRows0) := splitHeader tableTitle tableRows in
  let isMaterials := Contains (ToUpper tableTitle) "ERECTION MATERIALS" in
  let dataRows1 :=
    if isMaterials then processErectionMaterialsTable dataRows0 else dataRows0 in
  match (if isMaterials then insertCategory header0 else Some header0) with
  | None => None
  | Some header =>
      let dataRows2 :=
        if isCutPipeLength tableTitle
        then map validateAndCorrectCutLengthRow
                 (filter (fun row => Contains (Join row "") "<") dataRows1)
        else dataRows1 in
      let dataRows3 :=
        if Contains (ToUpper tableTitle) "CUT PIPE LENGTH"
        then stopAtEmptyRow dataRows2 else dataRows2 in
      Some (header, dataRows3)
  end.

(** The rows below the anchor, clustered and ordered. *)
Definition tableRowsOf (textEntities : list TextEntity) (tableTitle : string)
  (titleEntity : TextEntity) : list Row :=
  let startX := X titleEntity in
  let titleY := Y titleEntity in
  let minX := if isCutPipeLength tableTitle then (startX - 50)%float else startX in
  buildTableRows (filterEntities textEntities titleY minX).

(** [extractTable]: header and padded data rows; [None] is a panic. *)
Definition extractTable (textEntities : list TextEntity) (tableTitle : string)
  : option (Row * list Row) :=
  match findTitle textEntities tableTitle with
  | None => Some ([], [])
  | Some titleEntity =>
      match processTable tableTitle (tableRowsOf textEntities tableTitle titleEntity) with
      | None => None
      | Some (header, dataRows) => Some (header, padRows header dataRows)
      end
  end.

(** [extractTable] with the case mapping of the title search as a parameter.
    Past the search only the case of the table title itself is changed, and
    the titles the programs pass are ASCII constants. *)
Definition extractTableWith (lower : string -> string)
  (textEntities : list TextEntity) (tableTitle : string) : option (Row * list Row) :=
  match findTitleWith lower textEntities tableTitle with
  | None => Some ([], [])
  | Some titleEntity =>
      match processTable tableTitle (tableRowsOf textEntities tableTitle titleEntity) with
      | None => None
      | Some (header, dataRows) => Some (header, padRows header dataRows)
      end
  end.

End ExtractTable.

End Table.

(* ================================================================== *)
(** ** Package [strconv]: [ParseFloat(s, 64)] *)

Module Strconv.

Import Strings.

(** [lower(c)] of [strconv]: the byte with bit 0x20 set. *)
Definition lower (c : ascii) : nat := Nat.lor (byte c) 32.

Definition isDigit (c : ascii) : bool := (48 <=? byte c)%nat && (byte c <=? 57)%nat.

Definition isHexLetter (c : ascii) : bool := (97 <=? lower c)%nat && (lower c <=? 102)%nat.

(** [commonPrefixLenIgnoreCase(s, prefix)], [prefix] in lower case. *)
Fixpoint commonPrefixLenIgnoreCase (s pre : list ascii) : nat :=
  match s, pre with
  | c :: s', p :: pre' =>
      if (byte (toLowerByte c) =? byte p)%nat
      then S (commonPrefixLenIgnoreCase s' pre') else O
  | _, _ => O
  end.

(** [special]: the value and the number of bytes consumed when the string
    starts with an infinity or a NaN. *)
Definition special (s : list ascii) : option (float * nat) :=
  let inf (neg : bool) (nsign : nat) (t : list ascii) :=
    let n := commonPrefixLenIgnoreCase t (list_ascii_of_string "infinity") in
    let n := if (3 <? n)%nat && (n <? 8)%nat then 3%nat else n in
    if (n =? 3)%nat || (n =? 8)%nat
    then Some (if neg then neg_infinity else infinity, (nsign + n)%nat)
    else None in
  match s with
  | [] => None
  | c :: t =>
      if (byte c =? 43)%nat then inf false 1%nat t
      else if (byte c =? 45)%nat then inf true 1%nat t
      else if (lower c =? 105)%nat then inf false 0%nat s
      else if (lower c =? 110)%nat then
        if (commonPrefixLenIgnoreCase s (list_ascii_of_string "nan") =? 3)%nat
        then Some (nan, 3%nat) else None
      else None
  end.

(** State of the digit loop of [readFloat].  The mantissa keeps every digit
    ([nd] of them, leading zeros apart), where the source keeps 19 and
    reparses the string when digits were dropped. *)
Record digits := mkDigits {
  sawdot      : bool;
  sawdigits   : bool;
  nd          : Z;
  dp          : Z;
  mantissa    : Z;
  underscores : bool
}.

Fixpoint readDigits (hex : bool) (st : digits) (s : list ascii) : digits * list ascii :=
  match s with
  | [] => (st, [])
  | c :: rest =>
      if (byte c =? 95)%nat then
        readDigits hex (mkDigits (sawdot st) (sawdigits st) (nd st) (dp st) (mantissa st) true) rest
      else if (byte c =? 46)%nat then
        if sawdot st then (st, s)
        else readDigits hex
               (mkDigits true (sawdigits st) (nd st) (nd st) (mantissa st) (underscores st)) rest
      else if isDigit c then
        if (byte c =? 48)%nat && (nd st =? 0)%Z then
          readDigits hex
            (mkDigits (sawdot st) true (nd st) (dp st - 1) (mantissa st) (underscores st)) rest
        else
          readDigits hex
            (mkDigits (sawdot st) true (nd st + 1) (dp st)
               (mantissa st * (if hex then 16 else 10) + Z.of_nat (byte c - 48))
               (underscores st)) rest
      else if hex && isHexLetter c then
        readDigits hex
          (mkDigits (sawdot st) true (nd st + 1) (dp st)
             (mantissa st * 16 + Z.of_nat (lower c - 97 + 10)) (underscores st)) rest
      else (st, s)
  end.

(** Digits of the exponent; the accumulated value stops growing at 10000. *)
Fixpoint readExpDigits (e : Z) (us : bool) (s : list ascii) : Z * bool * list ascii :=
  match s with
  | c :: rest =>
      if (byte c =? 95)%nat then readExpDigits e true rest
      else if isDigit c then
        readExpDigits (if (e <? 10000)%Z then e * 10 + Z.of_nat (byte c - 48) else e)%Z us rest
      else (e, us, s)
  | [] => (e, us, [])
  end.

(** The optional exponent, after its letter: signed value, underscore flag
    and rest; [None] when no digit follows. *)
Definition readExp (s : list ascii) : option (Z * bool * list ascii) :=
  match s with
  | [] => None
  | c :: rest =>
      let '(esign, t) :=
        if (byte c =? 43)%nat then (1%Z, rest)
        else if (byte c =? 45)%nat then ((-1)%Z, rest)
        else (1%Z, s) in
      match t with
      | d :: _ =>
          if isDigit d then
            let '(e, us, t') := readExpDigits 0 false t in Some ((e * esign)%Z, us, t')
          else None
      | [] => None
      end
  end.

Inductive sawKind := SawStart | SawDigit | SawUnderscore | SawOther.

Fixpoint underscoreLoop (hex : bool) (saw : sawKind) (s : list ascii) : bool :=
  match s with
  | [] => match saw with SawUnderscore => false | _ => true end
  | c :: rest =>
      if isDigit c || (hex && isHexLetter c) then underscoreLoop hex SawDigit rest
      else if (byte c =? 95)%nat then
        match saw with
        | SawDigit => underscoreLoop hex SawUnderscore rest
        | _ => false
        end
      else
        match saw with
        | SawUnderscore => false
        | _ => underscoreLoop hex SawOther rest
        end
  end.

(** [underscoreOK]: underscores only between digits or after a base prefix. *)
Definition underscoreOK (s : list ascii) : bool :=
  let s1 :=
    match s with
    | c :: t => if (byte c =? 45)%nat || (byte c =? 43)%nat then t else s
    | [] => s
    end in
  match s1 with
  | z :: b :: t =>
      if (byte z =? 48)%nat &&
         ((lower b =? 98)%nat || (lower b =? 111)%nat || (lower b =? 120)%nat)
      then underscoreLoop (lower b =? 120)%nat SawDigit t
      else underscoreLoop false SawStart s1
  | _ => underscoreLoop false SawStart s1
  end.

(** What [readFloat] returns for a string it accepts to its end. *)
Record parsed := mkParsed {
  pneg  : bool;
  phex  : bool;
  pmant : Z;     (* all digits *)
  pexp  : Z;     (* value = pmant * base^pexp, base 10, or 2 when [phex] *)
  ppoint : Z     (* position of the decimal point relative to the digits *)
}.

Definition readFloat (s : list ascii) : option parsed :=
  match s with
  | [] => None
  | c0 :: _ =>
      let '(neg, s1) :=
        match s with
        | c :: t =>
            if (byte c =? 43)%nat then (false, t)
            else if (byte c =? 45)%nat then (true, t)
            else (false, s)
        | [] => (false, s)
        end in
      let '(hex, s2) :=
        match s1 with
        | z :: x :: (_ :: _) as t =>
            if (byte z =? 48)%nat && (lower x =? 120)%nat then (true, t) else (false, s1)
        | _ => (false, s1)
        end in
      let '(st, s3) := readDigits hex (mkDigits false false 0 0 0 false) s2 in
      if negb (sawdigits st) then None
      else
        let dp0 := if sawdot st then dp st else nd st in
        let dp1 := if hex then (dp0 * 4)%Z else dp0 in
        let ndBits := if hex then (nd st * 4)%Z else nd st in
        let expChar := if hex then 112%nat else 101%nat in
        let afterExp :=
          match s3 with
          | c :: t =>
              if (lower c =? expChar)%nat then
                match readExp t with
                | Some (e, us, t') => Some ((dp1 + e)%Z, us, t')
                | None => None
                end
              else if hex then None else Some (dp1, false, s3)
          | [] => if hex then None else Some (dp1, false, s3)
          end in
        match afterExp with
        | None => None
        | Some (dp2, us, rest) =>
            match rest with
            | _ :: _ => None
            | [] =>
                if (underscores st || us) && negb (underscoreOK s) then None
                else Some (mkParsed neg hex (mantissa st) (dp2 - ndBits)%Z dp2)
            end
        end
  end.

(** The binary64 nearest to [num / den] (ties to even). *)
Definition roundRatio (neg : bool) (num den : Z) : spec_float :=
  SFdiv prec emax (S754_finite neg (Z.to_pos num) 0) (S754_finite false (Z.to_pos den) 0).

(** The float of an accepted string: correctly rounded; a decimal whose
    point lies beyond 310 digits overflows and one below -330 is zero, as in
    [decimal.floatBits]. *)
Definition floatOf (p : parsed) : spec_float :=
  if (pmant p =? 0)%Z then S754_zero (pneg p)
  else if phex p then binary_round prec emax (pneg p) (Z.to_pos (pmant p)) (pexp p)
  else if (310 <? ppoint p)%Z then S754_infinity (pneg p)
  else if (ppoint p <? -330)%Z then S754_zero (pneg p)
  else if (0 <=? pexp p)%Z then roundRatio (pneg p) (pmant p * 10 ^ pexp p) 1
  else roundRatio (pneg p) (pmant p) (10 ^ (- pexp p)).

(** [strconv.ParseFloat(s, 64)]: [Some f] when the error is [nil].  A syntax
    error and a value out of range ([ErrRange]) are both [None]. *)
Definition ParseFloat (str : string) : option float :=
  let s := list_ascii_of_string str in
  match special s with
  | Some (f, n) => if (n =? List.length s)%nat then Some f else None
  | None =>
      match readFloat s with
      | None => None
      | Some p =>
          match floatOf p with
          | S754_infinity _ => None
          | v => Some (SF2Prim v)
          end
      end
  end.

End Strconv.

(* ================================================================== *)
(** ** The compiled patterns *)

Module Patterns.

Import Strings.

Definition isDigit (c : ascii) : bool := (48 <=? byte c)%nat && (byte c <=? 57)%nat.

(** [\w] of the regular expressions: [0-9A-Za-z_]. *)
Definition isWord (c : ascii) : bool :=
  isDigit c || isUpperByte c || isLowerByte c || (byte c =? 95)%nat.

(** [pieceNumberPattern = ^<\d+>$], applied with [MatchString]. *)
Fixpoint digitsThenClose (seen : bool) (s : list ascii) : bool :=
  match s with
  | [] => false
  | [c] => seen && (byte c =? 62)%nat
  | c :: rest => isDigit c && digitsThenClose true rest
  end.

Definition pieceNumberMatch (str : string) : bool :=
  match list_ascii_of_string str with
  | c :: rest => (byte c =? 60)%nat && digitsThenClose false rest
  | [] => false
  end.

(** [kksPattern = \b\d[A-Z]{3}\d{2}BR\d{3}\b]: the pattern at the head of
    [s], with the closing word boundary. *)
Definition kksHere (s : list ascii) : bool :=
  match s with
  | c0 :: c1 :: c2 :: c3 :: c4 :: c5 :: c6 :: c7 :: c8 :: c9 :: c10 :: rest =>
      isDigit c0 && isUpperByte c1 && isUpperByte c2 && isUpperByte c3 &&
      isDigit c4 && isDigit c5 && (byte c6 =? 66)%nat && (byte c7 =? 82)%nat &&
      isDigit c8 && isDigit c9 && isDigit c10 &&
      match rest with
      | [] => true
      | c :: _ => negb (isWord c)
      end
  | _ => false
  end.

(** Leftmost match; [prevWord] tells whether the byte before [s] is a word
    byte (the opening word boundary). *)
Fixpoint kksScan (prevWord : bool) (s : list ascii) : string :=
  match s with
  | [] => ""
  | c :: rest =>
      if negb prevWord && kksHere s
      then string_of_list_ascii (firstn 11 s)
      else kksScan (isWord c) rest
  end.

(** [kksPattern.FindString]: the match, or the empty string. *)
Definition kksFindString (str : string) : string :=
  kksScan false (list_ascii_of_string str).

End Patterns.

(** Assignment [l[i] = v] to an element of a slice ([i] within its length). *)
Fixpoint setAt {A : Type} (i : nat) (v : A) (l : list A) : list A :=
  match l, i with
  | [], _ => []
  | _ :: rest, O => v :: rest
  | x :: rest, S i' => x :: setAt i' v rest
  end.

(** The local helper [abs] of the sources (not [math.Abs]). *)
Definition abs (x : float) : float := if (x <? 0)%float then (- x)%float else x.

(* ================================================================== *)
(** ** [processErectionMaterialsTable] *)

Module Materials.

Import Strings.

(** Index that ends the table: one past the first row with a cell that
    contains TOTAL WEIGHT; [n] is the number of rows, [i] the index reached. *)
Fixpoint totalWeightEnd (n i : nat) (dataRows : list Row) : nat :=
  match dataRows with
  | [] => n
  | row :: rest =>
      let endIdx :=
        if existsb (fun cell => Contains (ToUpper cell) "TOTAL WEIGHT") row
        then S i else n in
      if negb (endIdx =? n)%nat then endIdx else totalWeightEnd n (S i) rest
  end.

Definition isTotalLabel (s : string) : bool :=
  String.eqb s "TOTAL ERECTION WEIGHT" || String.eqb s "TOTAL WEIGHT".

(** The flags [(isCategory, isTotalRow)] the loop computes for a row. *)
Definition classifyRow (row : Row) : bool * bool :=
  if negb (String.eqb (nth 0 row "") "") then
    if isTotalLabel (nth 0 row "") then (true, true)
    else
      let isEmpty := true in
      let isEmpty :=
        if (1 <? List.length row)%nat && negb (String.eqb (nth 1 row "") "")
        then false else isEmpty in
      let isEmpty :=
        if (3 <? List.length row)%nat && negb (String.eqb (nth 3 row "") "")
        then false else isEmpty in
      (isEmpty, false)
  else (false, false).

Definition isCategory (row : Row) : bool := fst (classifyRow row).
Definition isTotalRow (row : Row) : bool := snd (classifyRow row).

(** A total row reshaped: weight in column E, total type in column F. *)
Definition totalRow (row : Row) : Row :=
  let totalType := nth 0 row "" in
  let weightValue := if (1 <? List.length row)%nat then nth 1 row "" else "" in
  [""; ""; ""; ""; weightValue; totalType].

(** [for len(newRow) < 6 { newRow = append(newRow, "") }]. *)
Definition growTo6 (row : Row) : Row :=
  row ++ repeat "" (6 - List.length row).

(** The tail of the data-row branch: unit suffix of the quantity removed,
    row grown to six columns, category stamped into column F. *)
Definition finishDataRow (currentCategory : string) (newRow : Row) : Row :=
  let newRow1 :=
    if (3 <? List.length newRow)%nat && negb (String.eqb (nth 3 newRow "") "")
    then setAt 3 (TrimSuffix (nth 3 newRow "") "M") newRow else newRow in
  setAt 5 currentCategory (growTo6 newRow1).

Section Loop.

(** The repair applied to a copy of a data row before [finishDataRow]:
    the identity in [weld_detector.go], the missing-N.S. heuristic in
    [table_extraction.go]. *)
Variable repair : Row -> Row.

(** State of the loop: [processedRows] and [currentCategory]. *)
Definition step (st : list Row * string) (row : Row) : list Row * string :=
  let '(processedRows, currentCategory) := st in
  match row with
  | [] => st
  | _ =>
      if isCategory row then
        if isTotalRow row then (processedRows ++ [totalRow row], currentCategory)
        else if negb (isTotalLabel (nth 0 row "")) then (processedRows, nth 0 row "")
        else st
      else
        (processedRows ++ [finishDataRow currentCategory (repair row)], currentCategory)
  end.

Definition processRows (dataRows : list Row) : list Row :=
  let endIdx := totalWeightEnd (List.length dataRows) 0 dataRows in
  fst (fold_left step (firstn endIdx dataRows) ([], "")).

End Loop.

(** The missing-N.S. repair of [table_extraction.go]. *)
Definition isValidWeight (col4 : string) : bool :=
  if String.eqb col4 "---" || String.eqb col4 "" then true
  else match Strconv.ParseFloat col4 with
       | Some val => (0 <=? val)%float
       | None => false
       end.

Definition isLikelyQty (col2 : string) : bool :=
  let likely := false in
  let likely := if HasSuffix col2 "M" then true else likely in
  let likely :=
    match Strconv.ParseFloat col2 with
    | Some val =>
        if (0 <? val)%float && (val <? 10)%float &&
           negb (val =? 15)%float && negb (val =? 25)%float && negb (val =? 50)%float &&
           negb (val =? 80)%float && negb (val =? 100)%float
        then true else likely
    | None => likely
    end in
  let likely :=
    if Contains col2 "." then
      match Strconv.ParseFloat col2 with
      | Some val => if (0 <? val)%float then true else likely
      | None => likely
      end
    else likely in
  likely.

Definition repairMissingNS (newRow : Row) : Row :=
  if (List.length newRow =? 5)%nat &&
     negb (String.eqb (nth 0 newRow "") "") && negb (String.eqb (nth 1 newRow "") "")
  then
    let col2 := TrimSpace (nth 2 newRow "") in
    let col4 := TrimSpace (nth 4 newRow "") in
    if isValidWeight col4 && isLikelyQty col2
    then [nth 0 newRow ""; nth 1 newRow ""; ""; nth 2 newRow ""; nth 3 newRow ""; nth 4 newRow ""]
    else newRow
  else newRow.

End Materials.

(* ================================================================== *)
(** ** [weld_detector.go]: the table extractor of the weld detector *)

Module WeldDetector.

Definition processErectionMaterialsTable (dataRows : list Row) : list Row :=
  Materials.processRows (fun row => row) dataRows.

(** Simplified version: the row is returned as it is. *)
Definition validateAndCorrectCutLengthRow (row : Row) : Row := row.

Definition extractTable (textEntities : list TextEntity) (tableTitle : string)
  : option (Row * list Row) :=
  Table.extractTable processErectionMaterialsTable validateAndCorrectCutLengthRow
    textEntities tableTitle.

End WeldDetector.

(* ================================================================== *)
(** ** [cut_length_extractor.go] and [table_extraction.go]: the BOM tool *)

Module CutLength.

Import Strings.

(** [isNumber] of [table_extraction.go]. *)
Definition isNumber (text : string) : bool :=
  match Strconv.ParseFloat (TrimSpace text) with Some _ => true | None => false end.

Definition isPieceNumber (text : string) : bool :=
  Patterns.pieceNumberMatch (TrimSpace text).

Definition isTextRemark (text : string) : bool :=
  let textStr := TrimSpace text in
  if String.eqb textStr "" then false
  else negb (isPieceNumber textStr) && negb (isNumber textStr).

(** The pieces of a row: index and trimmed text of every piece-number cell. *)
Fixpoint findPieces (i : nat) (row : Row) : list (nat * string) :=
  match row with
  | [] => []
  | cell :: rest =>
      let cellStr := TrimSpace cell in
      if isPieceNumber cellStr then (i, cellStr) :: findPieces (S i) rest
      else findPieces (S i) rest
  end.

Record pieceGroup := mkPieceGroup {
  piece   : string;
  numbers : list string;
  remarks : list string
}.

(** The cells [row[from:to]] of one piece sorted into numbers and remarks. *)
Fixpoint collect (group : pieceGroup) (cells : Row) : pieceGroup :=
  match cells with
  | [] => group
  | cell :: rest =>
      let cellStr := TrimSpace cell in
      if String.eqb cellStr "" then collect group rest
      else if isNumber cellStr then
        collect (mkPieceGroup (piece group) (numbers group ++ [cellStr]) (remarks group)) rest
      else if isTextRemark cellStr then
        collect (mkPieceGroup (piece group) (numbers group) (remarks group ++ [cellStr])) rest
      else collect group rest
  end.

Fixpoint groupPieces (row : Row) (pieces : list (nat * string)) : list pieceGroup :=
  match pieces with
  | [] => []
  | (index, value) :: rest =>
      let endPos :=
        match rest with
        | (next, _) :: _ => next
        | [] => List.length row
        end in
      collect (mkPieceGroup value [] [])
              (firstn (endPos - S index) (skipn (S index) row))
      :: groupPieces row rest
  end.

(** One iteration of the filling loop. *)
Definition fillGroup (corrected : Row) (groupIdx : nat) (group : pieceGroup) : Row :=
  let baseCol := (groupIdx * 4)%nat in
  let c1 := setAt baseCol (piece group) corrected in
  let c2 :=
    fold_left (fun c numIdx => setAt (baseCol + 1 + numIdx) (nth numIdx (numbers group) "") c)
              (seq 0 (Nat.min 2 (List.length (numbers group)))) c1 in
  match remarks group with
  | r :: _ => setAt (baseCol + 3) r c2
  | [] => c2
  end.

Definition validateAndCorrectCutLengthRow (row : Row) : Row :=
  match row with
  | [] => row
  | _ =>
      let corrected := repeat "" 8 in
      let pieces := findPieces 0 row in
      match pieces with
      | [] =>
          fold_left (fun c i => setAt i (nth i row "") c)
                    (seq 0 (Nat.min 8 (List.length row))) corrected
      | _ =>
          let pieceGroups := groupPieces row pieces in
          let maxPieces := Nat.min 2 (List.length pieceGroups) in
          fold_left (fun c groupIdx =>
                       fillGroup c groupIdx (nth groupIdx pieceGroups (mkPieceGroup "" [] [])))
                    (seq 0 maxPieces) corrected
      end
  end.

End CutLength.

Module TableExtraction.

Definition processErectionMaterialsTable (dataRows : list Row) : list Row :=
  Materials.processRows Materials.repairMissingNS dataRows.

Definition extractTable (textEntities : list TextEntity) (tableTitle : string)
  : option (Row * list Row) :=
  Table.extractTable processErectionMaterialsTable CutLength.validateAndCorrectCutLengthRow
    textEntities tableTitle.

End TableExtraction.

(* ================================================================== *)
(** ** [findDrawingNo] *)

Module FieldLocator.

Import Strings.

(** Position of the first entity that contains ERECTION MATERIALS. *)
Fixpoint findErection (textEntities : list TextEntity) : option (float * float) :=
  match textEntities with
  | [] => None
  | entity :: rest =>
      if Contains (ToUpper (Content entity)) "ERECTION MATERIALS"
      then Some (X entity, Y entity)
      else findErection rest
  end.

Record candidate := mkCandidate {
  value : string;
  candX : float;
  candY : float;
  absY  : float
}.

(** The candidate loop: entities with a KKS match, kept when at or right of
    and at or below the anchor if there is one, all of them otherwise. *)
Definition candidateOf (erection : option (float * float)) (entity : TextEntity)
  : option candidate :=
  let mtch := Patterns.kksFindString (Content entity) in
  if negb (String.eqb mtch "") then
    match erection with
    | Some (erectionX, erectionY) =>
        if (erectionX <=? X entity)%float && (Y entity <=? erectionY)%float
        then Some (mkCandidate mtch (X entity) (Y entity) (abs (Y entity)))
        else None
    | None => Some (mkCandidate mtch (X entity) (Y entity) (abs (Y entity)))
    end
  else None.

Fixpoint collectCandidates (erection : option (float * float))
  (textEntities : list TextEntity) : list candidate :=
  match textEntities with
  | [] => []
  | entity :: rest =>
      match candidateOf erection entity with
      | Some c => c :: collectCandidates erection rest
      | None => collectCandidates erection rest
      end
  end.

(** Inner loop of the fallback: among the entities [next], the first one
    right of or below the label. *)
Fixpoint firstRightOrBelow (entity : TextEntity) (next : list TextEntity)
  : option string :=
  match next with
  | [] => None
  | nextEntity :: rest =>
      if (X entity <? X nextEntity)%float || (Y nextEntity <? Y entity)%float
      then Some (Content nextEntity)
      else firstRightOrBelow entity rest
  end.

(** The fallback: after each entity that contains the label Drawing-No., the
    next four entities are inspected. *)
Fixpoint labelScan (textEntities : list TextEntity) : string :=
  match textEntities with
  | [] => ""
  | entity :: rest =>
      if Contains (Content entity) "Drawing-No." then
        match firstRightOrBelow entity (firstn 4 rest) with
        | Some found => found
        | None => labelScan rest
        end
      else labelScan rest
  end.

Definition sortCandidates (candidates : list candidate) : list candidate :=
  Sort.Slice (fun a b => (absY a <? absY b)%float) candidates.

Definition findDrawingNo (textEntities : list TextEntity) : string :=
  let erection := findErection textEntities in
  let candidates := collectCandidates erection textEntities in
  match sortCandidates candidates with
  | selected :: _ => value selected
  | [] => labelScan textEntities
  end.

(** The anchor search and the locator with [strings.ToUpper], a function of
    the Go library, taken as a parameter.  [findErection] and [findDrawingNo]
    are the instances at the mapping of the ASCII letters, which is what the
    library computes on ASCII text. *)
Section CaseMapping.

Variable upper : string -> string.

Fixpoint findErectionWith (textEntities : list TextEntity) : option (float * float) :=
  match textEntities with
  | [] => None
  | entity :: rest =>
      if Contains (upper (Content entity)) "ERECTION MATERIALS"
      then Some (X entity, Y entity)
      else findErectionWith rest
  end.

Definition findDrawingNoWith (textEntities : list TextEntity) : string :=
  let erection := findErectionWith textEntities in
  let candidates := collectCandidates erection textEntities in
  match sortCandidates candidates with
  | selected :: _ => value selected
  | [] => labelScan textEntities
  end.

End CaseMapping.

End FieldLocator.

(* ================================================================== *)
(** ** [fixMissingNSColumns] of [bom_utils.go] *)

Module BomUtils.

Import Strings.

(** What the function leaves behind: an error, the file as it was, or the
    file rewritten with the given header and rows. *)
Inductive outcome :=
| Failed
| Untouched
| Rewritten (header : Row) (rows : list Row).

(** Index of the last header column whose trimmed name is [name]. *)
Fixpoint columnIndex (name : string) (i : nat) (header : Row) : option nat :=
  match header with
  | [] => None
  | col :: rest =>
      match columnIndex name (S i) rest with
      | Some j => Some j
      | None => if String.eqb (TrimSpace col) name then Some i else None
      end
  end.

(** [for len(row) <= weightIdx { row = append(row, "") }]. *)
Definition growPast (weightIdx : nat) (row : Row) : Row :=
  row ++ repeat "" (S weightIdx - List.length row).

(** The shift loop on one row: the new row and whether it was corrected. *)
Definition shiftRow (ptNoIdx nsIdx qtyIdx weightIdx : nat) (row0 : Row) : Row * bool :=
  let row := growPast weightIdx row0 in
  let ptNo := TrimSpace (nth ptNoIdx row "") in
  let weight := TrimSpace (nth weightIdx row "") in
  if negb (String.eqb ptNo "") && String.eqb weight "" then
    let newRow := row in
    let newRow := setAt weightIdx (nth qtyIdx row "") newRow in
    let newRow := setAt qtyIdx (nth nsIdx row "") newRow in
    let newRow := setAt nsIdx "" newRow in
    (newRow, true)
  else (row, false).

(** The cleaning loop on one row: the new row and whether it was cleaned. *)
Definition cleanRow (qtyIdx : nat) (row : Row) : Row * bool :=
  if (qtyIdx <? List.length row)%nat then
    let qty := TrimSpace (nth qtyIdx row "") in
    if negb (String.eqb qty "") && HasSuffix (ToUpper qty) "M" then
      let cleanQty := TrimSpace (TrimSuffix (ToUpper qty) "M") in
      if negb (String.eqb cleanQty qty) then (setAt qtyIdx cleanQty row, true)
      else (row, false)
    else (row, false)
  else (row, false).

(** [encoding/csv]: with [FieldsPerRecord = 0] every record must have the
    number of fields of the first one, otherwise [ReadAll] fails. *)
Definition sameFieldCount (records : list Row) : bool :=
  match records with
  | [] => true
  | header :: rows =>
      forallb (fun row => (List.length row =? List.length header)%nat) rows
  end.

(** [fixMissingNSColumns], on the records [ReadAll] parses from the file. *)
Definition fixMissingNSColumns (records : list Row) : outcome :=
  if negb (sameFieldCount records) then Failed
  else
    match records with
    | [] => Untouched
    | header :: rows =>
        match columnIndex "PT NO" 0 header, columnIndex "N.S." 0 header,
              columnIndex "QTY" 0 header, columnIndex "WEIGHT" 0 header with
        | Some ptNoIdx, Some nsIdx, Some qtyIdx, Some weightIdx =>
            let shifted := map (shiftRow ptNoIdx nsIdx qtyIdx weightIdx) rows in
            let cleaned := map (fun r => cleanRow qtyIdx (fst r)) shifted in
            let correctionCount := List.length (filter snd shifted) in
            let qtyCleanCount := List.length (filter snd cleaned) in
            if (0 <? correctionCount)%nat || (0 <? qtyCleanCount)%nat
            then Rewritten header (map fst cleaned)
            else Untouched
        | _, _, _, _ => Untouched
        end
    end.

(** The records of the file after the call. *)
Definition recordsAfter (records : list Row) : list Row :=
  match fixMissingNSColumns records with
  | Rewritten header rows => header :: rows
  | _ => records
  end.

End BomUtils.

(* ================================================================== *)
(** ** [cut_length_extractor.go]: the single-row format of the cut lengths *)

Module CutLengthFormat.

Import Strings.

(** [extractPipeDescriptions]: the descriptions (column B) of the material
    rows of category PIPE (column F). *)
Definition extractPipeDescriptions (matRows : list Row) : list string :=
  flat_map (fun row =>
              if (6 <=? List.length row)%nat && String.eqb (nth 5 row "") "PIPE" then
                if (2 <=? List.length row)%nat && negb (String.eqb (nth 1 row "") "")
                then [nth 1 row ""] else []
              else [])
           matRows.

Definition singleRowHeader : Row :=
  ["PIECE NO"; "CUT LENGTH"; "N.S. (MM)"; "REMARKS"; "PIPE DESCRIPTION";
   "MULTIPLE PIPE DESCRIPTIONS"; "Drawing-No."; "Pipe Class"].

(** The pipe description to use and the flag for several descriptions. *)
Definition pipeDescription (pipeDescriptions : list string) : string * string :=
  match pipeDescriptions with
  | [] => ("No pipe description found", "NO")
  | [d] => (d, "NO")
  | _ => (Join pipeDescriptions " | ", "YES")
  end.

(** The trimmed cell [i] of a row, empty when the row has no such cell. *)
Definition trimmedCell (row : Row) (i : nat) : string :=
  if (i <? List.length row)%nat then TrimSpace (nth i row "") else "".

(** The output row of the piece in columns [base .. base+3], if the piece
    number is not blank. *)
Definition pieceRow (row : Row) (base : nat)
  (pipeDesc multipleDesc drawingNo pipeClass : string) : list Row :=
  let pieceNo := trimmedCell row base in
  let pieceLength := trimmedCell row (base + 1) in
  let pieceNS := trimmedCell row (base + 2) in
  let pieceRemarks := trimmedCell row (base + 3) in
  if negb (String.eqb pieceNo "")
  then [[pieceNo; pieceLength; pieceNS; pieceRemarks; pipeDesc; multipleDesc; drawingNo; pipeClass]]
  else [].

(** [convertCutLengthToSingleRowFormat]. *)
Definition convertCutLengthToSingleRowFormat (header : Row) (rows : list Row)
  (drawingNo pipeClass : string) (pipeDescriptions : list string) : Row * list Row :=
  match rows with
  | [] => (singleRowHeader, [])
  | _ =>
      let '(pipeDesc, multipleDesc) := pipeDescription pipeDescriptions in
      (singleRowHeader,
       flat_map (fun row =>
                   (if (4 <=? List.length row)%nat
                    then pieceRow row 0 pipeDesc multipleDesc drawingNo pipeClass else []) ++
                   (if (8 <=? List.length row)%nat
                    then pieceRow row 4 pipeDesc multipleDesc drawingNo pipeClass else []))
                rows)
  end.

End CutLengthFormat.

(* ================================================================== *)
(** ** [weld_integration.go]: the field locators of the integrated tool *)

Module WeldIntegration.

Section Exchange.
Context {A : Type} (greater : A -> A -> bool).

(** The inner loop of the hand-written sort, for a fixed [i]:
    [for j := i+1; j < len; j++ { if c[i] > c[j] { swap } }].
    [cur] is [c[i]], [rest] is [c[i+1:]]; the result is the final [c[i]]
    and the final [c[i+1:]]. *)
Fixpoint sweep (cur : A) (rest : list A) : A * list A :=
  match rest with
  | [] => (cur, [])
  | y :: rest' =>
      if greater cur y
      then let '(m, r) := sweep y rest' in (m, cur :: r)
      else let '(m, r) := sweep cur rest' in (m, y :: r)
  end.

(** The outer loop over [i]; [n] counts the positions still to fill. *)
Fixpoint exchangeLoop (n : nat) (c : list A) : list A :=
  match n, c with
  | S n', x :: rest => let '(m, r) := sweep x rest in m :: exchangeLoop n' r
  | _, _ => c
  end.

Definition exchangeSort (c : list A) : list A := exchangeLoop (List.length c) c.

End Exchange.

(** [findDrawingNoFromEntities]: the candidate loop of [findDrawingNo], the
    candidates ordered by the hand-written sort, and no label fallback. *)
Definition findDrawingNoFromEntities (entities : list TextEntity) : string :=
  let erection := FieldLocator.findErection entities in
  let candidates := FieldLocator.collectCandidates erection entities in
  match candidates with
  | [] => ""
  | _ =>
      match exchangeSort (fun a b => (FieldLocator.absY b <? FieldLocator.absY a)%float)
                         candidates with
      | selected :: _ => FieldLocator.value selected
      | [] => ""
      end
  end.

(** The same with [strings.ToUpper] as a parameter of the anchor search. *)
Definition findDrawingNoFromEntitiesWith (upper : string -> string)
  (entities : list TextEntity) : string :=
  let erection := FieldLocator.findErectionWith upper entities in
  let candidates := FieldLocator.collectCandidates erection entities in
  match candidates with
  | [] => ""
  | _ =>
      match exchangeSort (fun a b => (FieldLocator.absY b <? FieldLocator.absY a)%float)
                         candidates with
      | selected :: _ => FieldLocator.value selected
      | [] => ""
      end
  end.

End WeldIntegration.

(* ================================================================== *)
(** ** Weld symbol detection ([weld_detector.go], [weld_integration.go]) *)

(** The float64 operations the weld geometry uses. *)
Class Float64 (F : Type) := {
  fadd  : F -> F -> F;
  fsub  : F -> F -> F;
  fmul  : F -> F -> F;
  fdiv  : F -> F -> F;
  fopp  : F -> F;
  fsqrt : F -> F;              (* math.Sqrt *)
  fabs  : F -> F;              (* math.Abs *)
  fmax  : F -> F -> F;         (* math.Max *)
  flt   : F -> F -> bool;      (* x < y *)
  fle   : F -> F -> bool;      (* x <= y *)
  fconst : Q -> F              (* a decimal constant of the source *)
}.

(** [math.Max] on binary64, with its special cases. *)
Definition ieeeMax (x y : float) : float :=
  if (x =? infinity)%float || (y =? infinity)%float then infinity
  else if is_nan x || is_nan y then nan
  else if (x =? 0)%float && (x =? y)%float then (if get_sign x then y else x)
  else if (y <? x)%float then x else y.

(** A decimal constant as the compiler converts it: the nearest binary64. *)
Definition ieeeConst (q : Q) : float :=
  match Qnum q with
  | Z0 => 0%float
  | Zpos n => SF2Prim (Strconv.roundRatio false (Zpos n) (Zpos (Qden q)))
  | Zneg n => SF2Prim (Strconv.roundRatio true (Zpos n) (Zpos (Qden q)))
  end.

#[export] Instance IEEE : Float64 float := {
  fadd := PrimFloat.add;
  fsub := PrimFloat.sub;
  fmul := PrimFloat.mul;
  fdiv := PrimFloat.div;
  fopp := PrimFloat.opp;
  fsqrt := PrimFloat.sqrt;
  fabs := PrimFloat.abs;
  fmax := ieeeMax;
  flt := PrimFloat.ltb;
  fle := PrimFloat.leb;
  fconst := ieeeConst
}.

Definition Rltb (x y : R) : bool := if Rlt_dec x y then true else false.
Definition Rleb (x y : R) : bool := if Rle_dec x y then true else false.

(** The same operations without rounding. *)
#[export] Instance Exact : Float64 R := {
  fadd := Rplus;
  fsub := Rminus;
  fmul := Rmult;
  fdiv := Rdiv;
  fopp := Ropp;
  fsqrt := sqrt;
  fabs := Rabs;
  fmax := Rmax;
  flt := Rltb;
  fle := Rleb;
  fconst := Q2R
}.

Module Weld.

Section Detector.

Context {F : Type} `{Float64 F}.

Local Notation "x + y" := (fadd x y).
Local Notation "x - y" := (fsub x y).
Local Notation "x * y" := (fmul x y).
Local Notation "x / y" := (fdiv x y).
Local Notation "x <? y" := (flt x y).
Local Notation "x <=? y" := (fle x y).
Local Notation "x >? y" := (flt y x).
Local Notation "x >=? y" := (fle y x).

(** [PolylineSegment]. *)
Record PolylineSegment := mkSegment {
  X1 : F; Y1 : F; X2 : F; Y2 : F;
  Layer  : string;
  Length : F
}.

(** [WeldSymbol]: two crossed polyline segments. *)
Record WeldSymbol := mkWeldSymbol {
  CenterX : F; CenterY : F;
  Length1 : F; Length2 : F;
  SymbolLayer : string;
  Confidence  : F
}.

(** Known weld symbol length pairs. *)
Definition weldLengthPairs : list (F * F) :=
  [ (fconst 4.0311%Q, fconst 6.9462%Q);
    (fconst 6.8964%Q, fconst 3.9446%Q);
    (fconst 6.9000%Q, fconst 4.0000%Q) ].

Definition targetLengths : list F :=
  [ fconst 4.0311%Q; fconst 6.9462%Q; fconst 6.8964%Q;
    fconst 3.9446%Q; fconst 6.9000%Q; fconst 4.0000%Q ].

Definition distance (x1 y1 x2 y2 : F) : F :=
  let dx := x2 - x1 in
  let dy := y2 - y1 in
  fsqrt (dx * dx + dy * dy).

Definition isTargetLength (length : F) : bool :=
  let tolerance := fconst 0.01%Q in
  existsb (fun target => fabs (length - target) <=? tolerance) targetLengths.

Definition lengthsMatch (len1 len2 : F) : bool :=
  let tolerance := fconst 0.01%Q in
  existsb (fun pair =>
             ((fabs (len1 - fst pair) <=? tolerance) && (fabs (len2 - snd pair) <=? tolerance)) ||
             ((fabs (len1 - snd pair) <=? tolerance) && (fabs (len2 - fst pair) <=? tolerance)))
          weldLengthPairs.

(** [linesIntersect]: the intersection point, [None] for [false]. *)
Definition linesIntersect (seg1 seg2 : PolylineSegment) : option (F * F) :=
  let x1 := X1 seg1 in let y1 := Y1 seg1 in
  let x2 := X2 seg1 in let y2 := Y2 seg1 in
  let x3 := X1 seg2 in let y3 := Y1 seg2 in
  let x4 := X2 seg2 in let y4 := Y2 seg2 in
  let denom := (x1 - x2) * (y3 - y4) - (y1 - y2) * (x3 - x4) in
  if fabs denom <? fconst 1e-10%Q then None
  else
    let t := ((x1 - x3) * (y3 - y4) - (y1 - y3) * (x3 - x4)) / denom in
    let u := fopp ((x1 - x2) * (y1 - y3) - (y1 - y2) * (x1 - x3)) / denom in
    if (t >=? fconst 0) && (t <=? fconst 1) && (u >=? fconst 0) && (u <=? fconst 1)
    then Some (x1 + t * (x2 - x1), y1 + t * (y2 - y1))
    else None.

(** Distances from the crossing point to the two midpoints. *)
Definition distToMid (seg : PolylineSegment) (ix iy : F) : F :=
  distance ix iy ((X1 seg + X2 seg) / fconst 2) ((Y1 seg + Y2 seg) / fconst 2).

Definition tolerance (seg : PolylineSegment) : F := Length seg * fconst 0.3%Q.

(** Body of the pair loop of [detectWeldSymbols]: the symbol appended for
    the pair, if any. *)
Definition pairSymbol (seg1 seg2 : PolylineSegment) : option WeldSymbol :=
  if negb (lengthsMatch (Length seg1) (Length seg2)) then None
  else
    match linesIntersect seg1 seg2 with
    | None => None
    | Some (ix, iy) =>
        let distToMid1 := distToMid seg1 ix iy in
        let distToMid2 := distToMid seg2 ix iy in
        let tolerance1 := tolerance seg1 in
        let tolerance2 := tolerance seg2 in
        if (distToMid1 >? tolerance1) || (distToMid2 >? tolerance2) then None
        else
          let maxTolerance := fmax tolerance1 tolerance2 in
          let maxDistToMid := fmax distToMid1 distToMid2 in
          let confidence := fconst 1 - (maxDistToMid / maxTolerance) in
          Some (mkWeldSymbol ix iy (Length seg1) (Length seg2) (Layer seg1) confidence)
    end.

(** Inner loop over [j > i]. *)
Fixpoint pairsWith (seg1 : PolylineSegment) (later : list PolylineSegment)
  : list WeldSymbol :=
  match later with
  | [] => []
  | seg2 :: rest =>
      match pairSymbol seg1 seg2 with
      | Some w => w :: pairsWith seg1 rest
      | None => pairsWith seg1 rest
      end
  end.

(** Outer loop over [i]. *)
Fixpoint allPairs (segments : list PolylineSegment) : list WeldSymbol :=
  match segments with
  | [] => []
  | seg1 :: rest => pairsWith seg1 rest ++ allPairs rest
  end.

Definition isDuplicate (unique : list WeldSymbol) (symbol : WeldSymbol) : bool :=
  existsb (fun existing =>
             distance (CenterX symbol) (CenterY symbol) (CenterX existing) (CenterY existing)
             <? fconst 5.0%Q)
          unique.

(** [removeDuplicateSymbols]. *)
Definition removeDuplicateSymbols (symbols : list WeldSymbol) : list WeldSymbol :=
  if (List.length symbols <=? 1)%nat then symbols
  else
    fold_left (fun unique symbol =>
                 if isDuplicate unique symbol then unique else unique ++ [symbol])
              symbols [].

(** [detectWeldSymbols]. *)
Definition detectWeldSymbols (segments : list PolylineSegment) : list WeldSymbol :=
  match segments with
  | [] => []
  | _ => removeDuplicateSymbols (allPairs segments)
  end.

End Detector.

Arguments PolylineSegment F : clear implicits.
Arguments WeldSymbol F : clear implicits.

End Weld.

(* ================================================================== *)
(** ** [spatial.go]: the spatial analyzer *)

Module Spatial.

(** [Distance]: the Euclidean distance between two points. *)
Definition Distance (x1 y1 x2 y2 : float) : float :=
  let dx := (x2 - x1)%float in
  let dy := (y2 - y1)%float in
  PrimFloat.sqrt (dx * dx + dy * dy).

Record BoundingBox := mkBoundingBox {
  MinX : float; MinY : float; MaxX : float; MaxY : float
}.

(** Body of the loop of [GetBoundingBox]: four independent tests. *)
Definition growBox (bbox : BoundingBox) (entity : TextEntity) : BoundingBox :=
  let minX := if (X entity <? MinX bbox)%float then X entity else MinX bbox in
  let maxX := if (MaxX bbox <? X entity)%float then X entity else MaxX bbox in
  let minY := if (Y entity <? MinY bbox)%float then Y entity else MinY bbox in
  let maxY := if (MaxY bbox <? Y entity)%float then Y entity else MaxY bbox in
  mkBoundingBox minX minY maxX maxY.

(** [GetBoundingBox]: the zero box for no entities, otherwise the box of the
    first entity grown over all entities. *)
Definition GetBoundingBox (entities : list TextEntity) : BoundingBox :=
  match entities with
  | [] => mkBoundingBox 0 0 0 0
  | first :: _ =>
      fold_left growBox entities
                (mkBoundingBox (X first) (Y first) (X first) (Y first))
  end.

(** [FindEntitiesInRange]. *)
Definition FindEntitiesInRange (entities : list TextEntity) (minX minY maxX maxY : float)
  : list TextEntity :=
  filter (fun entity =>
            (minX <=? X entity)%float && (X entity <=? maxX)%float &&
            (minY <=? Y entity)%float && (Y entity <=? maxY)%float)
         entities.

(** [FindEntitiesInRadius]: squared distances are compared. *)
Definition FindEntitiesInRadius (entities : list TextEntity) (centerX centerY radius : float)
  : list TextEntity :=
  let radiusSquared := (radius * radius)%float in
  filter (fun entity =>
            let dx := (X entity - centerX)%float in
            let dy := (Y entity - centerY)%float in
            let distanceSquared := (dx * dx + dy * dy)%float in
            (distanceSquared <=? radiusSquared)%float)
         entities.

Record EntityWithDistance := mkEntityWithDistance {
  Entity : TextEntity;
  EntityDistance : float
}.

(** [FindNearestEntities]; the count [n] is a Go [int]. *)
Definition FindNearestEntities (entities : list TextEntity) (x y : float) (n : Z)
  : list EntityWithDistance :=
  if (n <=? 0)%Z || (List.length entities =? 0)%nat then []
  else
    let entitiesWithDistance :=
      map (fun entity => mkEntityWithDistance entity (Distance x y (X entity) (Y entity)))
          entities in
    let sorted :=
      Sort.Slice (fun a b => (EntityDistance a <? EntityDistance b)%float)
                 entitiesWithDistance in
    let n := if (Z.of_nat (List.length sorted) <? n)%Z
             then Z.of_nat (List.length sorted) else n in
    firstn (Z.to_nat n) sorted.

(** [toLower]: the bytes [A-Z] shifted by 32, every other byte kept. *)
Definition toLower (s : string) : string :=
  Strings.mapBytes
    (fun b => if (65 <=? Strings.byte b)%nat && (Strings.byte b <=? 90)%nat
              then ascii_of_nat (Strings.byte b + 32) else b)
    s.

(** [stringContains]: the slices [s[i:i+len(substr)]] compared one by one. *)
Definition stringContains (s substr : string) : bool :=
  if (String.length substr =? 0)%nat then true
  else if (String.length s <? String.length substr)%nat then false
  else
    existsb (fun i => String.eqb (substring i (String.length substr) s) substr)
            (seq 0 (String.length s - String.length substr + 1)).

Definition stringContainsIgnoreCase (s substr : string) : bool :=
  stringContains (toLower s) (toLower substr).

Definition containsText (content searchText : string) : bool :=
  (0 <? String.length content)%nat && (0 <? String.length searchText)%nat &&
  stringContainsIgnoreCase content searchText.

(** Body of the inner loop of [FindEntitiesNearText]: the results so far and
    the indices already reported ([seen]). *)
Definition nearStep (refEntity : TextEntity) (maxDistance : float)
  (st : list EntityWithDistance * list nat) (indexed : nat * TextEntity)
  : list EntityWithDistance * list nat :=
  let '(result, seen) := st in
  let '(i, entity) := indexed in
  if existsb (Nat.eqb i) seen then st
  else
    let distance := Distance (X refEntity) (Y refEntity) (X entity) (Y entity) in
    if (distance <=? maxDistance)%float
    then (result ++ [mkEntityWithDistance entity distance], i :: seen)
    else st.

(** [FindEntitiesNearText]. *)
Definition FindEntitiesNearText (entities : list TextEntity) (searchText : string)
  (maxDistance : float) : list EntityWithDistance :=
  let referenceEntities :=
    filter (fun entity => containsText (Content entity) searchText) entities in
  match referenceEntities with
  | [] => []
  | _ =>
      let indexed := combine (seq 0 (List.length entities)) entities in
      let result :=
        fst (fold_left (fun st refEntity => fold_left (nearStep refEntity maxDistance) indexed st)
                       referenceEntities ([], [])) in
      Sort.Slice (fun a b => (EntityDistance a <? EntityDistance b)%float) result
  end.

(** [GetQuadrant]: 1 top-right, 2 top-left, 3 bottom-left, 4 bottom-right;
    the quadrant number is a Go [int]. *)
Definition GetQuadrant (entities : list TextEntity) (refX refY : float) (quadrant : Z)
  : list TextEntity :=
  filter (fun entity =>
            let dx := (X entity - refX)%float in
            let dy := (Y entity - refY)%float in
            match quadrant with
            | 1%Z => (0 <=? dx)%float && (0 <=? dy)%float
            | 2%Z => (dx <=? 0)%float && (0 <=? dy)%float
            | 3%Z => (dx <=? 0)%float && (dy <=? 0)%float
            | 4%Z => (0 <=? dx)%float && (dy <=? 0)%float
            | _ => false
            end)
         entities.

End Spatial.

(* ================================================================== *)
(** ** [main.go]: the DXF text parser of the BOM tool *)

(** The parsers read their input line by line through a [bufio.Scanner];
    they are written here on the list of the lines the scanner delivers. *)

Module MainGo.

Import Strings.

Definition isHexDigit (c : ascii) : bool :=
  Patterns.isDigit c ||
  ((65 <=? byte c)%nat && (byte c <=? 70)%nat) ||
  ((97 <=? byte c)%nat && (byte c <=? 102)%nat).

Definition hexValue (c : ascii) : Z :=
  if Patterns.isDigit c then Z.of_nat (byte c) - 48
  else if (65 <=? byte c)%nat && (byte c <=? 70)%nat then Z.of_nat (byte c) - 55
  else Z.of_nat (byte c) - 87.

Definition byteOf (z : Z) : ascii := ascii_of_nat (Z.to_nat z).

(** [string(rune(codePoint))] for a code point below 0x10000: its UTF-8
    encoding, the replacement character U+FFFD for a surrogate. *)
Definition encodeRune (codePoint : Z) : list ascii :=
  if (codePoint <? 128)%Z then [byteOf codePoint]
  else if (codePoint <? 2048)%Z then
    [ byteOf (Z.lor 192 (Z.shiftr codePoint 6));
      byteOf (Z.lor 128 (Z.land codePoint 63)) ]
  else if (55296 <=? codePoint)%Z && (codePoint <=? 57343)%Z then
    [ byteOf 239; byteOf 191; byteOf 189 ]
  else
    [ byteOf (Z.lor 224 (Z.shiftr codePoint 12));
      byteOf (Z.lor 128 (Z.land (Z.shiftr codePoint 6) 63));
      byteOf (Z.lor 128 (Z.land codePoint 63)) ].

(** The pattern [\\U\+([0-9A-Fa-f]{4})] at the head of [s]: the code point
    and the bytes after the match. *)
Definition escapeHere (s : list ascii) : option (Z * list ascii) :=
  match s with
  | b :: u :: p :: h1 :: h2 :: h3 :: h4 :: rest =>
      if (byte b =? 92)%nat && (byte u =? 85)%nat && (byte p =? 43)%nat &&
         isHexDigit h1 && isHexDigit h2 && isHexDigit h3 && isHexDigit h4
      then Some (hexValue h1 * 4096 + hexValue h2 * 256 + hexValue h3 * 16 + hexValue h4, rest)%Z
      else None
  | _ => None
  end.

(** [ReplaceAllStringFunc]: the matches from left to right, not overlapping;
    [fuel] bounds the number of steps by the length of the text. *)
Fixpoint decodeBytes (fuel : nat) (s : list ascii) : list ascii :=
  match fuel with
  | O => s
  | S fuel' =>
      match s with
      | [] => []
      | c :: tl =>
          match escapeHere s with
          | Some (codePoint, rest) => encodeRune codePoint ++ decodeBytes fuel' rest
          | None => c :: decodeBytes fuel' tl
          end
      end
  end.

(** [decodeUnicode]: escapes of the form \U+00B0 replaced by the character. *)
Definition decodeUnicode (text : string) : string :=
  let s := list_ascii_of_string text in
  string_of_list_ascii (decodeBytes (List.length s) s).

Definition emptyEntity : TextEntity := mkTextEntity "" 0 0 0 "" "".

Definition withContent (e : TextEntity) (v : string) : TextEntity :=
  mkTextEntity v (X e) (Y e) (Height e) (EntityType e) (Layer e).
Definition withX (e : TextEntity) (v : float) : TextEntity :=
  mkTextEntity (Content e) v (Y e) (Height e) (EntityType e) (Layer e).
Definition withY (e : TextEntity) (v : float) : TextEntity :=
  mkTextEntity (Content e) (X e) v (Height e) (EntityType e) (Layer e).
Definition withHeight (e : TextEntity) (v : float) : TextEntity :=
  mkTextEntity (Content e) (X e) (Y e) v (EntityType e) (Layer e).
Definition withEntityType (e : TextEntity) (v : string) : TextEntity :=
  mkTextEntity (Content e) (X e) (Y e) (Height e) v (Layer e).
Definition withLayer (e : TextEntity) (v : string) : TextEntity :=
  mkTextEntity (Content e) (X e) (Y e) (Height e) (EntityType e) v.

(** The variables of the loop of [parseSequential]. *)
Record state := mkState {
  entities       : list TextEntity;
  currentEntity  : TextEntity;
  inTextEntity   : bool;
  expectingValue : bool;
  lastGroupCode  : string
}.

(** The value branch for a text entity: [switch lastGroupCode]. *)
Definition setField (lastGroupCode line : string) (e : TextEntity) : TextEntity :=
  if String.eqb lastGroupCode "1" || String.eqb lastGroupCode "3" then
    withContent e (String.append (Content e) (decodeUnicode line))
  else if String.eqb lastGroupCode "8" then withLayer e line
  else if String.eqb lastGroupCode "10" then
    match Strconv.ParseFloat line with Some x => withX e x | None => e end
  else if String.eqb lastGroupCode "20" then
    match Strconv.ParseFloat line with Some y => withY e y | None => e end
  else if String.eqb lastGroupCode "40" then
    match Strconv.ParseFloat line with Some h => withHeight e h | None => e end
  else e.

(** Body of the scanning loop; [text] is the line as scanned. *)
Definition step (st : state) (text : string) : state :=
  let line := TrimSpace text in
  if negb (expectingValue st) then
    if String.eqb line "0" then
      let entities1 :=
        if inTextEntity st && negb (String.eqb (Content (currentEntity st)) "")
        then entities st ++ [currentEntity st] else entities st in
      mkState entities1 emptyEntity false true (lastGroupCode st)
    else if inTextEntity st then
      mkState (entities st) (currentEntity st) (inTextEntity st) true line
    else
      mkState (entities st) (currentEntity st) (inTextEntity st) true (lastGroupCode st)
  else
    if String.eqb (lastGroupCode st) "" &&
       (String.eqb line "TEXT" || String.eqb line "MTEXT") then
      mkState (entities st) (withEntityType (currentEntity st) line) true false ""
    else if inTextEntity st then
      mkState (entities st) (setField (lastGroupCode st) line (currentEntity st))
              (inTextEntity st) false ""
    else
      mkState (entities st) (currentEntity st) (inTextEntity st) false "".

(** [parseSequential], on the scanned lines of the file. *)
Definition parseSequential (lines : list string) : list TextEntity :=
  let st := fold_left step lines (mkState [] emptyEntity false false "") in
  if inTextEntity st && negb (String.eqb (Content (currentEntity st)) "")
  then entities st ++ [currentEntity st] else entities st.

End MainGo.

(* ================================================================== *)
(** ** [weld_detector.go]: the parsers of the weld detector *)

Module WeldParsers.

Import Strings.

(** [strconv.Atoi] with a 64-bit [int]: an optional sign and decimal digits,
    within the range of [int]. *)
Fixpoint decimal (acc : Z) (s : list ascii) : option Z :=
  match s with
  | [] => Some acc
  | c :: rest =>
      if Patterns.isDigit c then decimal (acc * 10 + (Z.of_nat (byte c) - 48)) rest
      else None
  end.

Definition Atoi (str : string) : option Z :=
  match list_ascii_of_string str with
  | [] => None
  | c :: rest =>
      let '(neg, digits) :=
        if (byte c =? 45)%nat then (true, rest)
        else if (byte c =? 43)%nat then (false, rest)
        else (false, c :: rest) in
      match digits with
      | [] => None
      | _ =>
          match decimal 0 digits with
          | Some n =>
              let v := if neg then (- n)%Z else n in
              if (- 2 ^ 63 <=? v)%Z && (v <=? 2 ^ 63 - 1)%Z then Some v else None
          | None => None
          end
      end
  end.

(** The variables of the loop of [parseTextEntities]. *)
Record textState := mkTextState {
  textEntities  : list TextEntity;
  currentEntity : option TextEntity;
  currentCode   : string
}.

(** The entity under construction appended if it has content. *)
Definition flush (entities : list TextEntity) (current : option TextEntity)
  : list TextEntity :=
  match current with
  | Some e => if negb (String.eqb (Content e) "") then entities ++ [e] else entities
  | None => entities
  end.

Definition hasContent (current : option TextEntity) : bool :=
  match current with
  | Some e => negb (String.eqb (Content e) "")
  | None => false
  end.

(** [switch currentCode] for a line that is not a group code. *)
Definition textValue (st : textState) (line : string) : textState :=
  let code := currentCode st in
  if String.eqb code "0" then
    if String.eqb line "TEXT" || String.eqb line "MTEXT"
    then mkTextState (textEntities st)
                     (Some (MainGo.withEntityType MainGo.emptyEntity line)) code
    else mkTextState (flush (textEntities st) (currentEntity st)) None code
  else
    match currentEntity st with
    | None => st
    | Some e =>
        let e' :=
          if String.eqb code "1" || String.eqb code "3" then
            MainGo.withContent e (String.append (Content e) line)
          else if String.eqb code "10" then
            match Strconv.ParseFloat line with Some x => MainGo.withX e x | None => e end
          else if String.eqb code "20" then
            match Strconv.ParseFloat line with Some y => MainGo.withY e y | None => e end
          else if String.eqb code "40" then
            match Strconv.ParseFloat line with Some h => MainGo.withHeight e h | None => e end
          else if String.eqb code "8" then MainGo.withLayer e line
          else e in
        mkTextState (textEntities st) (Some e') code
    end.

(** Body of the scanning loop of [parseTextEntities]. *)
Definition textStep (st : textState) (text : string) : textState :=
  let line := TrimSpace text in
  if String.eqb line "" then st
  else
    match Atoi line with
    | Some code =>
        if ((code =? 0)%Z || (code =? 8)%Z) && hasContent (currentEntity st)
        then mkTextState (flush (textEntities st) (currentEntity st)) None line
        else mkTextState (textEntities st) (currentEntity st) line
    | None => textValue st line
    end.

(** [parseTextEntities], on the scanned lines of the content. *)
Definition parseTextEntities (lines : list string) : list TextEntity :=
  let st := fold_left textStep lines (mkTextState [] None "") in
  flush (textEntities st) (currentEntity st).

(** The variables of the loop of [parsePolylineSegmentsOptimized]. *)
Record polyState := mkPolyState {
  segments       : list (Weld.PolylineSegment float);
  currentLayer   : string;
  vertices       : list (float * float);
  inPolyline     : bool;
  inVertex       : bool;
  expectingValue : bool;
  lastGroupCode  : string;
  currentX       : float;
  currentY       : float
}.

(** The segments between consecutive vertices that have a target length. *)
Fixpoint targetSegments (layer : string) (vertices : list (float * float))
  : list (Weld.PolylineSegment float) :=
  match vertices with
  | (x1, y1) :: (((x2, y2) :: _) as rest) =>
      let length := Weld.distance x1 y1 x2 y2 in
      if Weld.isTargetLength length
      then Weld.mkSegment x1 y1 x2 y2 layer length :: targetSegments layer rest
      else targetSegments layer rest
  | _ => []
  end.

(** The value branch: [switch lastGroupCode]. *)
Definition polyValue (st : polyState) (line : string) : polyState :=
  let code := lastGroupCode st in
  if String.eqb code "0" then
    if String.eqb line "POLYLINE" then
      mkPolyState (segments st) (currentLayer st) [] true (inVertex st)
                  false code (currentX st) (currentY st)
    else if String.eqb line "SEQEND" && inPolyline st then
      mkPolyState (segments st ++
                   (if (2 <=? List.length (vertices st))%nat
                    then targetSegments (currentLayer st) (vertices st) else []))
                  (currentLayer st) (vertices st) false false
                  false code (currentX st) (currentY st)
    else if String.eqb line "VERTEX" && inPolyline st then
      mkPolyState (segments st) (currentLayer st) (vertices st) (inPolyline st) true
                  false code (currentX st) (currentY st)
    else
      mkPolyState (segments st) (currentLayer st) (vertices st) (inPolyline st) (inVertex st)
                  false code (currentX st) (currentY st)
  else if String.eqb code "8" then
    mkPolyState (segments st) (if inPolyline st then line else currentLayer st)
                (vertices st) (inPolyline st) (inVertex st)
                false code (currentX st) (currentY st)
  else if String.eqb code "10" then
    let x := if inPolyline st && inVertex st
             then match Strconv.ParseFloat line with Some val => val | None => currentX st end
             else currentX st in
    mkPolyState (segments st) (currentLayer st) (vertices st) (inPolyline st) (inVertex st)
                false code x (currentY st)
  else if String.eqb code "20" then
    if inPolyline st && inVertex st then
      match Strconv.ParseFloat line with
      | Some val =>
          mkPolyState (segments st) (currentLayer st) (vertices st ++ [(currentX st, val)])
                      (inPolyline st) false false code (currentX st) val
      | None =>
          mkPolyState (segments st) (currentLayer st) (vertices st) (inPolyline st)
                      (inVertex st) false code (currentX st) (currentY st)
      end
    else
      mkPolyState (segments st) (currentLayer st) (vertices st) (inPolyline st) (inVertex st)
                  false code (currentX st) (currentY st)
  else
    mkPolyState (segments st) (currentLayer st) (vertices st) (inPolyline st) (inVertex st)
                false code (currentX st) (currentY st).

(** Body of the scanning loop: group code and value lines alternate. *)
Definition polyStep (st : polyState) (text : string) : polyState :=
  let line := TrimSpace text in
  if negb (expectingValue st) then
    mkPolyState (segments st) (currentLayer st) (vertices st) (inPolyline st) (inVertex st)
                true line (currentX st) (currentY st)
  else polyValue st line.

(** [parsePolylineSegmentsOptimized], on the scanned lines of the content. *)
Definition parsePolylineSegmentsOptimized (lines : list string)
  : list (Weld.PolylineSegment float) :=
  segments (fold_left polyStep lines (mkPolyState [] "" [] false false false "" 0 0)).

(** [extractWeldsFromRawContent] of [weld_integration.go], and the weld
    count of [processFile]: the symbols detected among the parsed segments. *)
Definition extractWeldsFromRawContent (lines : list string) : nat :=
  List.length (Weld.detectWeldSymbols (parsePolylineSegmentsOptimized lines)).

End WeldParsers.

(* ================================================================== *)
(** ** The pipe-class locators *)

Module PipeClass.

Import Strings.

(** [pipeClassPattern = \b[A-Z]{4}\b]: the pattern at the head of [s], with
    the closing word boundary. *)
Definition pipeClassHere (s : list ascii) : bool :=
  match s with
  | c0 :: c1 :: c2 :: c3 :: rest =>
      isUpperByte c0 && isUpperByte c1 && isUpperByte c2 && isUpperByte c3 &&
      match rest with
      | [] => true
      | c :: _ => negb (Patterns.isWord c)
      end
  | _ => false
  end.

(** Leftmost match; [prevWord] tells whether the byte before [s] is a word
    byte (the opening word boundary). *)
Fixpoint pipeClassScan (prevWord : bool) (s : list ascii) : string :=
  match s with
  | [] => ""
  | c :: rest =>
      if negb prevWord && pipeClassHere s
      then string_of_list_ascii (firstn 4 s)
      else pipeClassScan (Patterns.isWord c) rest
  end.

(** [pipeClassPattern.FindString]: the match, or the empty string. *)
Definition pipeClassFindString (str : string) : string :=
  pipeClassScan false (list_ascii_of_string str).

(** [strings.ReplaceAll(s, old, "")] for a one-byte [old]. *)
Definition removeByte (old : ascii) (s : string) : string :=
  string_of_list_ascii
    (filter (fun c => negb (Ascii.eqb c old)) (list_ascii_of_string s)).

(** The test for the label of the pipe class. *)
Definition isLabel (entity : TextEntity) : bool :=
  let textClean :=
    ToLower (removeByte "010"%char (removeByte " "%char (Content entity))) in
  Contains textClean "pipeclass" || Contains textClean "pipe_class" ||
  (Contains (ToLower (Content entity)) "pipe" && Contains (ToLower (Content entity)) "class").

(** Position of the first label. *)
Fixpoint findLabel (entities : list TextEntity) : option (float * float) :=
  match entities with
  | [] => None
  | entity :: rest =>
      if isLabel entity then Some (X entity, Y entity) else findLabel rest
  end.

Record candidate := mkCandidate {
  value    : string;
  distance : float
}.

(** The candidates near the label: on its row, to its right, not too far. *)
Definition labelCandidate (labelX labelY : float) (entity : TextEntity)
  : option candidate :=
  if (abs (Y entity - labelY) <? 20)%float &&
     (labelX <? X entity)%float &&
     (abs (X entity - labelX) <? 200)%float
  then
    let mtch := pipeClassFindString (TrimSpace (Content entity)) in
    if negb (String.eqb mtch "")
    then Some (mkCandidate mtch (abs (X entity - labelX)))
    else None
  else None.

Fixpoint labelCandidates (labelX labelY : float) (entities : list TextEntity)
  : list candidate :=
  match entities with
  | [] => []
  | entity :: rest =>
      match labelCandidate labelX labelY entity with
      | Some c => c :: labelCandidates labelX labelY rest
      | None => labelCandidates labelX labelY rest
      end
  end.

(** Y of the first entity that contains DESIGN DATA. *)
Fixpoint findDesignData (entities : list TextEntity) : option float :=
  match entities with
  | [] => None
  | entity :: rest =>
      if Contains (ToUpper (Content entity)) "DESIGN DATA"
      then Some (Y entity) else findDesignData rest
  end.

(** The first match within 150 units below DESIGN DATA. *)
Fixpoint designDataMatch (designDataY : float) (entities : list TextEntity)
  : option string :=
  match entities with
  | [] => None
  | entity :: rest =>
      if (Y entity <? designDataY)%float && (designDataY - 150 <? Y entity)%float then
        let mtch := pipeClassFindString (TrimSpace (Content entity)) in
        if negb (String.eqb mtch "") then Some mtch else designDataMatch designDataY rest
      else designDataMatch designDataY rest
  end.

Record centerCandidate := mkCenterCandidate {
  centerValue : string;
  centerX     : float;
  centerY     : float
}.

(** The candidates of the bottom area left of X = 500. *)
Fixpoint centerCandidates (bottomEntities : list TextEntity) : list centerCandidate :=
  match bottomEntities with
  | [] => []
  | entity :: rest =>
      if (X entity <? 500)%float then
        let mtch := pipeClassFindString (TrimSpace (Content entity)) in
        if negb (String.eqb mtch "")
        then mkCenterCandidate mtch (X entity) (Y entity) :: centerCandidates rest
        else centerCandidates rest
      else centerCandidates rest
  end.

Section Locator.

(** The sort the function orders its slices with, given the comparison
    [less]: [sort.Slice] in [findPipeClass], nested exchange loops in
    [findPipeClassFromEntities]. *)
Variable sortBy : forall A : Type, (A -> A -> bool) -> list A -> list A.

(** The pipe class, and the entity slice as the function leaves it: the
    fallback sorts the caller's slice in place. *)
Definition locate (entities : list TextEntity) : string * list TextEntity :=
  let fromLabel :=
    match findLabel entities with
    | Some (labelX, labelY) =>
        match sortBy candidate (fun a b => (distance a <? distance b)%float)
                     (labelCandidates labelX labelY entities) with
        | closest :: _ => Some (value closest)
        | [] => None
        end
    | None => None
    end in
  match fromLabel with
  | Some pipeClass => (pipeClass, entities)
  | None =>
      let fromDesignData :=
        match findDesignData entities with
        | Some designDataY => designDataMatch designDataY entities
        | None => None
        end in
      match fromDesignData with
      | Some pipeClass => (pipeClass, entities)
      | None =>
          let below := filter (fun entity => (Y entity <? 100)%float) entities in
          let '(bottomEntities, entities') :=
            match below with
            | [] =>
                let sorted := sortBy TextEntity (fun a b => (Y a <? Y b)%float) entities in
                (firstn (Nat.div (List.length sorted) 2) sorted, sorted)
            | _ => (below, entities)
            end in
          match sortBy centerCandidate (fun a b => (centerX a <? centerX b)%float)
                       (centerCandidates bottomEntities) with
          | first :: _ => (centerValue first, entities')
          | [] => ("", entities')
          end
      end
  end.

End Locator.

(** [findPipeClass] of the BOM tool ([cut_length_extractor.go]). *)
Definition findPipeClass (textEntities : list TextEntity) : string * list TextEntity :=
  locate (fun A less => Sort.Slice less) textEntities.

(** [findPipeClassFromEntities] of [weld_integration.go]: the exchange
    loops swap [c[i]] and [c[j]] when [c[i] > c[j]]. *)
Definition findPipeClassFromEntities (entities : list TextEntity)
  : string * list TextEntity :=
  locate (fun A less => WeldIntegration.exchangeSort (fun a b => less b a)) entities.

(** [findPipeClass] of [weld_detector.go]: the first half of the entities
    (the last three quarters of more than 100), no label, no sort of the
    entities. *)
Definition findPipeClassOfDetector (textEntities : list TextEntity) : string :=
  match textEntities with
  | [] => ""
  | _ =>
      let bottomEntities :=
        if (100 <? List.length textEntities)%nat
        then skipn (Nat.div (List.length textEntities) 4) textEntities
        else firstn (Nat.div (List.length textEntities) 2) textEntities in
      match Sort.Slice (fun a b => (centerX a <? centerX b)%float)
                       (centerCandidates bottomEntities) with
      | first :: _ => centerValue first
      | [] => ""
      end
  end.

End PipeClass.

(* ================================================================== *)
(** ** The BOM tool: one drawing and the aggregation over the drawings *)

Module BomTool.

(** [DXFResult], without the file name, the error text and the timing. *)
Record DXFResult := mkDXFResult {
  DrawingNo : string;
  PipeClass : string;
  MatHeader : Row;
  MatRows   : list Row;
  CutHeader : Row;
  CutRows   : list Row
}.

(** [processDXFFileWithCaching] from the parsed entities on: the two
    fields, the two tables, the two added columns of the materials rows and
    the single-row format of the cut lengths.  With the weld flag the two
    fields are located once more for the cache before they are located for
    the result; the pipe-class locator may reorder the entities, so the
    second search and the tables read the reordered slice.  The cache itself
    is left out.  [None] is the panic of the table extractor. *)
Definition processDXFFileWithCaching (weldFlag : bool) (textEntities : list TextEntity)
  : option DXFResult :=
  let textEntities0 :=
    if weldFlag then snd (PipeClass.findPipeClass textEntities) else textEntities in
  let drawingNo := FieldLocator.findDrawingNo textEntities0 in
  let '(pipeClass, textEntities1) := PipeClass.findPipeClass textEntities0 in
  match TableExtraction.extractTable textEntities1 "ERECTION MATERIALS" with
  | None => None
  | Some (matHeader, matRows) =>
      match TableExtraction.extractTable textEntities1 "CUT PIPE LENGTH" with
      | None => None
      | Some (cutHeader, cutRows) =>
          let '(resultMatHeader, resultMatRows) :=
            match matRows with
            | [] => ([], [])
            | _ => (matHeader ++ ["Drawing-No."; "Pipe Class"],
                    map (fun row => row ++ [drawingNo; pipeClass]) matRows)
            end in
          let '(resultCutHeader, resultCutRows) :=
            match cutRows with
            | [] => ([], [])
            | _ =>
                CutLengthFormat.convertCutLengthToSingleRowFormat
                  cutHeader cutRows drawingNo pipeClass
                  (CutLengthFormat.extractPipeDescriptions matRows)
            end in
          Some (mkDXFResult drawingNo pipeClass resultMatHeader resultMatRows
                            resultCutHeader resultCutRows)
      end
  end.

(** [processDXFFile]: the same without the cache. *)
Definition processDXFFile (textEntities : list TextEntity) : option DXFResult :=
  processDXFFileWithCaching false textEntities.

(** The four accumulators of the aggregation loop of [runBOMExtraction]. *)
Record totals := mkTotals {
  materialRows : list Row;
  cutRows      : list Row;
  matHeader    : Row;
  cutHeader    : Row
}.

(** Body of the aggregation loop. *)
Definition addResult (t : totals) (result : DXFResult) : totals :=
  let t1 :=
    match MatRows result with
    | [] => t
    | _ =>
        mkTotals (materialRows t ++ MatRows result) (cutRows t)
                 (match matHeader t with [] => MatHeader result | _ => matHeader t end)
                 (cutHeader t)
    end in
  match CutRows result with
  | [] => t1
  | _ =>
      mkTotals (materialRows t1) (cutRows t1 ++ CutRows result) (matHeader t1)
               (match cutHeader t1 with [] => CutHeader result | _ => cutHeader t1 end)
  end.

Definition aggregate (results : list DXFResult) : totals :=
  fold_left addResult results (mkTotals [] [] [] []).

End BomTool.

(* ================================================================== *)
(** ** Sample drawings and rows used in the examples below *)

Definition fragment (content : string) (x y : float) : TextEntity :=
  mkTextEntity content x y 2.5%float "TEXT" "0".

(** A parts list whose two header lines have one column and whose data line
    has two cells. *)
Definition narrowHeaderDrawing : list TextEntity :=
  [ fragment "PARTS LIST" 0 10;
    fragment "ITEM" 0 9;
    fragment "NO" 0 8;
    fragment "7" 0 7; fragment "BOLT" 1 7 ].

(** A drawing without any table title. *)
Definition untitledDrawing : list TextEntity :=
  [ fragment "GENERAL NOTES" 0 10; fragment "1ABC23BR456" 5 2 ].

(** Every data row keeps all its cells in the returned table. *)
Definition keepsEveryCell (textEntities : list TextEntity) (tableTitle : string) : Prop :=
  forall titleEntity header dataRows rows,
    Table.findTitle textEntities tableTitle = Some titleEntity ->
    Table.processTable WeldDetector.processErectionMaterialsTable
      WeldDetector.validateAndCorrectCutLengthRow tableTitle
      (Table.tableRowsOf textEntities tableTitle titleEntity) = Some (header, dataRows) ->
    WeldDetector.extractTable textEntities tableTitle = Some (header, rows) ->
    Forall2 (fun row out =>
               List.length out = List.length header /\
               forall cell, In cell row -> In cell out)
            dataRows rows.

(** A component row without nominal size and without weight. *)
Definition componentRowWithoutSize : Row := ["A1"; "PIPE SCH40"; ""; "2"; ""].

(** The category test on the cells at indices 2 and 4. *)
Definition categoryByColumns2And4 (row : Row) : Prop :=
  Materials.isCategory row = true <->
  (nth 2 row "" = "" /\ nth 4 row "" = "") \/
  nth 0 row "" = "TOTAL ERECTION WEIGHT" \/ nth 0 row "" = "TOTAL WEIGHT".

(** The four output columns of one piece: piece number, the first two
    numeric values, the first remark; empty strings where there is none. *)
Definition pieceColumns (g : option CutLength.pieceGroup) : Row :=
  match g with
  | Some group =>
      [ CutLength.piece group;
        nth 0 (CutLength.numbers group) "";
        nth 1 (CutLength.numbers group) "";
        nth 0 (CutLength.remarks group) "" ]
  | None => [""; ""; ""; ""]
  end.

(** The non-blank cells of a slice of a row, trimmed. *)
Definition trimmedCells (cells : Row) : Row :=
  filter (fun cell => negb (String.eqb cell "")) (map Strings.TrimSpace cells).

(** The cells after the piece-number cell at [index], up to [endPos]. *)
Definition cellsOfPiece (row : Row) (index endPos : nat) : Row :=
  firstn (endPos - S index) (skipn (S index) row).

(** A list of weld symbols in which no symbol is a duplicate of the symbols
    before it: what the deduplication loop builds. *)
Inductive Spaced {F : Type} `{Float64 F} : list (Weld.WeldSymbol F) -> Prop :=
| Spaced_nil : Spaced []
| Spaced_snoc (unique : list (Weld.WeldSymbol F)) (symbol : Weld.WeldSymbol F) :
    Spaced unique ->
    Weld.isDuplicate unique symbol = false ->
    Spaced (unique ++ [symbol]).

(** The loop of [removeDuplicateSymbols], from a given list of accepted
    symbols. *)
Definition dedupeFrom {F : Type} `{Float64 F}
  (unique symbols : list (Weld.WeldSymbol F)) : list (Weld.WeldSymbol F) :=
  fold_left (fun unique symbol =>
               if Weld.isDuplicate unique symbol then unique else unique ++ [symbol])
            symbols unique.

(** The header of the materials file and three one-row files: a weight cell
    holding a single space, a quantity in metres, and a quantity with lower
    case letters before its unit. *)
Definition materialsHeader : Row :=
  ["PT NO"; "COMPONENT DESCRIPTION"; "N.S."; "QTY"; "WEIGHT"].

Definition blankWeightFile : list Row :=
  [materialsHeader; ["3"; "GASKET"; "50"; "4"; " "]].

Definition metresFile : list Row :=
  [materialsHeader; ["1"; "PIPE"; "2.4m"; "3.1"; ""]; ["2"; "ELBOW"; "25"; "1"; "0.5"]].

Definition lowerCaseQtyFile : list Row :=
  [materialsHeader; ["5"; "PIPE"; "25"; "2x1.5m"; "7.2"]].

(** Cell [j] of a row after the right shift: N.S. emptied, QTY taken from
    N.S., WEIGHT taken from QTY, every other cell kept. *)
Definition shiftedCell (nsIdx qtyIdx weightIdx : nat) (row : Row) (j : nat) : string :=
  if (j =? nsIdx)%nat then ""
  else if (j =? qtyIdx)%nat then nth nsIdx row ""
  else if (j =? weightIdx)%nat then nth qtyIdx row ""
  else nth j row "".

(** The trigger of the shift: PT NO not blank and WEIGHT blank, both after
    trimming white space. *)
Definition shiftTrigger (ptNoIdx weightIdx : nat) (row : Row) : bool :=
  negb (String.eqb (Strings.TrimSpace (nth ptNoIdx row "")) "") &&
  String.eqb (Strings.TrimSpace (nth weightIdx row "")) "".

(** Cell [j] of a row after the shift loop. *)
Definition movedCell (ptNoIdx nsIdx qtyIdx weightIdx : nat) (row : Row) (j : nat) : string :=
  if shiftTrigger ptNoIdx weightIdx row
  then shiftedCell nsIdx qtyIdx weightIdx row j
  else nth j row "".

(** One row through both loops of [fixMissingNSColumns]. *)
Definition rowAfter (ptNoIdx nsIdx qtyIdx weightIdx : nat) (row : Row) : Row :=
  fst (BomUtils.cleanRow qtyIdx (fst (BomUtils.shiftRow ptNoIdx nsIdx qtyIdx weightIdx row))).

(** A row shifted to the right: every cell replaced by [shiftedCell]. *)
Definition shiftedRow (nsIdx qtyIdx weightIdx : nat) (row : Row) : Row :=
  map (shiftedCell nsIdx qtyIdx weightIdx row) (seq 0 (List.length row)).

(** Every data row with a PT NO cell that is not empty and an empty WEIGHT
    cell comes out of the pass shifted to the right; the cells are those
    under the columns PT NO, N.S., QTY and WEIGHT of the table. *)
Definition shiftsRowsWithEmptyWeight (ptNoIdx nsIdx qtyIdx weightIdx : nat)
  (records : list Row) : Prop :=
  forall i row,
    nth_error (tl records) i = Some row ->
    nth ptNoIdx row "" <> "" -> nth weightIdx row "" = "" ->
    nth_error (tl (BomUtils.recordsAfter records)) i
      = Some (shiftedRow nsIdx qtyIdx weightIdx row).

(** Text of ASCII characters only: on such text [strings.ToUpper] of the Go
    library is the mapping of the letters a-z. *)
Definition isASCII (s : string) : bool :=
  forallb (fun c => (Strings.byte c <? 128)%nat) (list_ascii_of_string s).

(** A float that is not NaN: it is equal to itself. *)
Definition notNaN (x : float) : Prop := (x =? x)%float = true.

(** Equality of two binary64 values as [==] decides it: the two zeros are
    equal, a NaN is equal to nothing. *)
Definition SFeq (x y : spec_float) : Prop :=
  match x, y with
  | S754_zero _, S754_zero _ => True
  | S754_infinity s1, S754_infinity s2 => s1 = s2
  | S754_finite s1 m1 e1, S754_finite s2 m2 e2 => s1 = s2 /\ m1 = m2 /\ e1 = e2
  | _, _ => False
  end.

(** Comparison of the magnitudes [m1 * 2^e1] and [m2 * 2^e2] of two
    finite binary64 values: exponents first, then mantissas. *)
Definition cmpMag (m1 : positive) (e1 : Z) (m2 : positive) (e2 : Z) : comparison :=
  match Z.compare e1 e2 with
  | Lt => Lt
  | Gt => Gt
  | Eq => Pos.compare m1 m2
  end.

(** A drawing whose only drawing number lies left of the materials table,
    and one with a label but no drawing number. *)
Definition outsideRegionDrawing : list TextEntity :=
  [ fragment "ERECTION MATERIALS" 100 100; fragment "1ABC23BR456" 50 50 ].

Definition titleBlockDrawing : list TextEntity :=
  [ fragment "ERECTION MATERIALS" 100 100;
    fragment "REV 2ABC23BR456 A" 150 60;
    fragment "1ABC23BR456" 150 20;
    fragment "3ABC23BR456" 300 (-40) ].

Definition labelledDrawing : list TextEntity :=
  [ fragment "Drawing-No." 10 10; fragment "SHEET" 5 20; fragment "ISO-17" 11 20 ].

(** With an anchor and no candidate in its region, the drawing number is
    taken from an unfiltered scan of all fragments. *)
Definition fallsBackToUnfilteredScan (textEntities : list TextEntity) : Prop :=
  forall anchor c rest,
    FieldLocator.findErection textEntities = Some anchor ->
    FieldLocator.collectCandidates (Some anchor) textEntities = [] ->
    FieldLocator.sortCandidates (FieldLocator.collectCandidates None textEntities) = c :: rest ->
    FieldLocator.findDrawingNo textEntities = FieldLocator.value c.

(** The cell a fragment contributes to its row. *)
Definition cellOf (entity : TextEntity) : TableCell :=
  mkTableCell (X entity) (Content entity).

(** The cells, in input order, of the fragments whose row key equals [k]. *)
Definition rowOfKey (k : float) (filteredEntities : list TextEntity) : list TableCell :=
  map cellOf (filter (fun entity => (Table.yKey entity =? k)%float) filteredEntities).

(** No two rows of the dictionary have equal keys. *)
Fixpoint keysApart (m : Table.RowsDict) : Prop :=
  match m with
  | [] => True
  | (k, _) :: rest => (forall b, In b rest -> (k =? fst b)%float = false) /\ keysApart rest
  end.

(** The clustering tolerance the row key is meant to realise. *)
Definition rowTolerance : float := ieeeConst 0.05%Q.

(** Two fragments below a title, 0.03125 apart in Y. *)
Definition closeFragmentsDrawing : list TextEntity :=
  [ fragment "NOTES" 0 10; fragment "a" 0 5.03125; fragment "b" 1 5.0625 ].

(** Fragments whose Y differ by at most the tolerance share a row. *)
Definition closeFragmentsShareRow (filteredEntities : list TextEntity) : Prop :=
  forall e1 e2,
    In e1 filteredEntities -> In e2 filteredEntities ->
    (PrimFloat.abs (Y e1 - Y e2) <=? rowTolerance)%float = true ->
    exists k cells,
      In (k, cells) (Table.groupRows filteredEntities) /\
      In (cellOf e1) cells /\ In (cellOf e2) cells.

(** The state of the grouping loop after the fragments [processed]: rows
    under different keys, each holding the fragments of its key, and a row
    for every fragment whose key is not NaN. *)
Definition grouped (m : Table.RowsDict) (processed : list TextEntity) : Prop :=
  keysApart m /\
  (forall k cells, In (k, cells) m -> notNaN k -> cells = rowOfKey k processed) /\
  (forall entity, In entity processed -> notNaN (Table.yKey entity) ->
     exists k cells, In (k, cells) m /\ (k =? Table.yKey entity)%float = true).

(* ================================================================== *)
(** ** Page segmentation, as the design document describes it *)

(** This module is not an embedding of code: the sources hold no page
    segmentation.  It writes down the procedure of the specification
    (section 4.2) and of MULTI_TABLE_DETECTION.md, to compare [extractTable]
    with it: collect the Y of every fragment that contains the
    materials-table title, sort descending, one page per distinct Y from
    its title down to the next title (exclusive), pass every page's bucket
    through the table extractor, concatenate the rows in page order. *)
Module DesignPages.

Definition materialsTitle : string := "ERECTION MATERIALS".

Definition titleYs (textEntities : list TextEntity) : list float :=
  map Y (filter (fun entity =>
                   Strings.Contains (Strings.ToLower (Content entity))
                                    (Strings.ToLower materialsTitle))
                textEntities).

Fixpoint distinct (ys : list float) : list float :=
  match ys with
  | [] => []
  | y :: rest => y :: filter (fun y' => negb (y' =? y)%float) (distinct rest)
  end.

Definition boundaries (textEntities : list TextEntity) : list float :=
  Sort.Slice (fun a b => (b <? a)%float) (distinct (titleYs textEntities)).

(** Start and end of each page. *)
Fixpoint pagesOf (bs : list float) : list (float * option float) :=
  match bs with
  | [] => []
  | startY :: rest =>
      (startY, match rest with endY :: _ => Some endY | [] => None end) :: pagesOf rest
  end.

Definition bucket (textEntities : list TextEntity) (page : float * option float)
  : list TextEntity :=
  filter (fun entity =>
            (Y entity <=? fst page)%float &&
            match snd page with
            | None => true
            | Some endY => (endY <? Y entity)%float
            end)
         textEntities.

(** The rows of all pages in page order; [None] if a page fails. *)
Fixpoint concatPages (extract : list TextEntity -> option (Row * list Row))
  (buckets : list (list TextEntity)) : option (list Row) :=
  match buckets with
  | [] => Some []
  | b :: rest =>
      match extract b, concatPages extract rest with
      | Some (_, rows), Some more => Some (rows ++ more)
      | _, _ => None
      end
  end.

Definition rowsByPages
  (extractTable : list TextEntity -> string -> option (Row * list Row))
  (textEntities : list TextEntity) (tableTitle : string) : option (list Row) :=
  concatPages (fun b => extractTable b tableTitle)
              (map (bucket textEntities) (pagesOf (boundaries textEntities))).

End DesignPages.

(** A drawing of two sheets, the lower sheet first in the file: each sheet
    has its materials title, two header lines of five columns and one
    component row. *)
Definition sheet (titleY : float) (item description size qty weight : string)
  : list TextEntity :=
  [ fragment "ERECTION MATERIALS" 0 titleY;
    fragment "PT" 0 (titleY - 10); fragment "COMPONENT" 10 (titleY - 10);
    fragment "N.S." 20 (titleY - 10); fragment "QTY" 30 (titleY - 10);
    fragment "WEIGHT" 40 (titleY - 10);
    fragment "NO" 0 (titleY - 20); fragment "DESCRIPTION" 10 (titleY - 20);
    fragment "(MM)" 20 (titleY - 20); fragment "(NO)" 30 (titleY - 20);
    fragment "(KG)" 40 (titleY - 20);
    fragment item 0 (titleY - 30); fragment description 10 (titleY - 30);
    fragment size 20 (titleY - 30); fragment qty 30 (titleY - 30);
    fragment weight 40 (titleY - 30) ].

Definition twoSheetDrawing : list TextEntity :=
  sheet 100 "2" "ELBOW 90" "25" "1" "0.5" ++ sheet 200 "1" "PIPE SCH40" "25" "2" "3.5".

Definition materialsTableHeader : Row :=
  ["PT NO"; "COMPONENT DESCRIPTION"; "N.S. (MM)"; "QTY (NO)"; "WEIGHT (KG)"; "CATEGORY"].

(** A materials file as the BOM tool writes it: the merged header and one
    component row whose WEIGHT cell is empty. *)
Definition writtenMaterialsFile : list Row :=
  [materialsTableHeader; ["1"; "PIPE SCH40"; "25"; "2"; ""; "PIPE"]].

(** Two crossed segments of lengths 4 and 6.9, centred on the origin, over
    the real numbers and over binary64; and a second long segment that
    crosses the short one 1.625 away from its midpoint. *)
Definition crossSeg1 : Weld.PolylineSegment R := Weld.mkSegment (-2)%R 0%R 2%R 0%R "WELD" 4%R.

Definition crossSeg2 : Weld.PolylineSegment R :=
  Weld.mkSegment 0%R (-345 / 100)%R 0%R (345 / 100)%R "WELD" (69 / 10)%R.

Definition ieeeSeg1 : Weld.PolylineSegment float :=
  Weld.mkSegment (-2)%float 0%float 2%float 0%float "WELD" 4%float.

Definition ieeeSeg2 : Weld.PolylineSegment float :=
  Weld.mkSegment 0%float (ieeeConst (-3.45)%Q) 0%float (ieeeConst 3.45%Q) "WELD"
                 (ieeeConst 6.9%Q).

Definition ieeeSegOffset : Weld.PolylineSegment float :=
  Weld.mkSegment 1.625%float (ieeeConst (-3.45)%Q) 1.625%float (ieeeConst 3.45%Q) "WELD"
                 (ieeeConst 6.9%Q).

(** The midpoint of a segment as the pair loop computes it. *)
Definition midpoint {F : Type} `{Float64 F} (seg : Weld.PolylineSegment F) : F * F :=
  (fdiv (fadd (Weld.X1 seg) (Weld.X2 seg)) (fconst 2%Q),
   fdiv (fadd (Weld.Y1 seg) (Weld.Y2 seg)) (fconst 2%Q)).

(** A binary64 segment between two points, its length the distance of its
    end points, as the polyline parser builds it. *)
Definition segmentBetween (x1 y1 x2 y2 : float) : Weld.PolylineSegment float :=
  Weld.mkSegment x1 y1 x2 y2 "0" (Weld.distance x1 y1 x2 y2).

(** Two slanted segments of lengths 3.996 and 6.904, both centred on the
    origin: their end points are opposite, so they cross at both midpoints. *)
Definition slantSeg1 : Weld.PolylineSegment float :=
  segmentBetween (ieeeConst (-1.7)%Q) (ieeeConst (-1.05)%Q) (ieeeConst 1.7%Q) (ieeeConst 1.05%Q).

Definition slantSeg2 : Weld.PolylineSegment float :=
  segmentBetween (ieeeConst (-2.1)%Q) (ieeeConst 2.74%Q) (ieeeConst 2.1%Q) (ieeeConst (-2.74)%Q).

(** An accepted pair whose midpoints coincide has confidence 1.0. *)
Definition confidentAtCommonMidpoint (seg1 seg2 : Weld.PolylineSegment float) : Prop :=
  midpoint seg1 = midpoint seg2 ->
  forall w, Weld.pairSymbol seg1 seg2 = Some w -> Weld.Confidence w = 1%float.

(** A row with a cell that contains TOTAL WEIGHT (in any letter case): the
    row at which the materials table ends. *)
Definition hasTotalWeight (row : Row) : bool :=
  existsb (fun cell => Strings.Contains (Strings.ToUpper cell) "TOTAL WEIGHT") row.

(** A materials drawing whose header lines have three columns. *)
Definition threeColumnMaterials : list TextEntity :=
  [ fragment "ERECTION MATERIALS" 0 10;
    fragment "PT" 0 9; fragment "DESCRIPTION" 10 9; fragment "QTY" 20 9;
    fragment "NO" 0 8;
    fragment "1" 0 7; fragment "PIPE" 10 7; fragment "2" 20 7 ].

(** The shape of a KKS drawing number, byte by byte: a digit, three capital
    letters, two digits, the letters BR, three digits. *)
Definition kksClasses : list (ascii -> bool) :=
  [ Patterns.isDigit; Strings.isUpperByte; Strings.isUpperByte; Strings.isUpperByte;
    Patterns.isDigit; Patterns.isDigit;
    Ascii.eqb "B"%char; Ascii.eqb "R"%char;
    Patterns.isDigit; Patterns.isDigit; Patterns.isDigit ].

Definition kksShaped (m : string) : Prop :=
  Forall2 (fun c class => class c = true) (list_ascii_of_string m) kksClasses.

(** [m] occurs in [s]. *)
Definition occursIn (m s : string) : Prop :=
  exists pre post : string, s = (pre ++ m ++ post)%string.

(** An entity inside a bounding box, borders included. *)
Definition inBox (bbox : Spatial.BoundingBox) (entity : TextEntity) : Prop :=
  (Spatial.MinX bbox <=? X entity)%float = true /\
  (X entity <=? Spatial.MaxX bbox)%float = true /\
  (Spatial.MinY bbox <=? Y entity)%float = true /\
  (Y entity <=? Spatial.MaxY bbox)%float = true.

(** An entity whose coordinates are numbers. *)
Definition positioned (entity : TextEntity) : Prop :=
  notNaN (X entity) /\ notNaN (Y entity).

(** The four entities of the analyzer's unit test. *)
Definition analyzerEntities : list TextEntity :=
  [ mkTextEntity "A" 0 0 0 "TEXT" "";
    mkTextEntity "B" 10 10 0 "TEXT" "";
    mkTextEntity "C" 20 20 0 "MTEXT" "";
    mkTextEntity "D" (-10) (-10) 0 "TEXT" "" ].

(** A bounding box made of numbers. *)
Definition numericBox (bbox : Spatial.BoundingBox) : Prop :=
  notNaN (Spatial.MinX bbox) /\ notNaN (Spatial.MaxX bbox) /\
  notNaN (Spatial.MinY bbox) /\ notNaN (Spatial.MaxY bbox).

(** The state of the inner loop of [FindEntitiesNearText]: no index is
    marked as seen twice, the records collected so far are, in order, the
    entities at the seen indices, and every record is an entity within
    [maxDistance] of a reference entity. *)
Definition nearState (entities referenceEntities : list TextEntity) (maxDistance : float)
  (st : list Spatial.EntityWithDistance * list nat) : Prop :=
  NoDup (snd st) /\
  Forall2 (fun r i => nth_error entities i = Some (Spatial.Entity r))
          (fst st) (rev (snd st)) /\
  forall r, In r (fst st) ->
    exists refEntity,
      In refEntity referenceEntities /\
      Spatial.EntityDistance r
        = Spatial.Distance (X refEntity) (Y refEntity)
                           (X (Spatial.Entity r)) (Y (Spatial.Entity r)) /\
      (Spatial.EntityDistance r <=? maxDistance)%float = true.

(** An entity as the text parsers return it: with content, and of type TEXT
    or MTEXT. *)
Definition textLike (entity : TextEntity) : Prop :=
  Content entity <> "" /\ (EntityType entity = "TEXT" \/ EntityType entity = "MTEXT").

(** A segment as the polyline parser returns it: its length is the distance
    of its end points and passes the target-length filter. *)
Definition targetSegment (seg : Weld.PolylineSegment float) : Prop :=
  Weld.Length seg = Weld.distance (Weld.X1 seg) (Weld.Y1 seg) (Weld.X2 seg) (Weld.Y2 seg) /\
  Weld.isTargetLength (Weld.Length seg) = true.

(** A DXF fragment with one TEXT entity whose content carries an escape, and
    one with a polyline of three vertices. *)
Definition textLines : list string :=
  [ "  0"; "TEXT"; "  8"; "BOM"; " 10"; "12.5"; " 20"; "7.25"; " 40"; "2.5";
    "  1"; "90\U+00B0 ELBOW"; "  0"; "EOF" ].

Definition polylineLines : list string :=
  [ "  0"; "POLYLINE"; "  8"; "WELD";
    "  0"; "VERTEX"; " 10"; "0.0"; " 20"; "0.0";
    "  0"; "VERTEX"; " 10"; "4.0"; " 20"; "0.0";
    "  0"; "VERTEX"; " 10"; "4.0"; " 20"; "1.0";
    "  0"; "SEQEND" ].

(** The concatenation of the pieces of a text content. *)
Definition joined (parts : list string) : string := fold_right String.append "" parts.

(** A scanned line that the text parser of the weld detector reads as a
    value: not blank and not a decimal integer (those are group codes). *)
Definition valueLine (lines : list string) (line : string) : Prop :=
  line <> "" /\ WeldParsers.Atoi line = None /\
  exists text, In text lines /\ line = Strings.TrimSpace text.

(** An entity made by the text parser of the weld detector from [lines]. *)
Definition parsedFrom (lines : list string) (entity : TextEntity) : Prop :=
  (EntityType entity = "TEXT" \/ EntityType entity = "MTEXT") /\
  exists parts, Content entity = joined parts /\ Forall (valueLine lines) parts.

(** A TEXT entity whose content is the number 25. *)
Definition numericTextLines : list string :=
  [ "0"; "TEXT"; "8"; "BOM"; "10"; "12.5"; "20"; "7.25"; "1"; "25"; "0"; "EOF" ].

(** Two polylines that cross at their midpoints: a segment of length 4 and
    one of length 6.9. *)
Definition crossedPolylines : list string :=
  [ "0"; "POLYLINE"; "8"; "WELD";
    "0"; "VERTEX"; "10"; "-2.0"; "20"; "0.0";
    "0"; "VERTEX"; "10"; "2.0"; "20"; "0.0";
    "0"; "SEQEND";
    "0"; "POLYLINE"; "8"; "WELD";
    "0"; "VERTEX"; "10"; "0.0"; "20"; "-3.45";
    "0"; "VERTEX"; "10"; "0.0"; "20"; "3.45";
    "0"; "SEQEND"; "0"; "EOF" ].

(** The shape of a pipe class: four capital letters. *)
Definition fourCapitals (m : string) : Prop :=
  String.length m = 4%nat /\
  Forall (fun c => Strings.isUpperByte c = true) (list_ascii_of_string m).

(** A pipe class read from the drawing: nothing, or four capital letters
    that occur in the content of a fragment. *)
Definition pipeClassOf (entities : list TextEntity) (pipeClass : string) : Prop :=
  pipeClass = "" \/
  (fourCapitals pipeClass /\
   exists entity, In entity entities /\ occursIn pipeClass (Content entity)).

(** A drawing with a pipe-class label, and one without label, without
    design data and without fragments below Y = 100. *)
Definition labelledClassDrawing : list TextEntity :=
  [ fragment "Pipe class:" 100 200; fragment "AHDX" 150 200; fragment "rev 2" 120 205 ].

Definition highDrawing : list TextEntity :=
  [ fragment "REV B" 300 400; fragment "AHDX rev" 50 150;
    fragment "ISO" 20 300; fragment "BCDE" 10 120 ].

(** The materials header the aggregation keeps: the header of the first
    result that has material rows. *)
Definition firstMatHeader (results : list BomTool.DXFResult) : Row :=
  match find (fun result => match BomTool.MatRows result with [] => false | _ => true end)
             results with
  | Some result => BomTool.MatHeader result
  | None => []
  end.

(** Two drawings with one material row each; the parts list of the second
    has one column more. *)
Definition fiveColumnDrawing : list TextEntity :=
  [ fragment "ERECTION MATERIALS" 0 100;
    fragment "PT" 0 95; fragment "COMPONENT" 10 95; fragment "N.S." 20 95;
    fragment "QTY" 30 95; fragment "WEIGHT" 40 95;
    fragment "NO" 0 90; fragment "DESCRIPTION" 10 90; fragment "(MM)" 20 90;
    fragment "1" 0 85; fragment "PIPE" 10 85; fragment "50" 20 85;
    fragment "2" 30 85; fragment "7.5" 40 85 ].

Definition sixColumnDrawing : list TextEntity :=
  fiveColumnDrawing ++ [ fragment "REMARK" 50 95; fragment "new" 50 85 ].

(** The fragments of a row, in the order in which the row lists them. *)
Definition rowFragments (filteredEntities : list TextEntity) (k : float) : list TextEntity :=
  Sort.Slice (fun a b => (X a <? X b)%float)
             (filter (fun entity => (Table.yKey entity =? k)%float) filteredEntities).

(** What one drawing contributes. *)
Definition wellFormed (result : BomTool.DXFResult) : Prop :=
  Forall (fun row => List.length row = List.length (BomTool.MatHeader result))
         (BomTool.MatRows result) /\
  (BomTool.MatRows result <> [] -> BomTool.MatHeader result <> []) /\
  Forall (fun row => List.length row = 8%nat) (BomTool.CutRows result) /\
  (BomTool.CutRows result <> [] ->
   BomTool.CutHeader result = CutLengthFormat.singleRowHeader).

(** What the BOM tool makes of the two drawings. *)
Definition fiveColumnResult : BomTool.DXFResult :=
  BomTool.mkDXFResult "" "PIPE"
    ["PT NO"; "COMPONENT DESCRIPTION"; "N.S. (MM)"; "QTY"; "WEIGHT";
     "CATEGORY"; "Drawing-No."; "Pipe Class"]
    [["1"; "PIPE"; "50"; "2"; "7.5"; ""; ""; "PIPE"]] [] [].

Definition sixColumnResult : BomTool.DXFResult :=
  BomTool.mkDXFResult "" "PIPE"
    ["PT NO"; "COMPONENT DESCRIPTION"; "N.S. (MM)"; "QTY"; "WEIGHT";
     "CATEGORY"; "REMARK"; "Drawing-No."; "Pipe Class"]
    [["1"; "PIPE"; "50"; "2"; "7.5"; ""; ""; ""; "PIPE"]] [] [].

(* ================================================================== *)
(** * Properties *)

(** ** The padding loop *)

Lemma nth_map_seq {A : Type} (f : nat -> A) (len n : nat) (d : A) :
  (n < len)%nat -> nth n (map f (seq 0 len)) d = f n.
Proof.
  intros Hn.
  rewrite (nth_indep _ d (f 0%nat)) by (rewrite length_map, length_seq; exact Hn).
  rewrite (map_nth f (seq 0 len) 0%nat n), seq_nth by exact Hn. reflexivity.
Qed.

Lemma padRow_length (header row : Row) :
  List.length (Table.padRow header row) = List.length header.
Proof.
  unfold Table.padRow. now rewrite length_map, length_seq.
Qed.

(** The padding loop cuts a row at the header's length and fills it up with
    empty strings. *)
Lemma padRow_firstn_repeat (header row : Row) :
  Table.padRow header row =
  firstn (List.length header) row ++ repeat "" (List.length header - List.length row).
Proof.
  apply (nth_ext _ _ "" "").
  - rewrite padRow_length, length_app, length_firstn, repeat_length. lia.
  - intros n Hn. rewrite padRow_length in Hn.
    unfold Table.padRow. rewrite nth_map_seq by assumption.
    destruct (Nat.ltb_spec n (List.length row)) as [Hlt | Hge].
    + rewrite app_nth1 by (rewrite length_firstn; lia).
      rewrite nth_firstn.
      destruct (Nat.ltb_spec n (List.length header)); [reflexivity | lia].
    + rewrite app_nth2 by (rewrite length_firstn; lia).
      symmetry. apply nth_repeat.
Qed.

Lemma padRows_spec (header : Row) (dataRows : list Row) :
  Table.padRows header dataRows =
  map (fun row => firstn (List.length header) row ++
                  repeat "" (List.length header - List.length row)) dataRows.
Proof.
  unfold Table.padRows. apply map_ext. intros row. apply padRow_firstn_repeat.
Qed.

(** ** The title search *)

Lemma findTitle_absent (textEntities : list TextEntity) (tableTitle : string) :
  (forall entity, In entity textEntities ->
     Strings.Contains (Strings.ToLower (Content entity)) (Strings.ToLower tableTitle) = false) ->
  Table.findTitle textEntities tableTitle = None.
Proof.
  induction textEntities as [| entity rest IH]; intros Habsent; cbn [Table.findTitle].
  - reflexivity.
  - rewrite (Habsent entity (or_introl eq_refl)).
    apply IH. intros e He. apply Habsent. now right.
Qed.

Lemma findTitle_some (textEntities : list TextEntity) (tableTitle : string) (t : TextEntity) :
  Table.findTitle textEntities tableTitle = Some t ->
  In t textEntities /\
  Strings.Contains (Strings.ToLower (Content t)) (Strings.ToLower tableTitle) = true.
Proof.
  induction textEntities as [| entity rest IH]; cbn [Table.findTitle]; intros Hfind.
  - discriminate.
  - destruct (Strings.Contains (Strings.ToLower (Content entity)) _) eqn:Hc.
    + injection Hfind as <-. split; [now left | exact Hc].
    + destruct (IH Hfind) as [Hin Ht]. split; [now right | exact Ht].
Qed.

(** The searches of the model are the parametrised searches at the mapping of
    the ASCII letters. *)
Lemma findTitle_ascii (textEntities : list TextEntity) (tableTitle : string) :
  Table.findTitle textEntities tableTitle
    = Table.findTitleWith Strings.ToLower textEntities tableTitle.
Proof.
  induction textEntities as [| entity rest IH]; cbn [Table.findTitle Table.findTitleWith];
    [reflexivity |].
  now rewrite IH.
Qed.

Lemma extractTable_ascii
  (processErectionMaterialsTable : list Row -> list Row)
  (validateAndCorrectCutLengthRow : Row -> Row)
  (textEntities : list TextEntity) (tableTitle : string) :
  Table.extractTable processErectionMaterialsTable validateAndCorrectCutLengthRow
    textEntities tableTitle
  = Table.extractTableWith processErectionMaterialsTable validateAndCorrectCutLengthRow
      Strings.ToLower textEntities tableTitle.
Proof.
  unfold Table.extractTable, Table.extractTableWith. now rewrite findTitle_ascii.
Qed.

Lemma findTitleWith_absent (lower : string -> string)
  (textEntities : list TextEntity) (tableTitle : string) :
  (forall entity, In entity textEntities ->
     Strings.Contains (lower (Content entity)) (lower tableTitle) = false) ->
  Table.findTitleWith lower textEntities tableTitle = None.
Proof.
  induction textEntities as [| entity rest IH]; intros Habsent; cbn [Table.findTitleWith].
  - reflexivity.
  - rewrite (Habsent entity (or_introl eq_refl)).
    apply IH. intros e He. apply Habsent. now right.
Qed.

(** C8.  When the title occurs in no fragment (case-insensitive substring
    test: the lower-cased title is not contained in the lower-cased content),
    [extractTable] returns an empty header and no rows, and does not fail.
    [lower] stands for [strings.ToLower] of the Go library: the statement
    holds for every case mapping, so for the library's on any text, and for
    whatever the two table-kind passes are, hence for both programs. *)
Theorem extractTable_title_absent (lower : string -> string)
  (processErectionMaterialsTable : list Row -> list Row)
  (validateAndCorrectCutLengthRow : Row -> Row)
  (textEntities : list TextEntity) (tableTitle : string) :
  (forall entity, In entity textEntities ->
     Strings.Contains (lower (Content entity)) (lower tableTitle) = false) ->
  Table.extractTableWith processErectionMaterialsTable validateAndCorrectCutLengthRow
    lower textEntities tableTitle = Some ([], []).
Proof.
  intros Habsent. unfold Table.extractTableWith.
  now rewrite (findTitleWith_absent _ _ _ Habsent).
Qed.

Lemma extractTable_title_absent_witness :
  WeldDetector.extractTable untitledDrawing "ERECTION MATERIALS" = Some ([], []) /\
  TableExtraction.extractTable untitledDrawing "ERECTION MATERIALS" = Some ([], []).
Proof.
  assert (Habsent : forall entity, In entity untitledDrawing ->
            Strings.Contains (Strings.ToLower (Content entity))
                             (Strings.ToLower "ERECTION MATERIALS") = false).
  { intros entity Hin. simpl in Hin.
    destruct Hin as [<- | [<- | []]]; vm_compute; reflexivity. }
  unfold WeldDetector.extractTable, TableExtraction.extractTable.
  rewrite !extractTable_ascii.
  split; apply (extractTable_title_absent Strings.ToLower); exact Habsent.
Defined.

(** The narrow parts list: the data row enters the padding loop with two
    cells and leaves it with one. *)
Example narrowHeaderDrawing_table :
  Table.processTable WeldDetector.processErectionMaterialsTable
    WeldDetector.validateAndCorrectCutLengthRow "PARTS LIST"
    (Table.tableRowsOf narrowHeaderDrawing "PARTS LIST" (fragment "PARTS LIST" 0 10))
  = Some (["ITEM NO"], [["7"; "BOLT"]]) /\
  WeldDetector.extractTable narrowHeaderDrawing "PARTS LIST" = Some (["ITEM NO"], [["7"]]).
Proof.
  split; vm_compute; reflexivity.
Qed.

(** C1, as worded, fails: a data row longer than the header loses the cells
    beyond the header's length. *)
Lemma narrow_header_drops_cell : ~ keepsEveryCell narrowHeaderDrawing "PARTS LIST".
Proof.
  intros Hkeep.
  destruct narrowHeaderDrawing_table as [Hproc Hext].
  specialize (Hkeep (fragment "PARTS LIST" 0 10) ["ITEM NO"] [["7"; "BOLT"]] [["7"]]
                    eq_refl Hproc Hext).
  inversion Hkeep as [| row out l l' [_ Hcells] _]; subst.
  specialize (Hcells "BOLT" (or_intror (or_introl eq_refl))).
  destruct Hcells as [Heq | []]. discriminate Heq.
Qed.

(** C1, amended.  In every table [extractTable] returns, each row has the
    header's number of cells: a data row enters the padding loop as the
    table-kind passes left it and comes out cut to the header's length (cells
    beyond it are dropped) and filled up with empty strings.  It holds
    whatever the two table-kind passes are, hence for both programs. *)
Theorem extractTable_rows_fit_header
  (processErectionMaterialsTable : list Row -> list Row)
  (validateAndCorrectCutLengthRow : Row -> Row)
  (textEntities : list TextEntity) (tableTitle : string)
  (header : Row) (rows : list Row) :
  Table.extractTable processErectionMaterialsTable validateAndCorrectCutLengthRow
    textEntities tableTitle = Some (header, rows) ->
  Forall (fun row => List.length row = List.length header) rows /\
  forall titleEntity,
    Table.findTitle textEntities tableTitle = Some titleEntity ->
    exists dataRows,
      Table.processTable processErectionMaterialsTable validateAndCorrectCutLengthRow
        tableTitle (Table.tableRowsOf textEntities tableTitle titleEntity)
      = Some (header, dataRows) /\
      rows = map (fun row => firstn (List.length header) row ++
                             repeat "" (List.length header - List.length row)) dataRows.
Proof.
  unfold Table.extractTable. intros Hext.
  destruct (Table.findTitle textEntities tableTitle) as [t |] eqn:Hfind.
  - destruct (Table.processTable _ _ _ _) as [[h dataRows] |] eqn:Hproc; [| discriminate].
    injection Hext as <- <-. split.
    + unfold Table.padRows. apply Forall_forall. intros row Hin.
      apply in_map_iff in Hin. destruct Hin as [r [<- _]]. apply padRow_length.
    + intros titleEntity Heq. injection Heq as <-.
      exists dataRows. split; [exact Hproc | apply padRows_spec].
  - injection Hext as <- <-. split; [constructor | intros ? Heq; discriminate Heq].
Qed.

Lemma extractTable_rows_fit_header_witness :
  Forall (fun row => List.length row = 1%nat) [["7"]] /\
  forall titleEntity,
    Table.findTitle narrowHeaderDrawing "PARTS LIST" = Some titleEntity ->
    exists dataRows,
      Table.processTable WeldDetector.processErectionMaterialsTable
        WeldDetector.validateAndCorrectCutLengthRow
        "PARTS LIST" (Table.tableRowsOf narrowHeaderDrawing "PARTS LIST" titleEntity)
      = Some (["ITEM NO"], dataRows) /\
      [["7"]] = map (fun row => firstn 1 row ++ repeat "" (1 - List.length row)) dataRows.
Proof.
  apply (extractTable_rows_fit_header
           WeldDetector.processErectionMaterialsTable
           WeldDetector.validateAndCorrectCutLengthRow
           narrowHeaderDrawing "PARTS LIST" ["ITEM NO"] [["7"]]).
  vm_compute. reflexivity.
Defined.

(** ** Category rows of the materials table *)

Lemma isTotalLabel_iff (s : string) :
  Materials.isTotalLabel s = true <->
  s = "TOTAL ERECTION WEIGHT" \/ s = "TOTAL WEIGHT".
Proof.
  unfold Materials.isTotalLabel. rewrite orb_true_iff, !String.eqb_eq. reflexivity.
Qed.

(** The flags of a row whose first cell is not empty. *)
Lemma classifyRow_nonempty_first (row : Row) :
  nth 0 row "" <> "" ->
  Materials.classifyRow row =
  if Materials.isTotalLabel (nth 0 row "") then (true, true)
  else (String.eqb (nth 1 row "") "" && String.eqb (nth 3 row "") "", false).
Proof.
  intros Hfirst. unfold Materials.classifyRow.
  apply String.eqb_neq in Hfirst. rewrite Hfirst. cbn [negb].
  destruct (Materials.isTotalLabel _); [reflexivity |].
  destruct (Nat.ltb_spec 1 (List.length row)) as [H1 | H1];
    destruct (Nat.ltb_spec 3 (List.length row)) as [H3 | H3];
    cbn [andb];
    try rewrite (nth_overflow row (n := 1)) by lia;
    try rewrite (nth_overflow row (n := 3)) by lia;
    cbn [String.eqb andb negb];
    destruct (String.eqb (nth 1 row "") ""), (String.eqb (nth 3 row "") ""); reflexivity.
Qed.

(** C3, as worded, fails: a component row whose cells 2 and 4 are empty is
    an ordinary data row for the program (its cell 1 is not empty). *)
Lemma component_row_is_not_category : ~ categoryByColumns2And4 componentRowWithoutSize.
Proof.
  unfold categoryByColumns2And4. intros [_ Hback].
  assert (Hcat : Materials.isCategory componentRowWithoutSize = true).
  { apply Hback. left. split; reflexivity. }
  vm_compute in Hcat. discriminate Hcat.
Qed.

(** C3, amended.  A row whose first cell is not empty is flagged as a
    category row exactly when its cells at indices 1 and 3 are both empty
    (a cell the row does not have counts as empty), or when its first cell is
    TOTAL ERECTION WEIGHT or TOTAL WEIGHT.  An ordinary category header is
    consumed and becomes the current category; a total row is emitted,
    reshaped, and leaves the current category as it is; any other row is
    emitted as a data row. *)
Theorem category_row_classification (row : Row) :
  nth 0 row "" <> "" ->
  (Materials.isCategory row = true <->
     (nth 1 row "" = "" /\ nth 3 row "" = "") \/
     nth 0 row "" = "TOTAL ERECTION WEIGHT" \/ nth 0 row "" = "TOTAL WEIGHT") /\
  forall (repair : Row -> Row) (processedRows : list Row) (currentCategory : string),
    Materials.step repair (processedRows, currentCategory) row =
    if Materials.isTotalLabel (nth 0 row "")
    then (processedRows ++ [[""; ""; ""; ""; nth 1 row ""; nth 0 row ""]], currentCategory)
    else if Materials.isCategory row
         then (processedRows, nth 0 row "")
         else (processedRows ++ [Materials.finishDataRow currentCategory (repair row)],
               currentCategory).
Proof.
  intros Hfirst.
  pose proof (classifyRow_nonempty_first row Hfirst) as Hclass.
  split.
  - unfold Materials.isCategory. rewrite Hclass.
    destruct (Materials.isTotalLabel (nth 0 row "")) eqn:Htotal; cbn [fst].
    + apply isTotalLabel_iff in Htotal. split; [intros _; now right | reflexivity].
    + rewrite andb_true_iff, !String.eqb_eq. split.
      * intros Hempty. now left.
      * intros [Hempty | Hlabel]; [exact Hempty |].
        apply isTotalLabel_iff in Hlabel. congruence.
  - intros repair processedRows currentCategory.
    unfold Materials.step, Materials.isCategory, Materials.isTotalRow.
    destruct row as [| first rest]; [now contradiction Hfirst |].
    rewrite Hclass.
    destruct (Materials.isTotalLabel (nth 0 (first :: rest) "")) eqn:Htotal; cbn [fst snd negb].
    + unfold Materials.totalRow.
      destruct (Nat.ltb_spec 1 (List.length (first :: rest))) as [H1 | H1];
        [reflexivity | now rewrite (nth_overflow (first :: rest) (n := 1)) by lia].
    + destruct (String.eqb (nth 1 (first :: rest) "") "" &&
                String.eqb (nth 3 (first :: rest) "") ""); reflexivity.
Qed.

Lemma category_row_classification_witness :
  (Materials.isCategory ["PIPE"] = true <->
     (nth 1 ["PIPE"] "" = "" /\ nth 3 ["PIPE"] "" = "") \/
     nth 0 ["PIPE"] "" = "TOTAL ERECTION WEIGHT" \/ nth 0 ["PIPE"] "" = "TOTAL WEIGHT") /\
  forall (repair : Row -> Row) (processedRows : list Row) (currentCategory : string),
    Materials.step repair (processedRows, currentCategory) ["PIPE"] =
    if Materials.isTotalLabel (nth 0 ["PIPE"] "")
    then (processedRows ++ [[""; ""; ""; ""; nth 1 ["PIPE"] ""; nth 0 ["PIPE"] ""]],
          currentCategory)
    else if Materials.isCategory ["PIPE"]
         then (processedRows, nth 0 ["PIPE"] "")
         else (processedRows ++ [Materials.finishDataRow currentCategory (repair ["PIPE"])],
               currentCategory).
Proof.
  apply (category_row_classification ["PIPE"]).
  simpl. discriminate.
Defined.

(** The scenario of the materials table: the header PIPE is consumed and
    stamped into the CATEGORY column of the data row that follows. *)
Example materials_category_scenario :
  WeldDetector.processErectionMaterialsTable
    [["PIPE"]; ["A1"; "DescA"; "25"; "2"; "1.5"; ""]]
  = [["A1"; "DescA"; "25"; "2"; "1.5"; "PIPE"]] /\
  TableExtraction.processErectionMaterialsTable
    [["PIPE"]; ["A1"; "DescA"; "25"; "2"; "1.5"; ""]]
  = [["A1"; "DescA"; "25"; "2"; "1.5"; "PIPE"]].
Proof.
  split; vm_compute; reflexivity.
Qed.

(** ** Row validation of the cut-length table *)

Lemma collect_spec (cells : Row) (group : CutLength.pieceGroup) :
  CutLength.piece (CutLength.collect group cells) = CutLength.piece group /\
  CutLength.numbers (CutLength.collect group cells) =
    CutLength.numbers group ++ filter CutLength.isNumber (trimmedCells cells) /\
  CutLength.remarks (CutLength.collect group cells) =
    CutLength.remarks group ++
    filter (fun cell => negb (CutLength.isNumber cell) && CutLength.isTextRemark cell)
           (trimmedCells cells).
Proof.
  revert group. unfold trimmedCells.
  induction cells as [| cell rest IH]; intros group; cbn [CutLength.collect map filter].
  - now rewrite !app_nil_r.
  - destruct (String.eqb (Strings.TrimSpace cell) "") eqn:Hblank; cbn [negb filter].
    + apply IH.
    + destruct (CutLength.isNumber (Strings.TrimSpace cell)) eqn:Hnum; cbn [negb andb].
      * destruct (IH (CutLength.mkPieceGroup (CutLength.piece group)
                        (CutLength.numbers group ++ [Strings.TrimSpace cell])
                        (CutLength.remarks group))) as (Hp & Hn & Hr).
        cbn [CutLength.piece CutLength.numbers CutLength.remarks] in Hp, Hn, Hr.
        rewrite Hp, Hn, Hr, <- app_assoc. auto.
      * destruct (CutLength.isTextRemark (Strings.TrimSpace cell)) eqn:Hrem.
        -- destruct (IH (CutLength.mkPieceGroup (CutLength.piece group)
                           (CutLength.numbers group)
                           (CutLength.remarks group ++ [Strings.TrimSpace cell])))
             as (Hp & Hn & Hr).
           cbn [CutLength.piece CutLength.numbers CutLength.remarks] in Hp, Hn, Hr.
           rewrite Hp, Hn, Hr, <- app_assoc. auto.
        -- apply IH.
Qed.

(** The group of the [i]-th piece collects the cells between that piece and
    the next one (or the end of the row). *)
Lemma groupPieces_nth (row : Row) (pieces : list (nat * string)) (i index : nat)
  (value : string) :
  nth_error pieces i = Some (index, value) ->
  nth_error (CutLength.groupPieces row pieces) i =
  Some (CutLength.collect (CutLength.mkPieceGroup value [] [])
          (cellsOfPiece row index
             match nth_error pieces (S i) with
             | Some (next, _) => next
             | None => List.length row
             end)).
Proof.
  revert i. induction pieces as [| [idx v] rest IH]; intros i Hnth.
  - destruct i; discriminate Hnth.
  - destruct i as [| i'].
    + injection Hnth as -> ->. cbn [CutLength.groupPieces nth_error].
      destruct rest as [| [next w] rest']; reflexivity.
    + cbn [CutLength.groupPieces nth_error] in *. now apply IH.
Qed.

Lemma fillGroup_first (group : CutLength.pieceGroup) :
  CutLength.fillGroup (repeat "" 8) 0 group = pieceColumns (Some group) ++ pieceColumns None.
Proof.
  unfold CutLength.fillGroup, pieceColumns.
  destruct (CutLength.numbers group) as [| n0 [| n1 more]];
    destruct (CutLength.remarks group) as [| r0 others]; reflexivity.
Qed.

Lemma fillGroup_second (first second : CutLength.pieceGroup) :
  CutLength.fillGroup (pieceColumns (Some first) ++ pieceColumns None) 1 second =
  pieceColumns (Some first) ++ pieceColumns (Some second).
Proof.
  unfold CutLength.fillGroup, pieceColumns.
  destruct (CutLength.numbers second) as [| n0 [| n1 more]];
    destruct (CutLength.remarks second) as [| r0 others]; reflexivity.
Qed.

(** C7.  The row <5>, 120, OK is returned as the eight columns
    <5>, 120, empty, OK and four empty cells.  In general, for a row with at
    least one piece number, the result has eight columns: the piece with
    index 0 fills columns 0 to 3 and the piece with index 1 columns 4 to 7,
    each as piece number (column 4*pieceIndex), the first two numeric values
    (the next two columns) and the first remark (column 4*pieceIndex+3); the
    numeric values and remarks of a piece are the trimmed non-blank cells
    between its piece number and the next one.  Further pieces are not
    placed. *)
Theorem cut_length_row_layout :
  CutLength.validateAndCorrectCutLengthRow ["<5>"; "120"; "OK"]
  = ["<5>"; "120"; ""; "OK"; ""; ""; ""; ""] /\
  forall row : Row,
    let pieces := CutLength.findPieces 0 row in
    let groups := CutLength.groupPieces row pieces in
    pieces <> [] ->
    CutLength.validateAndCorrectCutLengthRow row
    = pieceColumns (nth_error groups 0) ++ pieceColumns (nth_error groups 1) /\
    forall pieceIndex index value,
      nth_error pieces pieceIndex = Some (index, value) ->
      exists group,
        nth_error groups pieceIndex = Some group /\
        CutLength.piece group = value /\
        let cells :=
          trimmedCells (cellsOfPiece row index
                          match nth_error pieces (S pieceIndex) with
                          | Some (next, _) => next
                          | None => List.length row
                          end) in
        CutLength.numbers group = filter CutLength.isNumber cells /\
        CutLength.remarks group =
          filter (fun cell => negb (CutLength.isNumber cell) && CutLength.isTextRemark cell)
                 cells.
Proof.
  split; [vm_compute; reflexivity |].
  intros row pieces groups Hpieces. split.
  - unfold CutLength.validateAndCorrectCutLengthRow.
    destruct row as [| cell rest]; [now contradiction Hpieces |].
    fold pieces. fold groups.
    destruct pieces as [| p ps] eqn:Hp; [now contradiction Hpieces |].
    subst groups. destruct p as [idx v].
    destruct ps as [| [idx' v'] ps'].
    + cbn [CutLength.groupPieces List.length Nat.min seq fold_left nth nth_error].
      apply fillGroup_first.
    + cbn [CutLength.groupPieces List.length Nat.min seq fold_left nth nth_error].
      rewrite fillGroup_first. apply fillGroup_second.
  - intros pieceIndex index value Hnth.
    eexists. split; [apply (groupPieces_nth row pieces _ _ _ Hnth) |].
    destruct (collect_spec
                (cellsOfPiece row index
                   match nth_error pieces (S pieceIndex) with
                   | Some (next, _) => next
                   | None => List.length row
                   end)
                (CutLength.mkPieceGroup value [] [])) as (Hp & Hn & Hr).
    split; [exact Hp |]. split; [exact Hn | exact Hr].
Qed.

Lemma cut_length_row_layout_witness :
  CutLength.findPieces 0 ["<7>"; "250"; "40"; "<8>"; "SPARE"] <> [] /\
  CutLength.validateAndCorrectCutLengthRow ["<7>"; "250"; "40"; "<8>"; "SPARE"]
  = ["<7>"; "250"; "40"; ""; "<8>"; ""; ""; "SPARE"].
Proof.
  assert (Hpieces : CutLength.findPieces 0 ["<7>"; "250"; "40"; "<8>"; "SPARE"] <> [])
    by (vm_compute; discriminate).
  split; [exact Hpieces |].
  rewrite (proj1 (proj2 cut_length_row_layout _ Hpieces)).
  vm_compute. reflexivity.
Defined.

(** ** Deduplication of weld symbols *)

Section Dedupe.

Context {F : Type} `{Float64 F}.

Lemma removeDuplicateSymbols_dedupeFrom (symbols : list (Weld.WeldSymbol F)) :
  Weld.removeDuplicateSymbols symbols = dedupeFrom [] symbols.
Proof.
  unfold Weld.removeDuplicateSymbols, dedupeFrom.
  destruct symbols as [| s [| s' rest]]; reflexivity.
Qed.

Lemma dedupeFrom_Spaced (symbols unique : list (Weld.WeldSymbol F)) :
  Spaced unique -> Spaced (dedupeFrom unique symbols).
Proof.
  revert unique. unfold dedupeFrom.
  induction symbols as [| symbol rest IH]; intros unique Hsp; cbn [fold_left].
  - exact Hsp.
  - apply IH. destruct (Weld.isDuplicate unique symbol) eqn:Hdup.
    + exact Hsp.
    + now constructor.
Qed.

Lemma dedupeFrom_app (unique l1 l2 : list (Weld.WeldSymbol F)) :
  dedupeFrom unique (l1 ++ l2) = dedupeFrom (dedupeFrom unique l1) l2.
Proof.
  unfold dedupeFrom. apply fold_left_app.
Qed.

(** A list the loop could have built is reproduced by the loop. *)
Lemma dedupeFrom_fixes_Spaced (unique : list (Weld.WeldSymbol F)) :
  Spaced unique -> dedupeFrom [] unique = unique.
Proof.
  induction 1 as [| unique symbol Hsp IH Hdup].
  - reflexivity.
  - rewrite dedupeFrom_app, IH. unfold dedupeFrom. cbn [fold_left].
    now rewrite Hdup.
Qed.

Lemma dedupeFrom_incl (symbols unique : list (Weld.WeldSymbol F)) (w : Weld.WeldSymbol F) :
  In w (dedupeFrom unique symbols) -> In w unique \/ In w symbols.
Proof.
  revert unique. unfold dedupeFrom.
  induction symbols as [| symbol rest IH]; intros unique Hin; cbn [fold_left] in Hin.
  - now left.
  - apply IH in Hin. destruct Hin as [Hin | Hin]; [| right; now right].
    destruct (Weld.isDuplicate unique symbol); [now left |].
    apply in_app_or in Hin. destruct Hin as [Hin | [<- | []]]; [now left | right; now left].
Qed.

Lemma removeDuplicateSymbols_incl (symbols : list (Weld.WeldSymbol F)) (w : Weld.WeldSymbol F) :
  In w (Weld.removeDuplicateSymbols symbols) -> In w symbols.
Proof.
  rewrite removeDuplicateSymbols_dedupeFrom. intros Hin.
  apply dedupeFrom_incl in Hin. destruct Hin as [[] | Hin]. exact Hin.
Qed.

End Dedupe.

(** C9.  Deduplication is idempotent: applied to its own output it returns
    that output unchanged.  The statement holds for every implementation of
    the float64 operations, binary64 with its NaN included. *)
Theorem removeDuplicateSymbols_idempotent
  {F : Type} `{Float64 F} (symbols : list (Weld.WeldSymbol F)) :
  Weld.removeDuplicateSymbols (Weld.removeDuplicateSymbols symbols)
  = Weld.removeDuplicateSymbols symbols.
Proof.
  rewrite (removeDuplicateSymbols_dedupeFrom (Weld.removeDuplicateSymbols symbols)).
  apply dedupeFrom_fixes_Spaced.
  rewrite removeDuplicateSymbols_dedupeFrom.
  apply dedupeFrom_Spaced. constructor.
Qed.

(** ** Suffixes and case mapping of strings *)

Lemma string_length_append (s1 s2 : string) :
  String.length (s1 ++ s2) = (String.length s1 + String.length s2)%nat.
Proof.
  induction s1 as [| c s1 IH]; cbn [String.append String.length]; [reflexivity | now rewrite IH].
Qed.

Lemma substring_0_length (s : string) : substring 0 (String.length s) s = s.
Proof.
  induction s as [| c s IH]; cbn [String.length substring]; [reflexivity | now rewrite IH].
Qed.

Lemma substring_append_left (r suf : string) :
  substring 0 (String.length r) (r ++ suf) = r.
Proof.
  induction r as [| c r IH]; cbn [String.append String.length substring].
  - destruct suf; reflexivity.
  - now rewrite IH.
Qed.

Lemma substring_append_right (r suf : string) :
  substring (String.length r) (String.length suf) (r ++ suf) = suf.
Proof.
  induction r as [| c r IH]; cbn [String.append String.length substring].
  - apply substring_0_length.
  - exact IH.
Qed.

Lemma substring_split (s : string) (n : nat) :
  (n <= String.length s)%nat ->
  s = (substring 0 n s ++ substring n (String.length s - n) s)%string.
Proof.
  revert n. induction s as [| c s IH]; intros n Hn; cbn [String.length] in Hn.
  - assert (n = 0%nat) as -> by lia. reflexivity.
  - destruct n as [| n'].
    + cbn [substring String.append String.length Nat.sub].
      now rewrite substring_0_length.
    + cbn [substring String.append String.length Nat.sub].
      f_equal. apply IH. lia.
Qed.

Lemma HasSuffix_append (r suf : string) : Strings.HasSuffix (r ++ suf) suf = true.
Proof.
  unfold Strings.HasSuffix. rewrite string_length_append.
  replace (String.length r + String.length suf - String.length suf)%nat
    with (String.length r) by lia.
  rewrite substring_append_right, String.eqb_refl, andb_true_r.
  apply Nat.leb_le. lia.
Qed.

Lemma TrimSuffix_append (r suf : string) : Strings.TrimSuffix (r ++ suf) suf = r.
Proof.
  unfold Strings.TrimSuffix. rewrite HasSuffix_append, string_length_append.
  replace (String.length r + String.length suf - String.length suf)%nat
    with (String.length r) by lia.
  apply substring_append_left.
Qed.

Lemma HasSuffix_inv (s suf : string) :
  Strings.HasSuffix s suf = true -> exists r, s = (r ++ suf)%string.
Proof.
  unfold Strings.HasSuffix. intros Hsuf.
  apply andb_true_iff in Hsuf. destruct Hsuf as [Hlen Heq].
  apply Nat.leb_le in Hlen. apply String.eqb_eq in Heq.
  exists (substring 0 (String.length s - String.length suf) s).
  pose proof (substring_split s (String.length s - String.length suf)) as Hsplit.
  replace (String.length s - (String.length s - String.length suf))%nat
    with (String.length suf) in Hsplit by lia.
  rewrite Heq in Hsplit. apply Hsplit. lia.
Qed.

Lemma mapBytes_append (f : ascii -> ascii) (s1 s2 : string) :
  Strings.mapBytes f (s1 ++ s2) = (Strings.mapBytes f s1 ++ Strings.mapBytes f s2)%string.
Proof.
  induction s1 as [| c s1 IH]; cbn [String.append Strings.mapBytes];
    [reflexivity | now rewrite IH].
Qed.

Lemma mapBytes_snoc_inv (f : ascii -> ascii) (t r' : string) (m : ascii) :
  Strings.mapBytes f t = (r' ++ String m "")%string ->
  exists r c, t = (r ++ String c "")%string /\ Strings.mapBytes f r = r' /\ f c = m.
Proof.
  revert r'. induction t as [| c t IH]; intros r' Hmap; cbn [Strings.mapBytes] in Hmap.
  - destruct r'; discriminate Hmap.
  - destruct r' as [| c' r'']; cbn [String.append] in Hmap.
    + injection Hmap as Hc Ht. destruct t; [| discriminate Ht].
      exists ""%string, c. now repeat split.
    + injection Hmap as Hc Ht. destruct (IH _ Ht) as (r & c0 & -> & Hr & Hc0).
      exists (String c r), c0. cbn [String.append Strings.mapBytes]. rewrite Hr, Hc.
      now repeat split.
Qed.

Lemma toUpperByte_M (c : ascii) :
  Strings.toUpperByte c = "M"%char -> c = "M"%char \/ c = "m"%char.
Proof.
  destruct c as [[] [] [] [] [] [] [] []]; vm_compute; intros Heq;
    first [discriminate Heq | now left | now right].
Qed.

(** The upper-case form of a string ends in M exactly when the string ends
    in M or m; what precedes the letter is mapped to upper case. *)
Lemma ToUpper_suffix_M (t : string) :
  Strings.HasSuffix (Strings.ToUpper t) "M" = true ->
  exists r, (t = (r ++ "M")%string \/ t = (r ++ "m")%string) /\
            Strings.ToUpper t = (Strings.ToUpper r ++ "M")%string.
Proof.
  intros Hsuf. apply HasSuffix_inv in Hsuf. destruct Hsuf as [r' Hr'].
  unfold Strings.ToUpper in *.
  destruct (mapBytes_snoc_inv _ _ _ _ Hr') as (r & c & -> & Hr & Hc).
  exists r. rewrite mapBytes_append. cbn [Strings.mapBytes]. rewrite Hc.
  split; [| reflexivity].
  destruct (toUpperByte_M c Hc) as [-> | ->]; [now left | now right].
Qed.

Lemma ToUpper_no_suffix_M (t : string) :
  Strings.HasSuffix t "M" = false -> Strings.HasSuffix t "m" = false ->
  Strings.HasSuffix (Strings.ToUpper t) "M" = false.
Proof.
  intros HM Hm. destruct (Strings.HasSuffix (Strings.ToUpper t) "M") eqn:Hup; [| reflexivity].
  destruct (ToUpper_suffix_M t Hup) as (r & [-> | ->] & _).
  - now rewrite HasSuffix_append in HM.
  - now rewrite HasSuffix_append in Hm.
Qed.

(** ** Lists: assignment to an element *)

Lemma length_setAt {A : Type} (i : nat) (v : A) (l : list A) :
  List.length (setAt i v l) = List.length l.
Proof.
  revert i. induction l as [| x l IH]; intros [| i]; cbn [setAt List.length];
    try reflexivity. now rewrite IH.
Qed.

Lemma nth_setAt {A : Type} (i j : nat) (v d : A) (l : list A) :
  nth j (setAt i v l) d =
  if (j =? i)%nat && (i <? List.length l)%nat then v else nth j l d.
Proof.
  revert i j. induction l as [| x l IH]; intros i j.
  - cbn [setAt List.length]. destruct i; rewrite andb_false_r; reflexivity.
  - destruct i as [| i], j as [| j]; cbn [setAt nth List.length]; try reflexivity.
    rewrite IH. reflexivity.
Qed.

Lemma filter_nil_forall {A : Type} (f : A -> bool) (l : list A) :
  filter f l = [] -> forall x, In x l -> f x = false.
Proof.
  induction l as [| y l IH]; cbn [filter]; intros Hnil x Hin.
  - destruct Hin.
  - destruct (f y) eqn:Hy; [discriminate Hnil |].
    destruct Hin as [<- | Hin]; [exact Hy | now apply IH].
Qed.

(** ** White space *)

Lemma length_string_of_list_ascii (l : list ascii) :
  String.length (string_of_list_ascii l) = List.length l.
Proof.
  induction l as [| c l IH]; cbn; [reflexivity | now rewrite IH].
Qed.

Lemma length_list_ascii_of_string (s : string) :
  List.length (list_ascii_of_string s) = String.length s.
Proof.
  induction s as [| c s IH]; cbn; [reflexivity | now rewrite IH].
Qed.

Lemma trimLeftBytes_length (fuel : nat) (l : list ascii) :
  (List.length (Strings.trimLeftBytes fuel l) <= List.length l)%nat.
Proof.
  revert l. induction fuel as [| fuel IH]; intros l; cbn [Strings.trimLeftBytes].
  - lia.
  - destruct l as [| a [| b [| c rest]]]; cbn [List.length];
      repeat match goal with
             | |- context [if ?b then _ else _] => destruct b
             | |- context [Strings.trimLeftBytes fuel ?x] =>
                 pose proof (IH x); generalize dependent (Strings.trimLeftBytes fuel x); intros
             end; cbn [List.length] in *; lia.
Qed.

Lemma trimRightRev_length (fuel : nat) (l : list ascii) :
  (List.length (Strings.trimRightRev fuel l) <= List.length l)%nat.
Proof.
  revert l. induction fuel as [| fuel IH]; intros l; cbn [Strings.trimRightRev].
  - lia.
  - destruct l as [| a [| b [| c rest]]]; cbn [List.length];
      repeat match goal with
             | |- context [if ?b then _ else _] => destruct b
             | |- context [Strings.trimRightRev fuel ?x] =>
                 pose proof (IH x); generalize dependent (Strings.trimRightRev fuel x); intros
             end; cbn [List.length] in *; lia.
Qed.

Lemma TrimSpace_length (s : string) :
  (String.length (Strings.TrimSpace s) <= String.length s)%nat.
Proof.
  unfold Strings.TrimSpace.
  rewrite length_string_of_list_ascii, length_rev.
  pose proof (trimRightRev_length
                (List.length (Strings.trimLeftBytes (List.length (list_ascii_of_string s))
                                (list_ascii_of_string s)))
                (rev (Strings.trimLeftBytes (List.length (list_ascii_of_string s))
                        (list_ascii_of_string s)))) as Hr.
  rewrite length_rev in Hr.
  pose proof (trimLeftBytes_length (List.length (list_ascii_of_string s))
                (list_ascii_of_string s)) as Hl.
  rewrite length_list_ascii_of_string in Hl at 2. lia.
Qed.

(** ** The post-processing pass over the materials file *)

Lemma columnIndex_spec (name : string) (header : Row) (i j : nat) :
  BomUtils.columnIndex name i header = Some j ->
  (i <= j < i + List.length header)%nat /\
  Strings.TrimSpace (nth (j - i) header "") = name.
Proof.
  revert i. induction header as [| col rest IH]; intros i; cbn [BomUtils.columnIndex].
  - discriminate.
  - destruct (BomUtils.columnIndex name (S i) rest) as [k |] eqn:Hrest.
    + intros Heq. injection Heq as <-. destruct (IH _ Hrest) as [Hrange Hname].
      cbn [List.length]. split; [lia |].
      replace (k - i)%nat with (S (k - S i)) by lia. exact Hname.
    + destruct (String.eqb_spec (Strings.TrimSpace col) name) as [Hname | _]; [| discriminate].
      intros Heq. injection Heq as <-. cbn [List.length]. split; [lia |].
      now rewrite Nat.sub_diag.
Qed.

(** Two different column names are found at different indices. *)
Lemma columnIndex_distinct (name1 name2 : string) (header : Row) (j1 j2 : nat) :
  name1 <> name2 ->
  BomUtils.columnIndex name1 0 header = Some j1 ->
  BomUtils.columnIndex name2 0 header = Some j2 ->
  j1 <> j2.
Proof.
  intros Hneq H1 H2 ->.
  apply columnIndex_spec in H1. apply columnIndex_spec in H2.
  destruct H1 as [_ H1]. destruct H2 as [_ H2]. congruence.
Qed.

Lemma growPast_id (weightIdx : nat) (row : Row) :
  (weightIdx < List.length row)%nat -> BomUtils.growPast weightIdx row = row.
Proof.
  intros Hlt. unfold BomUtils.growPast.
  replace (S weightIdx - List.length row)%nat with 0%nat by lia.
  apply app_nil_r.
Qed.

Lemma cleanRow_untouched (qtyIdx : nat) (row : Row) :
  snd (BomUtils.cleanRow qtyIdx row) = false -> fst (BomUtils.cleanRow qtyIdx row) = row.
Proof.
  unfold BomUtils.cleanRow.
  repeat match goal with |- context [if ?b then _ else _] => destruct b end;
    cbn [fst snd]; intros Heq; first [reflexivity | discriminate Heq].
Qed.

Lemma shiftRow_untouched (ptNoIdx nsIdx qtyIdx weightIdx : nat) (row : Row) :
  (weightIdx < List.length row)%nat ->
  snd (BomUtils.shiftRow ptNoIdx nsIdx qtyIdx weightIdx row) = false ->
  fst (BomUtils.shiftRow ptNoIdx nsIdx qtyIdx weightIdx row) = row.
Proof.
  intros Hlt. unfold BomUtils.shiftRow. rewrite (growPast_id _ _ Hlt).
  match goal with |- context [if ?b then _ else _] => destruct b end;
    cbn [fst snd]; intros Heq; [discriminate Heq | reflexivity].
Qed.

Lemma length_filter_zero {A : Type} (f : A -> bool) (l : list A) :
  (0 <? List.length (filter f l))%nat = false -> filter f l = [].
Proof.
  destruct (filter f l); [reflexivity | discriminate].
Qed.

(** The file after the call: every row through the two loops.  When no row
    changes the file is left as it is, which is the same records. *)
Lemma recordsAfter_rows (header : Row) (rows : list Row)
  (ptNoIdx nsIdx qtyIdx weightIdx : nat) :
  BomUtils.sameFieldCount (header :: rows) = true ->
  BomUtils.columnIndex "PT NO" 0 header = Some ptNoIdx ->
  BomUtils.columnIndex "N.S." 0 header = Some nsIdx ->
  BomUtils.columnIndex "QTY" 0 header = Some qtyIdx ->
  BomUtils.columnIndex "WEIGHT" 0 header = Some weightIdx ->
  BomUtils.recordsAfter (header :: rows)
  = header :: map (rowAfter ptNoIdx nsIdx qtyIdx weightIdx) rows.
Proof.
  intros Hsame Hpt Hns Hqty Hw.
  unfold BomUtils.recordsAfter, BomUtils.fixMissingNSColumns.
  rewrite Hsame, Hpt, Hns, Hqty, Hw. cbn [negb].
  set (shifted := map (BomUtils.shiftRow ptNoIdx nsIdx qtyIdx weightIdx) rows).
  set (cleaned := map (fun r => BomUtils.cleanRow qtyIdx (fst r)) shifted).
  assert (Hrows : map fst cleaned = map (rowAfter ptNoIdx nsIdx qtyIdx weightIdx) rows).
  { subst cleaned shifted. rewrite !map_map. reflexivity. }
  destruct ((0 <? List.length (filter snd shifted))%nat ||
            (0 <? List.length (filter snd cleaned))%nat) eqn:Hcount.
  - now rewrite Hrows.
  - apply orb_false_iff in Hcount. destruct Hcount as [Hshift Hclean].
    apply length_filter_zero in Hshift. apply length_filter_zero in Hclean.
    f_equal. rewrite <- (map_id rows) at 1. apply map_ext_in. intros row Hin.
    assert (Hlen : (weightIdx < List.length row)%nat).
    { cbn [BomUtils.sameFieldCount] in Hsame. rewrite forallb_forall in Hsame.
      specialize (Hsame row Hin). apply Nat.eqb_eq in Hsame.
      apply columnIndex_spec in Hw. lia. }
    unfold rowAfter.
    assert (Hs : snd (BomUtils.shiftRow ptNoIdx nsIdx qtyIdx weightIdx row) = false).
    { apply (filter_nil_forall _ _ Hshift). subst shifted. now apply in_map. }
    assert (Hc : snd (BomUtils.cleanRow qtyIdx
                        (fst (BomUtils.shiftRow ptNoIdx nsIdx qtyIdx weightIdx row))) = false).
    { apply (filter_nil_forall _ _ Hclean). subst cleaned shifted.
      rewrite map_map. apply (in_map (fun r => BomUtils.cleanRow qtyIdx
                                (fst (BomUtils.shiftRow ptNoIdx nsIdx qtyIdx weightIdx r)))).
      exact Hin. }
    rewrite (cleanRow_untouched _ _ Hc). symmetry. now apply shiftRow_untouched.
Qed.

(** The shift loop, cell by cell. *)
Lemma shiftRow_cells (ptNoIdx nsIdx qtyIdx weightIdx : nat) (row : Row) :
  (nsIdx < List.length row)%nat -> (qtyIdx < List.length row)%nat ->
  (weightIdx < List.length row)%nat ->
  nsIdx <> qtyIdx -> qtyIdx <> weightIdx -> nsIdx <> weightIdx ->
  let row1 := fst (BomUtils.shiftRow ptNoIdx nsIdx qtyIdx weightIdx row) in
  List.length row1 = List.length row /\
  snd (BomUtils.shiftRow ptNoIdx nsIdx qtyIdx weightIdx row) = shiftTrigger ptNoIdx weightIdx row /\
  forall j, nth j row1 "" = movedCell ptNoIdx nsIdx qtyIdx weightIdx row j.
Proof.
  intros Hns Hqty Hw Hnq Hqw Hnw. cbv zeta.
  unfold BomUtils.shiftRow, movedCell, shiftTrigger. rewrite (growPast_id _ _ Hw).
  match goal with |- context [if ?b then _ else _] => destruct b end; cbn [fst snd].
  - split; [now rewrite !length_setAt |]. split; [reflexivity |].
    intros j. rewrite !nth_setAt, !length_setAt. unfold shiftedCell.
    apply Nat.ltb_lt in Hns, Hqty, Hw. rewrite Hns, Hqty, Hw, !andb_true_r.
    destruct (Nat.eqb_spec j nsIdx) as [-> | Hjn]; [reflexivity |].
    destruct (Nat.eqb_spec j qtyIdx) as [-> | Hjq]; [reflexivity |].
    destruct (Nat.eqb_spec j weightIdx) as [-> | Hjw]; reflexivity.
  - split; [reflexivity |]. split; reflexivity.
Qed.

(** The cleaning loop on the QTY cell [q] of a row. *)
Lemma cleanRow_cells (qtyIdx : nat) (row : Row) :
  (qtyIdx < List.length row)%nat ->
  let row' := fst (BomUtils.cleanRow qtyIdx row) in
  let t := Strings.TrimSpace (nth qtyIdx row "") in
  List.length row' = List.length row /\
  (forall j, j <> qtyIdx -> nth j row' "" = nth j row "") /\
  (t = "" \/ (Strings.HasSuffix t "M" = false /\ Strings.HasSuffix t "m" = false) ->
   nth qtyIdx row' "" = nth qtyIdx row "") /\
  (forall r, t = (r ++ "M")%string \/ t = (r ++ "m")%string ->
             Strings.ToUpper r = r ->
             nth qtyIdx row' "" = Strings.TrimSpace r).
Proof.
  intros Hqty. cbv zeta. unfold BomUtils.cleanRow.
  pose proof Hqty as Hqtyb. apply Nat.ltb_lt in Hqtyb. rewrite Hqtyb.
  set (t := Strings.TrimSpace (nth qtyIdx row "")).
  assert (Hcases :
    forall b : bool, List.length (fst (if b then (setAt qtyIdx (Strings.TrimSpace
                  (Strings.TrimSuffix (Strings.ToUpper t) "M")) row, true) else (row, false)))
              = List.length row /\
              forall j, j <> qtyIdx ->
                nth j (fst (if b then (setAt qtyIdx (Strings.TrimSpace
                  (Strings.TrimSuffix (Strings.ToUpper t) "M")) row, true) else (row, false))) ""
                = nth j row "").
  { intros [|]; cbn [fst]; split; try reflexivity.
    - apply length_setAt.
    - intros j Hj. rewrite nth_setAt.
      destruct (Nat.eqb_spec j qtyIdx); [contradiction | reflexivity]. }
  split; [| split; [| split]].
  - destruct (negb (String.eqb t "") && Strings.HasSuffix (Strings.ToUpper t) "M");
      [apply Hcases | reflexivity].
  - intros j Hj.
    destruct (negb (String.eqb t "") && Strings.HasSuffix (Strings.ToUpper t) "M");
      [now apply Hcases | reflexivity].
  - intros [Hblank | [HM Hm]].
    + rewrite Hblank. reflexivity.
    + rewrite (ToUpper_no_suffix_M t HM Hm), andb_false_r. reflexivity.
  - intros r Hr Hup.
    assert (Hupper : Strings.ToUpper t = (r ++ "M")%string).
    { unfold Strings.ToUpper in *.
      destruct Hr as [-> | ->]; rewrite mapBytes_append, Hup; reflexivity. }
    assert (Hlen : String.length t = S (String.length r)).
    { destruct Hr as [-> | ->]; rewrite string_length_append; cbn [String.length]; lia. }
    assert (Hnonblank : String.eqb t "" = false).
    { apply String.eqb_neq. intros Heq. rewrite Heq in Hlen. discriminate Hlen. }
    rewrite Hnonblank, Hupper, HasSuffix_append, TrimSuffix_append. cbn [negb andb].
    assert (Hdiff : String.eqb (Strings.TrimSpace r) t = false).
    { apply String.eqb_neq. intros Heq.
      pose proof (TrimSpace_length r) as Hle. rewrite Heq, Hlen in Hle. lia. }
    rewrite Hdiff. cbn [negb fst]. rewrite nth_setAt, Nat.eqb_refl, Hqtyb. reflexivity.
Qed.

Lemma Forall2_map_right {A B : Type} (R : A -> B -> Prop) (f : A -> B) (l : list A) :
  (forall x, In x l -> R x (f x)) -> Forall2 R l (map f l).
Proof.
  induction l as [| x l IH]; intros HR; cbn [map]; constructor.
  - apply HR. now left.
  - apply IH. intros y Hy. apply HR. now right.
Qed.

(** The file with a blank weight cell: the row is shifted. *)
Example blankWeightFile_shifted :
  BomUtils.fixMissingNSColumns blankWeightFile
  = BomUtils.Rewritten materialsHeader [["3"; "GASKET"; ""; "50"; "4"]].
Proof. vm_compute. reflexivity. Qed.

(** A quantity in metres moved into the QTY column loses its unit. *)
Example metresFile_fixed :
  BomUtils.fixMissingNSColumns metresFile
  = BomUtils.Rewritten materialsHeader
      [["1"; "PIPE"; ""; "2.4"; "3.1"]; ["2"; "ELBOW"; "25"; "1"; "0.5"]].
Proof. vm_compute. reflexivity. Qed.

(** The cleaned quantity is taken from the upper-case copy of the cell:
    letters before the unit come back in upper case. *)
Example lowerCaseQtyFile_upper_cased :
  BomUtils.fixMissingNSColumns lowerCaseQtyFile
  = BomUtils.Rewritten materialsHeader [["5"; "PIPE"; "25"; "2X1.5"; "7.2"]].
Proof. vm_compute. reflexivity. Qed.

(** C10, as worded, fails: the pass looks the four columns up by the exact
    names PT NO, N.S., QTY and WEIGHT and returns at once when one is
    missing.  Under the merged header of a written materials file (N.S. (MM),
    QTY (NO), WEIGHT (KG)) a row with a PT NO and an empty WEIGHT cell is not
    shifted. *)
Lemma merged_header_rows_not_shifted :
  ~ shiftsRowsWithEmptyWeight 0 2 3 4 writtenMaterialsFile.
Proof.
  intros Hclaim.
  assert (Hpt : nth 0 ["1"; "PIPE SCH40"; "25"; "2"; ""; "PIPE"] "" <> "") by discriminate.
  specialize (Hclaim 0%nat ["1"; "PIPE SCH40"; "25"; "2"; ""; "PIPE"] eq_refl Hpt eq_refl).
  vm_compute in Hclaim. discriminate Hclaim.
Qed.

(** C10, amended.  In a file whose records all have the same number of
    fields and whose header names the four columns PT NO, N.S., QTY and
    WEIGHT, a data row is right-shifted (WEIGHT receives the old QTY value,
    QTY the old N.S. value, N.S. becomes empty) exactly when, after trimming
    white space, its PT NO cell is not empty and its WEIGHT cell is empty: a
    test on positions only.  Afterwards a QTY value whose trimmed text ends
    in M or m, the text before that unit being ASCII without lower-case
    letters, is replaced by the trimmed text without the unit, trimmed
    again; a QTY value whose trimmed text is empty or ends in neither letter
    is kept; every other cell is left unchanged.  ([movedCell] is the cell
    after the shift loop.) *)
Theorem fixMissingNSColumns_rows (header : Row) (rows : list Row)
  (ptNoIdx nsIdx qtyIdx weightIdx : nat) :
  BomUtils.sameFieldCount (header :: rows) = true ->
  BomUtils.columnIndex "PT NO" 0 header = Some ptNoIdx ->
  BomUtils.columnIndex "N.S." 0 header = Some nsIdx ->
  BomUtils.columnIndex "QTY" 0 header = Some qtyIdx ->
  BomUtils.columnIndex "WEIGHT" 0 header = Some weightIdx ->
  exists rows',
    BomUtils.recordsAfter (header :: rows) = header :: rows' /\
    Forall2
      (fun row row' =>
         List.length row' = List.length row /\
         snd (BomUtils.shiftRow ptNoIdx nsIdx qtyIdx weightIdx row)
           = shiftTrigger ptNoIdx weightIdx row /\
         (forall j, j <> qtyIdx ->
            nth j row' "" = movedCell ptNoIdx nsIdx qtyIdx weightIdx row j) /\
         let qty := movedCell ptNoIdx nsIdx qtyIdx weightIdx row qtyIdx in
         let t := Strings.TrimSpace qty in
         (t = "" \/ (Strings.HasSuffix t "M" = false /\ Strings.HasSuffix t "m" = false) ->
          nth qtyIdx row' "" = qty) /\
         (forall r, t = (r ++ "M")%string \/ t = (r ++ "m")%string ->
                    isASCII r = true -> Strings.ToUpper r = r ->
                    nth qtyIdx row' "" = Strings.TrimSpace r))
      rows rows'.
Proof.
  intros Hsame Hpt Hns Hqty Hw.
  exists (map (rowAfter ptNoIdx nsIdx qtyIdx weightIdx) rows).
  split; [now apply recordsAfter_rows |].
  apply Forall2_map_right. intros row Hin.
  assert (Hlen : List.length row = List.length header).
  { cbn [BomUtils.sameFieldCount] in Hsame. rewrite forallb_forall in Hsame.
    now apply Nat.eqb_eq, Hsame. }
  assert (Hnq : nsIdx <> qtyIdx)
    by (apply (columnIndex_distinct "N.S." "QTY" header); [discriminate | assumption ..]).
  assert (Hqw : qtyIdx <> weightIdx)
    by (apply (columnIndex_distinct "QTY" "WEIGHT" header); [discriminate | assumption ..]).
  assert (Hnw : nsIdx <> weightIdx)
    by (apply (columnIndex_distinct "N.S." "WEIGHT" header); [discriminate | assumption ..]).
  apply columnIndex_spec in Hns, Hqty, Hw.
  destruct (shiftRow_cells ptNoIdx nsIdx qtyIdx weightIdx row) as (Hlen1 & Hflag & Hcells);
    try lia.
  destruct (cleanRow_cells qtyIdx
              (fst (BomUtils.shiftRow ptNoIdx nsIdx qtyIdx weightIdx row)))
    as (Hlen2 & Hother & Hkeep & Hclean); [lia |].
  fold (rowAfter ptNoIdx nsIdx qtyIdx weightIdx row) in Hlen2, Hother, Hkeep, Hclean.
  rewrite Hcells in Hkeep, Hclean. cbv zeta.
  split; [lia |]. split; [exact Hflag |]. split; [| split].
  - intros j Hj. rewrite (Hother j Hj). apply Hcells.
  - exact Hkeep.
  - intros r Hr _ Hupper. now apply Hclean.
Qed.

Lemma fixMissingNSColumns_rows_witness :
  exists rows',
    BomUtils.recordsAfter metresFile = materialsHeader :: rows' /\
    List.length rows' = 2%nat.
Proof.
  destruct (fixMissingNSColumns_rows materialsHeader
              [["1"; "PIPE"; "2.4m"; "3.1"; ""]; ["2"; "ELBOW"; "25"; "1"; "0.5"]]
              0%nat 2%nat 3%nat 4%nat eq_refl eq_refl eq_refl eq_refl eq_refl)
    as (rows' & Hafter & Hrows).
  exists rows'. split; [exact Hafter |].
  symmetry. exact (Forall2_length Hrows).
Defined.

(** ** Comparisons of binary64 values *)

Lemma SFeqb_SFeq (x y : spec_float) : SFeqb x y = true <-> SFeq x y.
Proof.
  unfold SFeqb, SFcompare, SFeq.
  destruct x as [sx | sx | | sx mx ex], y as [sy | sy | | sy my ey];
    try destruct sx; try destruct sy; cbn; try (split; [discriminate | easy || tauto]);
    try (split; easy).
  all: change (Pos.compare_cont Eq mx my) with (Pos.compare mx my).
  all: destruct (Z.compare_spec ex ey) as [He | He | He];
       destruct (Pos.compare_spec mx my) as [Hm | Hm | Hm]; cbn;
       split; try discriminate; try (intros (_ & Hm' & He'); subst; lia);
       try (intros _; subst; auto).
Qed.

Lemma SFeq_sym (x y : spec_float) : SFeq x y -> SFeq y x.
Proof. destruct x, y; cbn; intuition congruence. Qed.

Lemma SFeq_trans (x y z : spec_float) : SFeq x y -> SFeq y z -> SFeq x z.
Proof. destruct x, y, z; cbn; intuition congruence. Qed.

Lemma float_eqb_sym (x y : float) : (x =? y)%float = (y =? x)%float.
Proof.
  rewrite !FloatAxioms.eqb_spec.
  destruct (SFeqb (Prim2SF x) (Prim2SF y)) eqn:H1,
           (SFeqb (Prim2SF y) (Prim2SF x)) eqn:H2; try reflexivity.
  - apply SFeqb_SFeq, SFeq_sym, SFeqb_SFeq in H1. congruence.
  - apply SFeqb_SFeq, SFeq_sym, SFeqb_SFeq in H2. congruence.
Qed.

Lemma float_eqb_trans (x y z : float) :
  (x =? y)%float = true -> (y =? z)%float = true -> (x =? z)%float = true.
Proof.
  rewrite !FloatAxioms.eqb_spec, !SFeqb_SFeq. apply SFeq_trans.
Qed.

Lemma float_eqb_notNaN (x y : float) : (x =? y)%float = true -> notNaN x /\ notNaN y.
Proof.
  intros Heq. split; unfold notNaN.
  - apply (float_eqb_trans x y x); [exact Heq | now rewrite float_eqb_sym].
  - apply (float_eqb_trans y x y); [now rewrite float_eqb_sym | exact Heq].
Qed.

Lemma cmpMag_antisym (m1 : positive) (e1 : Z) (m2 : positive) (e2 : Z) :
  cmpMag m2 e2 m1 e1 = CompOpp (cmpMag m1 e1 m2 e2).
Proof.
  unfold cmpMag. rewrite (Z.compare_antisym e1 e2), (Pos.compare_antisym m1 m2).
  destruct (e1 ?= e2)%Z; reflexivity.
Qed.

Lemma cmpMag_le_trans (m1 : positive) (e1 : Z) (m2 : positive) (e2 : Z)
  (m3 : positive) (e3 : Z) :
  cmpMag m1 e1 m2 e2 <> Gt -> cmpMag m2 e2 m3 e3 <> Gt -> cmpMag m1 e1 m3 e3 <> Gt.
Proof.
  unfold cmpMag.
  destruct (Z.compare_spec e1 e2), (Z.compare_spec e2 e3), (Z.compare_spec e1 e3);
    try congruence; try lia; subst.
  destruct (Pos.compare_spec m1 m2), (Pos.compare_spec m2 m3), (Pos.compare_spec m1 m3);
    try congruence; try lia.
Qed.

Lemma SFleb_cmp (s1 : bool) (m1 : positive) (e1 : Z) (s2 : bool) (m2 : positive) (e2 : Z) :
  SFleb (S754_finite s1 m1 e1) (S754_finite s2 m2 e2) =
  match s1, s2 with
  | true, false => true
  | false, true => false
  | false, false => match cmpMag m1 e1 m2 e2 with Gt => false | _ => true end
  | true, true => match cmpMag m2 e2 m1 e1 with Gt => false | _ => true end
  end.
Proof.
  unfold SFleb, SFcompare. change (Pos.compare_cont Eq m1 m2) with (Pos.compare m1 m2).
  destruct s1, s2; try reflexivity.
  all: try rewrite cmpMag_antisym; unfold cmpMag; destruct (e1 ?= e2)%Z; try reflexivity;
    destruct (m1 ?= m2)%positive; reflexivity.
Qed.

Lemma SFltb_cmp (s1 : bool) (m1 : positive) (e1 : Z) (s2 : bool) (m2 : positive) (e2 : Z) :
  SFltb (S754_finite s1 m1 e1) (S754_finite s2 m2 e2) =
  match s1, s2 with
  | true, false => true
  | false, true => false
  | false, false => match cmpMag m1 e1 m2 e2 with Lt => true | _ => false end
  | true, true => match cmpMag m2 e2 m1 e1 with Lt => true | _ => false end
  end.
Proof.
  unfold SFltb, SFcompare. change (Pos.compare_cont Eq m1 m2) with (Pos.compare m1 m2).
  destruct s1, s2; try reflexivity.
  all: try rewrite cmpMag_antisym; unfold cmpMag; destruct (e1 ?= e2)%Z; try reflexivity;
    destruct (m1 ?= m2)%positive; reflexivity.
Qed.

Lemma SFleb_trans (x y z : spec_float) :
  SFleb x y = true -> SFleb y z = true -> SFleb x z = true.
Proof.
  destruct x as [sx | sx | | sx mx ex], y as [sy | sy | | sy my ey],
           z as [sz | sz | | sz mz ez];
    rewrite ?SFleb_cmp;
    try (unfold SFleb, SFcompare; try destruct sx; try destruct sy; try destruct sz;
         cbn; congruence).
  destruct sx, sy, sz; try congruence; intros H1 H2.
  - pose proof (cmpMag_le_trans mz ez my ey mx ex) as Htrans.
    destruct (cmpMag mz ez my ey), (cmpMag my ey mx ex), (cmpMag mz ez mx ex);
      try congruence; exfalso; apply Htrans; congruence.
  - pose proof (cmpMag_le_trans mx ex my ey mz ez) as Htrans.
    destruct (cmpMag mx ex my ey), (cmpMag my ey mz ez), (cmpMag mx ex mz ez);
      try congruence; exfalso; apply Htrans; congruence.
Qed.

Lemma SFltb_false_leb (x y : spec_float) :
  SFeqb x x = true -> SFeqb y y = true -> SFltb x y = false -> SFleb y x = true.
Proof.
  destruct x as [sx | sx | | sx mx ex], y as [sy | sy | | sy my ey];
    try (unfold SFleb, SFltb, SFeqb, SFcompare; try destruct sx; try destruct sy;
         cbn; congruence).
  intros _ _. rewrite SFleb_cmp, SFltb_cmp.
  destruct sx, sy; try congruence.
  - rewrite (cmpMag_antisym my ey mx ex). destruct (cmpMag my ey mx ex); cbn; congruence.
  - rewrite (cmpMag_antisym mx ex my ey). destruct (cmpMag mx ex my ey); cbn; congruence.
Qed.

Lemma float_leb_trans (x y z : float) :
  (x <=? y)%float = true -> (y <=? z)%float = true -> (x <=? z)%float = true.
Proof.
  rewrite !FloatAxioms.leb_spec. apply SFleb_trans.
Qed.

Lemma float_ltb_false_leb (x y : float) :
  notNaN x -> notNaN y -> (x <? y)%float = false -> (y <=? x)%float = true.
Proof.
  unfold notNaN. rewrite !FloatAxioms.eqb_spec, FloatAxioms.ltb_spec, FloatAxioms.leb_spec.
  apply SFltb_false_leb.
Qed.

Lemma float_ltb_leb (x y : float) : (x <? y)%float = true -> (x <=? y)%float = true.
Proof.
  rewrite FloatAxioms.ltb_spec, FloatAxioms.leb_spec.
  unfold SFltb, SFleb. destruct (SFcompare _ _) as [[] |]; congruence.
Qed.

Lemma float_leb_notNaN (x y : float) : (x <=? y)%float = true -> notNaN x /\ notNaN y.
Proof.
  unfold notNaN. rewrite FloatAxioms.leb_spec, !FloatAxioms.eqb_spec, !SFeqb_SFeq.
  destruct (Prim2SF x) as [sx | sx | | sx mx ex], (Prim2SF y) as [sy | sy | | sy my ey];
    cbn; try easy; try destruct sx; try destruct sy; try easy.
Qed.

Lemma float_leb_refl (x : float) : notNaN x -> (x <=? x)%float = true.
Proof.
  intros Hx. apply float_ltb_false_leb; try exact Hx.
  destruct (x <? x)%float eqn:Hlt; [| reflexivity].
  revert Hlt. rewrite FloatAxioms.ltb_spec. unfold SFltb, SFcompare.
  destruct (Prim2SF x) as [s | s | | s m e]; try destruct s; try discriminate;
    change (Pos.compare_cont Eq m m) with (Pos.compare m m);
    rewrite Z.compare_refl, Pos.compare_refl; discriminate.
Qed.

(** The helper [abs] keeps a value that is not NaN that way. *)
Lemma abs_notNaN (y : float) : notNaN y -> notNaN (abs y).
Proof.
  unfold abs. destruct (y <? 0)%float; [| easy].
  unfold notNaN. rewrite !FloatAxioms.eqb_spec, FloatAxioms.opp_spec, !SFeqb_SFeq.
  destruct (Prim2SF y); cbn; tauto.
Qed.

(** ** The insertion sort *)

Section SortFacts.

Context {A : Type} (less : A -> A -> bool).

Lemma bubble_In (x z : A) (revPrefix : list A) :
  In z (Sort.bubble less x revPrefix) <-> z = x \/ In z revPrefix.
Proof.
  induction revPrefix as [| y rest IH]; cbn [Sort.bubble].
  - cbn. intuition congruence.
  - destruct (less x y); cbn [In]; [rewrite IH |]; intuition congruence.
Qed.

Lemma fold_bubble_In (z : A) (data acc : list A) :
  In z (fold_left (fun acc x => Sort.bubble less x acc) data acc) <-> In z acc \/ In z data.
Proof.
  revert acc. induction data as [| x data IH]; intros acc; cbn [fold_left].
  - cbn. tauto.
  - rewrite IH, bubble_In. cbn [In]. intuition congruence.
Qed.

(** The sorted slice holds the elements of the data. *)
Lemma Slice_In (z : A) (data : list A) : In z (Sort.Slice less data) <-> In z data.
Proof.
  unfold Sort.Slice. rewrite <- in_rev, fold_bubble_In. cbn. tauto.
Qed.

(** A preorder [R] on the elements that satisfy [P], decided by [less]. *)
Variables (P : A -> Prop) (R : A -> A -> Prop).
Hypothesis less_false : forall a b, P a -> P b -> less a b = false -> R b a.
Hypothesis less_true : forall a b, less a b = true -> R a b.
Hypothesis R_trans : forall a b c, R a b -> R b c -> R a c.

(** The reversed prefix is kept in descending order. *)
Lemma bubble_sorted (x : A) (revPrefix : list A) :
  P x -> Forall P revPrefix ->
  StronglySorted (fun a b => R b a) revPrefix ->
  StronglySorted (fun a b => R b a) (Sort.bubble less x revPrefix).
Proof.
  intros Hx. induction revPrefix as [| y rest IH]; intros HP Hsorted; cbn [Sort.bubble].
  - constructor; constructor.
  - inversion Hsorted as [| ? ? Hrest Hy]; subst.
    inversion HP as [| ? ? Py Prest]; subst.
    destruct (less x y) eqn:Hless.
    + constructor; [now apply IH |].
      apply Forall_forall. intros z Hz. apply bubble_In in Hz.
      destruct Hz as [-> | Hz]; [now apply less_true |].
      rewrite Forall_forall in Hy. now apply Hy.
    + constructor; [exact Hsorted |].
      assert (Hyx : R y x) by now apply less_false.
      constructor; [exact Hyx |].
      apply Forall_forall. intros z Hz. rewrite Forall_forall in Hy.
      apply (R_trans z y x); [now apply Hy | exact Hyx].
Qed.

Lemma fold_bubble_sorted (data acc : list A) :
  Forall P data -> Forall P acc ->
  StronglySorted (fun a b => R b a) acc ->
  StronglySorted (fun a b => R b a)
    (fold_left (fun acc x => Sort.bubble less x acc) data acc).
Proof.
  revert acc. induction data as [| x data IH]; intros acc Hdata Hacc Hsorted; cbn [fold_left].
  - exact Hsorted.
  - inversion Hdata as [| ? ? Px Pdata]; subst.
    apply IH; [exact Pdata | | now apply bubble_sorted].
    apply Forall_forall. intros z Hz. apply bubble_In in Hz.
    destruct Hz as [-> | Hz]; [exact Px |].
    rewrite Forall_forall in Hacc. now apply Hacc.
Qed.

Lemma sorted_last_least (l : list A) (c : A) :
  StronglySorted (fun a b => R b a) (l ++ [c]) -> forall z, In z l -> R c z.
Proof.
  induction l as [| y l IH]; intros Hsorted z Hz; [destruct Hz |].
  cbn [app] in Hsorted. inversion Hsorted as [| ? ? Hrest Hy]; subst.
  destruct Hz as [<- | Hz].
  - rewrite Forall_forall in Hy. apply Hy. apply in_or_app. right. now left.
  - now apply IH.
Qed.

(** The first element of the sorted slice is below every element. *)
Lemma Slice_head_least (data : list A) (c : A) (rest : list A) :
  Forall P data -> (forall a, P a -> R a a) ->
  Sort.Slice less data = c :: rest ->
  forall z, In z data -> R c z.
Proof.
  intros HP Hrefl Hslice z Hz.
  assert (Hc : In c data) by (apply Slice_In; rewrite Hslice; now left).
  apply Slice_In in Hz. rewrite Hslice in Hz. destruct Hz as [<- | Hz].
  - apply Hrefl. rewrite Forall_forall in HP. now apply HP.
  - unfold Sort.Slice in Hslice.
    pose proof (fold_bubble_sorted data [] HP (Forall_nil _) (SSorted_nil _)) as Hsorted.
    apply (f_equal (@rev A)) in Hslice. rewrite rev_involutive in Hslice.
    rewrite Hslice in Hsorted. cbn [rev] in Hsorted.
    apply (sorted_last_least (rev rest) c Hsorted). now apply -> in_rev.
Qed.

End SortFacts.

(** ** The drawing-number locator *)

Lemma candidateOf_Some (erection : option (float * float)) (entity : TextEntity)
  (c : FieldLocator.candidate) :
  FieldLocator.candidateOf erection entity = Some c <->
  Patterns.kksFindString (Content entity) <> "" /\
  c = FieldLocator.mkCandidate (Patterns.kksFindString (Content entity))
        (X entity) (Y entity) (abs (Y entity)) /\
  match erection with
  | Some (erectionX, erectionY) =>
      (erectionX <=? X entity)%float = true /\ (Y entity <=? erectionY)%float = true
  | None => True
  end.
Proof.
  unfold FieldLocator.candidateOf.
  destruct (String.eqb_spec (Patterns.kksFindString (Content entity)) "") as [Hnone | Hsome];
    cbn [negb].
  - split; [discriminate | intros [Hne _]; contradiction].
  - destruct erection as [[erectionX erectionY] |].
    + destruct (erectionX <=? X entity)%float, (Y entity <=? erectionY)%float; cbn [andb];
        split; try discriminate; try (intros (_ & _ & [H1 H2]); discriminate).
      * intros Heq. injection Heq as <-. auto.
      * intros (_ & -> & _). reflexivity.
    + split.
      * intros Heq. injection Heq as <-. auto.
      * intros (_ & -> & _). reflexivity.
Qed.

Lemma collectCandidates_In (erection : option (float * float))
  (textEntities : list TextEntity) (c : FieldLocator.candidate) :
  In c (FieldLocator.collectCandidates erection textEntities) <->
  exists entity, In entity textEntities /\ FieldLocator.candidateOf erection entity = Some c.
Proof.
  induction textEntities as [| entity rest IH]; cbn [FieldLocator.collectCandidates In].
  - split; [intros [] | intros (? & [] & _)].
  - destruct (FieldLocator.candidateOf erection entity) as [c0 |] eqn:Hc0; cbn [In];
      rewrite IH; split.
    + intros [<- | (e & He & Hc)]; [exists entity | exists e]; auto.
    + intros (e & [<- | He] & Hc); [left; congruence | right; exists e; auto].
    + intros (e & He & Hc). exists e. auto.
    + intros (e & [<- | He] & Hc); [congruence | exists e; auto].
Qed.

(** What the label scan returns: the content of a fragment right of or
    below a fragment that contains the label, at most four places after it in
    the list (no nearer fragment after that label being so placed). *)
Lemma labelScan_found (textEntities : list TextEntity) :
  FieldLocator.labelScan textEntities <> "" ->
  exists before label between found after,
    textEntities = before ++ label :: between ++ found :: after /\
    Strings.Contains (Content label) "Drawing-No." = true /\
    (List.length between < 4)%nat /\
    ((X label <? X found)%float || (Y found <? Y label)%float) = true /\
    FieldLocator.labelScan textEntities = Content found.
Proof.
  assert (Hfirst : forall entity next s,
    FieldLocator.firstRightOrBelow entity next = Some s ->
    exists between found after,
      next = between ++ found :: after /\
      ((X entity <? X found)%float || (Y found <? Y entity)%float) = true /\
      s = Content found).
  { intros entity next. induction next as [| n next IH]; intros s;
      cbn [FieldLocator.firstRightOrBelow]; [discriminate |].
    destruct ((X entity <? X n)%float || (Y n <? Y entity)%float) eqn:Hpos.
    - intros Heq. injection Heq as <-. exists [], n, next. auto.
    - intros Hs. destruct (IH s Hs) as (between & found & after & -> & Hp & ->).
      exists (n :: between), found, after. auto. }
  induction textEntities as [| entity rest IH]; cbn [FieldLocator.labelScan].
  - intros Hne. now contradiction Hne.
  - assert (Hrest : FieldLocator.labelScan rest <> "" ->
      exists before label between found after,
        entity :: rest = before ++ label :: between ++ found :: after /\
        Strings.Contains (Content label) "Drawing-No." = true /\
        (List.length between < 4)%nat /\
        ((X label <? X found)%float || (Y found <? Y label)%float) = true /\
        FieldLocator.labelScan rest = Content found).
    { intros Hne. destruct (IH Hne) as (b & l & bt & f & a & -> & H1 & H2 & H3 & H4).
      exists (entity :: b), l, bt, f, a. auto. }
    destruct (Strings.Contains (Content entity) "Drawing-No.") eqn:Hlabel; [| exact Hrest].
    destruct (FieldLocator.firstRightOrBelow entity (firstn 4 rest)) as [s |] eqn:Hs;
      [| exact Hrest].
    intros _. destruct (Hfirst _ _ _ Hs) as (between & found & after & Hnext & Hpos & ->).
    exists [], entity, between, found, (after ++ skipn 4 rest).
    split; [| split; [exact Hlabel | split; [| split; [exact Hpos | reflexivity]]]].
    + cbn [app]. f_equal. rewrite <- (firstn_skipn 4 rest) at 1. rewrite Hnext.
      rewrite <- app_assoc. reflexivity.
    + pose proof (length_firstn 4 rest) as Hlen. rewrite Hnext, length_app in Hlen.
      cbn [List.length] in Hlen. lia.
Qed.

Example labelledDrawing_number :
  FieldLocator.findDrawingNo labelledDrawing = "ISO-17".
Proof. vm_compute. reflexivity. Qed.

Example titleBlockDrawing_number :
  FieldLocator.findDrawingNo titleBlockDrawing = "1ABC23BR456".
Proof. vm_compute. reflexivity. Qed.

(** The drawing with its number left of the table: the region holds no
    candidate, the unfiltered scan would find one, the locator returns the
    empty string. *)
Example outsideRegionDrawing_number :
  FieldLocator.collectCandidates (Some (100, 100)%float) outsideRegionDrawing = [] /\
  map FieldLocator.value (FieldLocator.collectCandidates None outsideRegionDrawing)
    = ["1ABC23BR456"] /\
  FieldLocator.findDrawingNo outsideRegionDrawing = "".
Proof. repeat split; vm_compute; reflexivity. Qed.

(** C5, as worded, fails: with an anchor and no candidate in its region the
    locator does not scan the other fragments for the pattern. *)
Lemma no_unfiltered_fallback : ~ fallsBackToUnfilteredScan outsideRegionDrawing.
Proof.
  intros Hclaim.
  specialize (Hclaim (100, 100)%float
                (FieldLocator.mkCandidate "1ABC23BR456" 50 50 50) []).
  assert (Hrun : FieldLocator.findDrawingNo outsideRegionDrawing = "1ABC23BR456").
  { apply Hclaim; vm_compute; reflexivity. }
  vm_compute in Hrun. discriminate Hrun.
Qed.

Lemma findErection_ascii (textEntities : list TextEntity) :
  FieldLocator.findErection textEntities
    = FieldLocator.findErectionWith Strings.ToUpper textEntities.
Proof.
  induction textEntities as [| entity rest IH];
    cbn [FieldLocator.findErection FieldLocator.findErectionWith]; [reflexivity |].
  now rewrite IH.
Qed.

Lemma findDrawingNo_ascii (textEntities : list TextEntity) :
  FieldLocator.findDrawingNo textEntities
    = FieldLocator.findDrawingNoWith Strings.ToUpper textEntities.
Proof.
  unfold FieldLocator.findDrawingNo, FieldLocator.findDrawingNoWith.
  now rewrite findErection_ascii.
Qed.

Lemma findDrawingNoFromEntities_ascii (entities : list TextEntity) :
  WeldIntegration.findDrawingNoFromEntities entities
    = WeldIntegration.findDrawingNoFromEntitiesWith Strings.ToUpper entities.
Proof.
  unfold WeldIntegration.findDrawingNoFromEntities,
    WeldIntegration.findDrawingNoFromEntitiesWith.
  now rewrite findErection_ascii.
Qed.

(** C5, amended.  The candidates are the fragments in which the pattern
    matches, restricted, when a materials-table anchor exists, to those at or
    right of and at or below the anchor; without an anchor every matching
    fragment is a candidate.  When there is a candidate, the locator returns
    the match of a candidate; it is one with the smallest absolute Y provided
    an anchor exists or no candidate's Y is NaN (with an anchor the region
    test excludes NaN).  When there is none, with or without an anchor, it
    goes straight to the label-adjacency scan; there is no unfiltered scan
    after an empty region.  [upper] stands for [strings.ToUpper] of the Go
    library, which the anchor search applies to the fragments: the statement
    holds for every case mapping, so for the library's on any text. *)
Theorem findDrawingNo_selection (upper : string -> string) (textEntities : list TextEntity) :
  let erection := FieldLocator.findErectionWith upper textEntities in
  let candidates := FieldLocator.collectCandidates erection textEntities in
  (forall c, In c candidates <->
     exists entity, In entity textEntities /\
       Patterns.kksFindString (Content entity) <> "" /\
       c = FieldLocator.mkCandidate (Patterns.kksFindString (Content entity))
             (X entity) (Y entity) (abs (Y entity)) /\
       match erection with
       | Some (erectionX, erectionY) =>
           (erectionX <=? X entity)%float = true /\ (Y entity <=? erectionY)%float = true
       | None => True
       end) /\
  (candidates = [] ->
     FieldLocator.findDrawingNoWith upper textEntities = FieldLocator.labelScan textEntities) /\
  (candidates <> [] ->
     exists c, In c candidates /\
       FieldLocator.findDrawingNoWith upper textEntities = FieldLocator.value c /\
       ((erection <> None \/
         forall c', In c' candidates -> notNaN (FieldLocator.candY c')) ->
        forall c', In c' candidates ->
          (FieldLocator.absY c <=? FieldLocator.absY c')%float = true)).
Proof.
  cbv zeta.
  set (erection := FieldLocator.findErectionWith upper textEntities).
  set (candidates := FieldLocator.collectCandidates erection textEntities).
  assert (Hmember : forall c, In c candidates <->
     exists entity, In entity textEntities /\
       Patterns.kksFindString (Content entity) <> "" /\
       c = FieldLocator.mkCandidate (Patterns.kksFindString (Content entity))
             (X entity) (Y entity) (abs (Y entity)) /\
       match erection with
       | Some (erectionX, erectionY) =>
           (erectionX <=? X entity)%float = true /\ (Y entity <=? erectionY)%float = true
       | None => True
       end).
  { intros c. subst candidates. rewrite collectCandidates_In.
    split; intros (entity & Hin & Hc); exists entity; (split; [exact Hin |]);
      now apply candidateOf_Some. }
  split; [exact Hmember |]. split.
  - intros Hnil. unfold FieldLocator.findDrawingNoWith.
    fold erection. fold candidates. rewrite Hnil. reflexivity.
  - intros Hsome. unfold FieldLocator.findDrawingNoWith.
    fold erection. fold candidates.
    destruct (FieldLocator.sortCandidates candidates) as [| c rest] eqn:Hsorted.
    + destruct candidates as [| c0 others]; [now contradiction Hsome |].
      assert (Hin : In c0 (FieldLocator.sortCandidates (c0 :: others)))
        by (apply Slice_In; now left).
      rewrite Hsorted in Hin. destruct Hin.
    + exists c. split; [| split; [reflexivity |]].
      * apply (Slice_In (fun a b => (FieldLocator.absY a <? FieldLocator.absY b)%float)).
        unfold FieldLocator.sortCandidates in Hsorted. rewrite Hsorted. now left.
      * intros Hvalid.
        assert (HP : Forall (fun c' => notNaN (FieldLocator.absY c')) candidates).
        { apply Forall_forall. intros c' Hc'.
          pose proof Hc' as Hc''. apply Hmember in Hc''.
          destruct Hc'' as (entity & _ & _ & -> & Hregion).
          cbn [FieldLocator.absY]. apply abs_notNaN.
          destruct Hvalid as [Hanchor | Hnan].
          - destruct erection as [[erectionX erectionY] |]; [| now contradiction Hanchor].
            destruct Hregion as [_ Hy]. now apply float_leb_notNaN in Hy.
          - apply (Hnan _ Hc'). }
        apply (Slice_head_least
                 (fun a b => (FieldLocator.absY a <? FieldLocator.absY b)%float)
                 (fun c' => notNaN (FieldLocator.absY c'))
                 (fun a b => (FieldLocator.absY a <=? FieldLocator.absY b)%float = true)
               ) with (rest := rest); try assumption.
        -- intros a b Pa Pb Hless. now apply float_ltb_false_leb.
        -- intros a b Hless. now apply float_ltb_leb.
        -- intros a b c0. apply float_leb_trans.
        -- intros a Pa. now apply float_leb_refl.
Qed.

Lemma findDrawingNo_selection_witness :
  exists c,
    In c (FieldLocator.collectCandidates
            (FieldLocator.findErectionWith Strings.ToUpper titleBlockDrawing)
            titleBlockDrawing) /\
    FieldLocator.findDrawingNoWith Strings.ToUpper titleBlockDrawing
      = FieldLocator.value c /\
    forall c', In c' (FieldLocator.collectCandidates
                        (FieldLocator.findErectionWith Strings.ToUpper titleBlockDrawing)
                        titleBlockDrawing) ->
      (FieldLocator.absY c <=? FieldLocator.absY c')%float = true.
Proof.
  destruct (proj2 (proj2 (findDrawingNo_selection Strings.ToUpper titleBlockDrawing)))
    as (c & Hin & Hvalue & Hleast).
  - vm_compute. discriminate.
  - exists c. split; [exact Hin |]. split; [exact Hvalue |].
    apply Hleast. left. vm_compute. discriminate.
Defined.

(** ** Row clustering *)

Lemma dictStore_In (m : Table.RowsDict) (k : float) (v : list TableCell)
  (b : float * list TableCell) :
  In b (Table.dictStore m k v) -> b = (k, v) \/ In b m.
Proof.
  induction m as [| [k1 c1] rest IH]; cbn [Table.dictStore].
  - intros [<- | []]. now left.
  - destruct (k1 =? k)%float.
    + intros [<- | Hin]; [now left | right; now right].
    + intros [<- | Hin]; [right; now left |].
      destruct (IH Hin) as [-> | Hin']; [now left | right; now right].
Qed.

Lemma dictStore_keysApart (m : Table.RowsDict) (k : float) (v : list TableCell) :
  keysApart m -> keysApart (Table.dictStore m k v).
Proof.
  induction m as [| [k1 c1] rest IH]; cbn [Table.dictStore keysApart].
  - intros _. split; [intros b [] | exact I].
  - intros [Hhead Hrest]. destruct (k1 =? k)%float eqn:Hmatch; cbn [keysApart].
    + split; [| exact Hrest]. intros b Hb.
      destruct (k =? fst b)%float eqn:Hkb; [| reflexivity].
      rewrite <- (Hhead b Hb). symmetry. now apply (float_eqb_trans k1 k (fst b)).
    + split; [| now apply IH]. intros b Hb.
      destruct (dictStore_In _ _ _ _ Hb) as [-> | Hb']; [exact Hmatch | now apply Hhead].
Qed.

(** The entries after a store: the stored one, and the former entries
    under other keys. *)
Lemma dictStore_entries (m : Table.RowsDict) (k : float) (v : list TableCell)
  (k' : float) (c : list TableCell) :
  keysApart m ->
  (In (k', c) (Table.dictStore m k v) <->
   (k', c) = (k, v) \/ (In (k', c) m /\ (k' =? k)%float = false)).
Proof.
  induction m as [| [k1 c1] rest IH]; cbn [Table.dictStore keysApart In].
  - intros _. split.
    + intros [Heq | []]. left. now symmetry.
    + intros [Heq | [[] _]]. left. now symmetry.
  - intros [Hhead Hrest]. destruct (k1 =? k)%float eqn:Hmatch; cbn [In].
    + split.
      * intros [Heq | Hin]; [left; now symmetry |].
        right. split; [now right |].
        destruct (k' =? k)%float eqn:Hk'; [| reflexivity].
        rewrite <- (Hhead (k', c) Hin). cbn [fst]. symmetry.
        apply (float_eqb_trans k1 k k'); [exact Hmatch | now rewrite float_eqb_sym].
      * intros [Heq | [[Heq | Hin] Hk']]; [left; now symmetry | | now right].
        injection Heq as -> ->. congruence.
    + rewrite (IH Hrest). split.
      * intros [Heq | [Heq | [Hin Hk']]]; [| now left | right; split; [now right | exact Hk']].
        right. injection Heq as <- <-. split; [now left | exact Hmatch].
      * intros [Heq | [[Heq | Hin] Hk']]; [right; now left | now left | right; right; auto].
Qed.

Lemma dictLookup_None (m : Table.RowsDict) (k : float) :
  Table.dictLookup m k = None <-> forall b, In b m -> (fst b =? k)%float = false.
Proof.
  induction m as [| [k1 c1] rest IH]; cbn [Table.dictLookup In].
  - split; [intros _ b [] | reflexivity].
  - destruct (k1 =? k)%float eqn:Hmatch.
    + split; [discriminate |]. intros Hall.
      specialize (Hall (k1, c1) (or_introl eq_refl)). cbn [fst] in Hall. congruence.
    + rewrite IH. split.
      * intros Hall b [<- | Hb]; [exact Hmatch | now apply Hall].
      * intros Hall b Hb. apply Hall. now right.
Qed.

Lemma dictLookup_Some (m : Table.RowsDict) (k : float) (cells : list TableCell) :
  keysApart m ->
  (Table.dictLookup m k = Some cells <->
   exists k', In (k', cells) m /\ (k' =? k)%float = true).
Proof.
  induction m as [| [k1 c1] rest IH]; cbn [Table.dictLookup keysApart In].
  - intros _. split; [discriminate | intros (? & [] & _)].
  - intros [Hhead Hrest]. destruct (k1 =? k)%float eqn:Hmatch.
    + split.
      * intros Heq. injection Heq as <-. exists k1. auto.
      * intros (k' & [Heq | Hin] & Hk'); [now injection Heq as _ -> |].
        exfalso. specialize (Hhead (k', cells) Hin). cbn [fst] in Hhead.
        rewrite (float_eqb_trans k1 k k') in Hhead; [discriminate | exact Hmatch |].
        now rewrite float_eqb_sym.
    + rewrite (IH Hrest). split.
      * intros (k' & Hin & Hk'). exists k'. auto.
      * intros (k' & [Heq | Hin] & Hk'); [| exists k'; auto].
        injection Heq as -> _. congruence.
Qed.

Lemma rowOfKey_snoc (k : float) (processed : list TextEntity) (entity : TextEntity) :
  rowOfKey k (processed ++ [entity]) =
  rowOfKey k processed ++
  (if (Table.yKey entity =? k)%float then [cellOf entity] else []).
Proof.
  unfold rowOfKey. rewrite filter_app, map_app. cbn [filter].
  destruct (Table.yKey entity =? k)%float; reflexivity.
Qed.

Lemma rowOfKey_eqb (k1 k2 : float) (processed : list TextEntity) :
  (k1 =? k2)%float = true -> rowOfKey k1 processed = rowOfKey k2 processed.
Proof.
  intros Heq. unfold rowOfKey. f_equal. apply filter_ext. intros entity.
  destruct (Table.yKey entity =? k1)%float eqn:H1,
           (Table.yKey entity =? k2)%float eqn:H2; try reflexivity.
  - rewrite (float_eqb_trans _ k1 k2) in H2; [discriminate | exact H1 | exact Heq].
  - rewrite (float_eqb_trans _ k2 k1) in H1; [discriminate | exact H2 |].
    now rewrite float_eqb_sym.
Qed.

Lemma rowOfKey_none (k : float) (processed : list TextEntity) :
  (forall entity, In entity processed -> (Table.yKey entity =? k)%float = false) ->
  rowOfKey k processed = [].
Proof.
  intros Hnone. unfold rowOfKey.
  induction processed as [| entity rest IH]; cbn [filter map]; [reflexivity |].
  rewrite (Hnone entity (or_introl eq_refl)). apply IH.
  intros e He. apply Hnone. now right.
Qed.

(** One pass of the grouping loop keeps the rows grouped by key. *)
Lemma groupStep_grouped (m : Table.RowsDict) (processed : list TextEntity)
  (entity : TextEntity) :
  grouped m processed -> grouped (Table.groupStep m entity) (processed ++ [entity]).
Proof.
  intros (Hapart & Hrows & Hcover).
  unfold Table.groupStep.
  set (k0 := Table.yKey entity).
  set (m1 := match Table.dictLookup m k0 with
             | Some _ => m
             | None => Table.dictStore m k0 []
             end).
  assert (Hm1apart : keysApart m1).
  { subst m1. destruct (Table.dictLookup m k0); [exact Hapart |].
    now apply dictStore_keysApart. }
  assert (Hm1 : forall k c, In (k, c) m1 <->
            In (k, c) m \/ (Table.dictLookup m k0 = None /\ (k, c) = (k0, []))).
  { intros k c. subst m1. destruct (Table.dictLookup m k0) as [cells1 |] eqn:Hlook.
    - split; [now left | intros [Hin | [Hnone _]]; [exact Hin | discriminate Hnone]].
    - rewrite (dictStore_entries m k0 [] k c Hapart).
      pose proof (proj1 (dictLookup_None m k0) Hlook) as Hall. split.
      + intros [Heq | [Hin _]]; [right; auto | now left].
      + intros [Hin | [_ Heq]]; [| now left].
        right. split; [exact Hin | apply (Hall (k, c) Hin)]. }
  set (g := Table.dictGet m1 k0).
  assert (Hg : notNaN k0 -> g = rowOfKey k0 processed).
  { intros Hk0. subst g. unfold Table.dictGet.
    assert (Hcase : (exists cells1, Table.dictLookup m k0 = Some cells1) \/
                    Table.dictLookup m k0 = None)
      by (destruct (Table.dictLookup m k0) as [cells1 |]; eauto).
    destruct Hcase as [[cells1 Hlook] | Hlook].
    - assert (Hm1eq : m1 = m) by (subst m1; now rewrite Hlook).
      rewrite Hm1eq, Hlook.
      apply (dictLookup_Some m k0 cells1 Hapart) in Hlook.
      destruct Hlook as (k' & Hin & Hk').
      rewrite (Hrows k' cells1 Hin (proj1 (float_eqb_notNaN _ _ Hk'))).
      now apply rowOfKey_eqb.
    - assert (Hlook1 : Table.dictLookup m1 k0 = Some []).
      { apply (dictLookup_Some m1 k0 [] Hm1apart). exists k0. split; [| exact Hk0].
        apply Hm1. right. split; [exact Hlook | reflexivity]. }
      rewrite Hlook1. symmetry. apply rowOfKey_none. intros e He.
      destruct (Table.yKey e =? k0)%float eqn:Hkey; [| reflexivity].
      destruct (Hcover e He (proj1 (float_eqb_notNaN _ _ Hkey))) as (k & c & Hin & Hk).
      pose proof (proj1 (dictLookup_None m k0) Hlook (k, c) Hin) as Hno. cbn [fst] in Hno.
      rewrite (float_eqb_trans k (Table.yKey e) k0 Hk Hkey) in Hno. discriminate Hno. }
  assert (Hentries : forall k c,
            In (k, c) (Table.dictStore m1 k0 (g ++ [mkTableCell (X entity) (Content entity)])) <->
            (k, c) = (k0, g ++ [cellOf entity]) \/ (In (k, c) m1 /\ (k =? k0)%float = false)).
  { intros k c. apply (dictStore_entries m1 k0 _ k c Hm1apart). }
  split; [now apply dictStore_keysApart |]. split.
  - intros k c Hin Hk. apply Hentries in Hin. rewrite rowOfKey_snoc. fold k0.
    destruct Hin as [Heq | [Hin Hkk0]].
    + injection Heq as -> ->. rewrite Hk, (Hg Hk). reflexivity.
    + rewrite float_eqb_sym, Hkk0, app_nil_r.
      apply Hm1 in Hin. destruct Hin as [Hin | [_ Heq]]; [now apply Hrows |].
      injection Heq as -> _. unfold notNaN in Hk. congruence.
  - intros e He Hke. apply in_app_or in He. destruct He as [He | [<- | []]].
    + destruct (Hcover e He Hke) as (k & c & Hin & Hk).
      destruct (k =? k0)%float eqn:Hkk0.
      * exists k0, (g ++ [cellOf entity]). split; [apply Hentries; now left |].
        apply (float_eqb_trans k0 k); [now rewrite float_eqb_sym | exact Hk].
      * exists k, c. split; [| exact Hk]. apply Hentries. right.
        split; [apply Hm1; now left | exact Hkk0].
    + exists k0, (g ++ [cellOf entity]). split; [apply Hentries; now left | exact Hke].
Qed.

Lemma groupRows_grouped (filteredEntities : list TextEntity) :
  grouped (Table.groupRows filteredEntities) filteredEntities.
Proof.
  unfold Table.groupRows.
  assert (Hgen : forall rest m processed,
            grouped m processed ->
            grouped (fold_left Table.groupStep rest m) (processed ++ rest)).
  { induction rest as [| entity rest IH]; intros m processed Hm; cbn [fold_left].
    - now rewrite app_nil_r.
    - replace (processed ++ entity :: rest) with ((processed ++ [entity]) ++ rest)
        by (rewrite <- app_assoc; reflexivity).
      apply IH. now apply groupStep_grouped. }
  apply (Hgen filteredEntities [] []).
  split; [exact I |]. split; [intros k cells [] | intros e []].
Qed.

(** The two close fragments end in two rows. *)
Example closeFragmentsDrawing_rows :
  Table.filterEntities closeFragmentsDrawing 10 0
    = [fragment "a" 0 5.03125; fragment "b" 1 5.0625] /\
  (PrimFloat.abs (5.03125 - 5.0625) <=? rowTolerance)%float = true /\
  Table.buildTableRows (Table.filterEntities closeFragmentsDrawing 10 0) = [["b"]; ["a"]].
Proof. repeat split; vm_compute; reflexivity. Qed.




(** ** Drawings with several materials tables *)

(** Whatever follows the first title in the list, the anchor is that first
    occurrence. *)
Lemma findTitle_first (before after : list TextEntity) (title : TextEntity)
  (tableTitle : string) :
  (forall entity, In entity before ->
     Strings.Contains (Strings.ToLower (Content entity)) (Strings.ToLower tableTitle) = false) ->
  Strings.Contains (Strings.ToLower (Content title)) (Strings.ToLower tableTitle) = true ->
  Table.findTitle (before ++ title :: after) tableTitle = Some title.
Proof.
  intros Hbefore Htitle. induction before as [| entity rest IH]; cbn [app Table.findTitle].
  - now rewrite Htitle.
  - rewrite (Hbefore entity (or_introl eq_refl)). apply IH.
    intros e He. apply Hbefore. now right.
Qed.

(** C2 fails on the code.  On the two-sheet drawing the design's procedure
    finds the pages at Y = 200 and Y = 100 and returns the component rows of
    both sheets, upper sheet first; [extractTable] anchors at the first title
    in the list (Y = 100) and returns the row of the lower sheet only. *)
Theorem twoSheetDrawing_first_title_only :
  DesignPages.boundaries twoSheetDrawing = [200; 100]%float /\
  DesignPages.rowsByPages TableExtraction.extractTable twoSheetDrawing "ERECTION MATERIALS"
  = Some [ ["1"; "PIPE SCH40"; "25"; "2"; "3.5"; ""];
           ["2"; "ELBOW 90"; "25"; "1"; "0.5"; ""] ] /\
  TableExtraction.extractTable twoSheetDrawing "ERECTION MATERIALS"
  = Some (materialsTableHeader, [ ["2"; "ELBOW 90"; "25"; "1"; "0.5"; ""] ]) /\
  WeldDetector.extractTable twoSheetDrawing "ERECTION MATERIALS"
  = Some (materialsTableHeader, [ ["2"; "ELBOW 90"; "25"; "1"; "0.5"; ""] ]).
Proof. repeat split; vm_compute; reflexivity. Qed.

(** ** Weld candidates *)

Section Candidates.

Context {F : Type} `{Float64 F}.

Lemma pairsWith_In (seg1 : Weld.PolylineSegment F) (later : list (Weld.PolylineSegment F))
  (w : Weld.WeldSymbol F) :
  In w (Weld.pairsWith seg1 later) ->
  exists seg2, In seg2 later /\ Weld.pairSymbol seg1 seg2 = Some w.
Proof.
  induction later as [| seg2 rest IH]; cbn [Weld.pairsWith]; [intros [] |].
  destruct (Weld.pairSymbol seg1 seg2) as [w0 |] eqn:Hpair.
  - intros [<- | Hin].
    + exists seg2. split; [now left | exact Hpair].
    + destruct (IH Hin) as (s & Hs & Hw). exists s. split; [now right | exact Hw].
  - intros Hin. destruct (IH Hin) as (s & Hs & Hw). exists s. split; [now right | exact Hw].
Qed.

Lemma allPairs_In (segments : list (Weld.PolylineSegment F)) (w : Weld.WeldSymbol F) :
  In w (Weld.allPairs segments) ->
  exists seg1 seg2,
    In seg1 segments /\ In seg2 segments /\ Weld.pairSymbol seg1 seg2 = Some w.
Proof.
  induction segments as [| seg1 rest IH]; cbn [Weld.allPairs]; [intros [] |].
  intros Hin. apply in_app_or in Hin. destruct Hin as [Hin | Hin].
  - destruct (pairsWith_In _ _ _ Hin) as (seg2 & Hs & Hw).
    exists seg1, seg2. split; [now left |]. split; [now right | exact Hw].
  - destruct (IH Hin) as (s1 & s2 & H1 & H2 & Hw).
    exists s1, s2. split; [now right |]. split; [now right | exact Hw].
Qed.

(** Every symbol [detectWeldSymbols] returns was accepted for a pair of the
    segments. *)
Lemma detectWeldSymbols_from_pairs (segments : list (Weld.PolylineSegment F))
  (w : Weld.WeldSymbol F) :
  In w (Weld.detectWeldSymbols segments) ->
  exists seg1 seg2,
    In seg1 segments /\ In seg2 segments /\ Weld.pairSymbol seg1 seg2 = Some w.
Proof.
  unfold Weld.detectWeldSymbols. destruct segments as [| seg rest]; [intros [] |].
  intros Hin. apply removeDuplicateSymbols_incl in Hin. now apply allPairs_In.
Qed.

End Candidates.

(** *** The arithmetic without rounding *)

Local Open Scope R_scope.

Lemma Q2R_one : Q2R 1 = 1.
Proof. unfold Q2R. cbn. lra. Qed.

Lemma Q2R_epsilon : Q2R 1e-10 = / 10000000000.
Proof. unfold Q2R. cbn. lra. Qed.

Ltac real_arith :=
  rewrite ?Q2R_epsilon; unfold Q2R; cbn [Qnum Qden];
  repeat match goal with
         | |- context [Rabs ?x] => unfold Rabs; destruct (Rcase_abs x)
         end; lra.

Lemma Rabs_le_bounds (x y : R) : Rabs x <= y -> - y <= x <= y.
Proof. unfold Rabs. destruct (Rcase_abs x); lra. Qed.

Lemma Rleb_true_iff (x y : R) : Rleb x y = true <-> x <= y.
Proof. unfold Rleb. destruct (Rle_dec x y); split; try lra; try discriminate; auto. Qed.

Lemma Rltb_true_iff (x y : R) : Rltb x y = true <-> x < y.
Proof. unfold Rltb. destruct (Rlt_dec x y); split; try lra; try discriminate; auto. Qed.

Lemma Rltb_false_iff (x y : R) : Rltb x y = false <-> y <= x.
Proof. unfold Rltb. destruct (Rlt_dec x y); split; try lra; try discriminate; auto. Qed.

(** Lengths that match a weld pair are positive. *)
Lemma lengthsMatch_positive (l1 l2 : R) :
  Weld.lengthsMatch l1 l2 = true -> 3 < l1 /\ 3 < l2.
Proof.
  unfold Weld.lengthsMatch, Weld.weldLengthPairs.
  cbn [existsb fst snd fabs fsub fle fconst Exact].
  rewrite !orb_true_iff, !andb_true_iff, !Rleb_true_iff.
  unfold Q2R. cbn [Qnum Qden].
  intros Hmatch.
  repeat match goal with
         | H : _ \/ _ |- _ => destruct H
         | H : _ /\ _ |- _ => destruct H
         | H : Rabs _ <= _ |- _ => apply Rabs_le_bounds in H
         end; try discriminate; lra.
Qed.

Lemma distance_nonneg (x1 y1 x2 y2 : R) : 0 <= Weld.distance x1 y1 x2 y2.
Proof. unfold Weld.distance. cbn. apply sqrt_pos. Qed.

Lemma distance_same (x y : R) : Weld.distance x y x y = 0.
Proof.
  unfold Weld.distance. cbn [fsqrt fadd fsub fmul Exact].
  replace ((x - x) * (x - x) + (y - y) * (y - y)) with 0 by ring. apply sqrt_0.
Qed.

Lemma ratio_bounds (a b : R) : 0 <= a -> a <= b -> 0 < b -> 0 <= a / b <= 1.
Proof.
  intros Ha Hab Hb. split.
  - apply Rmult_le_pos; [exact Ha | left; now apply Rinv_0_lt_compat].
  - apply (Rmult_le_reg_r b); [exact Hb |].
    unfold Rdiv. rewrite Rmult_assoc, Rinv_l by lra. lra.
Qed.

(** The pair loop in the arithmetic without rounding (segments, lengths and
    distances are real numbers): a crossing pair with matching lengths yields
    a candidate exactly when the distance from the intersection to each
    midpoint is at most 30% of that segment's length; the confidence is
    1 - max(d1, d2) / max(0.3 * length1, 0.3 * length2), lies in [0, 1], and
    is 1 when the intersection is the midpoint of both. *)
Lemma pair_confidence_exact :
  forall (seg1 seg2 : Weld.PolylineSegment R) (ix iy : R),
    Weld.lengthsMatch (Weld.Length seg1) (Weld.Length seg2) = true ->
    Weld.linesIntersect seg1 seg2 = Some (ix, iy) ->
    let d1 := Weld.distToMid seg1 ix iy in
    let d2 := Weld.distToMid seg2 ix iy in
    let t1 := Weld.Length seg1 * (3 / 10) in
    let t2 := Weld.Length seg2 * (3 / 10) in
    0 < Weld.Length seg1 /\ 0 < Weld.Length seg2 /\
    ((exists w, Weld.pairSymbol seg1 seg2 = Some w) <-> d1 <= t1 /\ d2 <= t2) /\
    forall w, Weld.pairSymbol seg1 seg2 = Some w ->
      Weld.CenterX w = ix /\ Weld.CenterY w = iy /\
      Weld.Confidence w = 1 - Rmax d1 d2 / Rmax t1 t2 /\
      0 <= Weld.Confidence w <= 1 /\
      (ix = (Weld.X1 seg1 + Weld.X2 seg1) / 2 -> iy = (Weld.Y1 seg1 + Weld.Y2 seg1) / 2 ->
       ix = (Weld.X1 seg2 + Weld.X2 seg2) / 2 -> iy = (Weld.Y1 seg2 + Weld.Y2 seg2) / 2 ->
       Weld.Confidence w = 1).
Proof.
  intros seg1 seg2 ix iy Hmatch Hcross d1 d2 t1 t2.
  destruct (lengthsMatch_positive _ _ Hmatch) as [Hl1 Hl2].
  assert (Ht1 : Weld.tolerance seg1 = t1).
  { unfold Weld.tolerance, t1. cbn [fmul fconst Exact]. unfold Q2R. cbn [Qnum Qden]. lra. }
  assert (Ht2 : Weld.tolerance seg2 = t2).
  { unfold Weld.tolerance, t2. cbn [fmul fconst Exact]. unfold Q2R. cbn [Qnum Qden]. lra. }
  assert (Hd1 : 0 <= d1) by apply distance_nonneg.
  assert (Hd2 : 0 <= d2) by apply distance_nonneg.
  split; [lra |]. split; [lra |].
  unfold Weld.pairSymbol. rewrite Hmatch, Hcross. cbn [negb].
  fold d1 d2. rewrite Ht1, Ht2. cbn [flt fmax fsub fdiv fconst Exact]. rewrite Q2R_one.
  destruct (Rltb t1 d1) eqn:H1; [| destruct (Rltb t2 d2) eqn:H2]; cbn [orb].
  - apply Rltb_true_iff in H1. split.
    + split; [intros [w Hw]; discriminate Hw | lra].
    + intros w Hw. discriminate Hw.
  - apply Rltb_true_iff in H2. split.
    + split; [intros [w Hw]; discriminate Hw | lra].
    + intros w Hw. discriminate Hw.
  - apply Rltb_false_iff in H1. apply Rltb_false_iff in H2. split.
    + split; [intros _; lra | intros _; eexists; reflexivity].
    + intros w Hw. injection Hw as <-.
      cbn [Weld.CenterX Weld.CenterY Weld.Confidence].
      split; [reflexivity |]. split; [reflexivity |]. split; [reflexivity |].
      assert (Hmax : 0 <= Rmax d1 d2 <= Rmax t1 t2).
      { split.
        - apply Rle_trans with d1; [exact Hd1 | apply Rmax_l].
        - apply Rmax_lub.
          + apply Rle_trans with t1; [exact H1 | apply Rmax_l].
          + apply Rle_trans with t2; [exact H2 | apply Rmax_r]. }
      assert (Hpos : 0 < Rmax t1 t2).
      { apply Rlt_le_trans with t1; [unfold t1; lra | apply Rmax_l]. }
      pose proof (ratio_bounds _ _ (proj1 Hmax) (proj2 Hmax) Hpos) as Hratio.
      split; [lra |].
      intros Hx1 Hy1 Hx2 Hy2.
      assert (Hz1 : d1 = 0).
      { unfold d1, Weld.distToMid. cbn [fadd fdiv fconst Exact].
        replace (Q2R 2) with 2 by (unfold Q2R; cbn; lra).
        rewrite <- Hx1, <- Hy1. apply distance_same. }
      assert (Hz2 : d2 = 0).
      { unfold d2, Weld.distToMid. cbn [fadd fdiv fconst Exact].
        replace (Q2R 2) with 2 by (unfold Q2R; cbn; lra).
        rewrite <- Hx2, <- Hy2. apply distance_same. }
      rewrite Hz1, Hz2. unfold Rmax at 1.
      destruct (Rle_dec 0 0); unfold Rdiv; rewrite Rmult_0_l; lra.
Qed.

Lemma crossSegs_match :
  Weld.lengthsMatch (Weld.Length crossSeg1) (Weld.Length crossSeg2) = true.
Proof.
  unfold Weld.lengthsMatch, Weld.weldLengthPairs.
  cbn [existsb fst snd fabs fsub fle fconst Exact crossSeg1 crossSeg2 Weld.Length].
  rewrite !orb_true_iff, !andb_true_iff, !Rleb_true_iff.
  right. right. left. right. split; real_arith.
Qed.

Lemma crossSegs_cross :
  exists ix iy, Weld.linesIntersect crossSeg1 crossSeg2 = Some (ix, iy) /\ ix = 0 /\ iy = 0.
Proof.
  unfold Weld.linesIntersect.
  cbn [crossSeg1 crossSeg2 Weld.X1 Weld.X2 Weld.Y1 Weld.Y2
       fabs fsub fmul fdiv fadd fopp flt fle fconst Exact].
  match goal with |- context [if Rltb ?a ?b then _ else _] =>
    replace (Rltb a b) with false by (symmetry; apply Rltb_false_iff; real_arith) end.
  match goal with |- context [if ?c then _ else _] => replace c with true end.
  - eexists. eexists. split; [reflexivity |]. split; field.
  - symmetry. rewrite !andb_true_iff, !Rleb_true_iff.
    replace (Q2R 0) with 0 by real_arith. replace (Q2R 1) with 1 by real_arith.
    repeat split.
    all: match goal with
         | |- 0 <= ?x => replace x with (1 / 2) by field; lra
         | |- ?x <= 1 => replace x with (1 / 2) by field; lra
         end.
Qed.

Local Close Scope R_scope.

(** *** The same crossings in binary64 *)

(** Crossing at both midpoints: one symbol, confidence exactly 1.0; crossing
    1.625 from the midpoint of the segment of length 4 (more than 30% of its
    length): no symbol. *)
Example ieee_centered_cross :
  map Weld.Confidence (Weld.detectWeldSymbols [ieeeSeg1; ieeeSeg2]) = [1%float] /\
  Weld.pairSymbol ieeeSeg1 ieeeSegOffset = None /\
  Weld.detectWeldSymbols [ieeeSeg1; ieeeSegOffset] = [].
Proof. repeat split; vm_compute; reflexivity. Qed.

(** *** Binary64 facts for the centred crossing *)

Lemma finite_cases (x : float) :
  is_finite x = true ->
  (exists s, Prim2SF x = S754_zero s) \/ (exists s m e, Prim2SF x = S754_finite s m e).
Proof.
  unfold is_finite, is_nan, is_infinity.
  rewrite !FloatAxioms.eqb_spec, FloatAxioms.abs_spec.
  destruct (Prim2SF x) as [s | s | | s m e] eqn:Hx.
  - intros _. left. now exists s.
  - cbn. rewrite orb_true_r. discriminate.
  - cbn. discriminate.
  - intros _. right. now exists s, m, e.
Qed.

Lemma float_sub_diag (x : float) : is_finite x = true -> (x - x)%float = 0%float.
Proof.
  intros Hfin. apply FloatAxioms.Prim2SF_inj. rewrite FloatAxioms.sub_spec.
  change (Prim2SF 0) with (S754_zero false).
  destruct (finite_cases x Hfin) as [[s ->] | (s & m & e & ->)].
  - now destruct s.
  - unfold SF64sub, SFsub. rewrite Z.sub_diag. reflexivity.
Qed.

Lemma distance_same_ieee (x y : float) :
  is_finite x = true -> is_finite y = true -> Weld.distance x y x y = 0%float.
Proof.
  intros Hx Hy. unfold Weld.distance. cbn [fsub fmul fadd fsqrt IEEE].
  rewrite (float_sub_diag x Hx), (float_sub_diag y Hy). reflexivity.
Qed.

Lemma positive_cases (m : float) :
  (0 <? m)%float = true ->
  Prim2SF m = S754_infinity false \/ exists mm e, Prim2SF m = S754_finite false mm e.
Proof.
  rewrite FloatAxioms.ltb_spec. change (Prim2SF 0) with (S754_zero false).
  destruct (Prim2SF m) as [s | s | | s mm e]; cbn; try discriminate.
  - destruct s; [discriminate | now left].
  - destruct s; [discriminate |]. intros _. right. now exists mm, e.
Qed.

Lemma zero_div_positive (m : float) : (0 <? m)%float = true -> (0 / m)%float = 0%float.
Proof.
  intros Hpos. apply FloatAxioms.Prim2SF_inj. rewrite FloatAxioms.div_spec.
  change (Prim2SF 0) with (S754_zero false).
  destruct (positive_cases m Hpos) as [-> | (mm & e & ->)]; reflexivity.
Qed.

Lemma ieeeMax_positive (x y : float) :
  (0 <? x)%float = true -> (0 <? y)%float = true -> (0 <? ieeeMax x y)%float = true.
Proof.
  intros Hx Hy. unfold ieeeMax.
  destruct ((x =? infinity)%float || (y =? infinity)%float); [reflexivity |].
  assert (Hnx : is_nan x = false).
  { unfold is_nan. apply float_ltb_leb, float_leb_notNaN in Hx. destruct Hx as [_ Hx].
    unfold notNaN in Hx. now rewrite Hx. }
  assert (Hny : is_nan y = false).
  { unfold is_nan. apply float_ltb_leb, float_leb_notNaN in Hy. destruct Hy as [_ Hy].
    unfold notNaN in Hy. now rewrite Hy. }
  rewrite Hnx, Hny. cbn [orb].
  assert (Hz : (x =? 0)%float = false).
  { rewrite FloatAxioms.eqb_spec. change (Prim2SF 0) with (S754_zero false).
    destruct (positive_cases x Hx) as [-> | (mm & e & ->)]; reflexivity. }
  rewrite Hz. cbn [andb].
  now destruct (y <? x)%float.
Qed.

(** The body of the pair loop once the lengths match and the segments
    intersect, for every implementation of the operations. *)
Lemma pairSymbol_crossing {F : Type} `{Float64 F}
  (seg1 seg2 : Weld.PolylineSegment F) (ix iy : F) :
  Weld.lengthsMatch (Weld.Length seg1) (Weld.Length seg2) = true ->
  Weld.linesIntersect seg1 seg2 = Some (ix, iy) ->
  let d1 := Weld.distToMid seg1 ix iy in
  let d2 := Weld.distToMid seg2 ix iy in
  let t1 := Weld.tolerance seg1 in
  let t2 := Weld.tolerance seg2 in
  Weld.pairSymbol seg1 seg2 =
  if flt t1 d1 || flt t2 d2 then None
  else Some (Weld.mkWeldSymbol ix iy (Weld.Length seg1) (Weld.Length seg2) (Weld.Layer seg1)
               (fsub (fconst 1) (fdiv (fmax d1 d2) (fmax t1 t2)))).
Proof.
  intros Hmatch Hcross. cbn zeta. unfold Weld.pairSymbol.
  rewrite Hmatch, Hcross. reflexivity.
Qed.

Lemma centred_confidence (seg1 seg2 : Weld.PolylineSegment float) (ix iy : float)
  (w : Weld.WeldSymbol float) :
  Weld.lengthsMatch (Weld.Length seg1) (Weld.Length seg2) = true ->
  Weld.linesIntersect seg1 seg2 = Some (ix, iy) ->
  Weld.pairSymbol seg1 seg2 = Some w ->
  midpoint seg1 = (ix, iy) -> midpoint seg2 = (ix, iy) ->
  is_finite ix = true -> is_finite iy = true ->
  (0 <? Weld.tolerance seg1)%float = true -> (0 <? Weld.tolerance seg2)%float = true ->
  Weld.Confidence w = 1%float.
Proof.
  intros Hmatch Hcross Hw Hm1 Hm2 Hx Hy Ht1 Ht2.
  pose proof (pairSymbol_crossing seg1 seg2 ix iy Hmatch Hcross) as Hp. cbv zeta in Hp.
  rewrite Hp in Hw. clear Hp.
  destruct (flt _ _ || flt _ _); [discriminate |].
  assert (Hconf : Weld.Confidence w
                  = fsub (fconst 1)
                         (fdiv (fmax (Weld.distToMid seg1 ix iy) (Weld.distToMid seg2 ix iy))
                               (fmax (Weld.tolerance seg1) (Weld.tolerance seg2))))
    by (injection Hw as <-; reflexivity).
  rewrite Hconf. clear Hconf Hw.
  assert (Hd1 : Weld.distToMid seg1 ix iy = 0%float).
  { unfold Weld.distToMid. unfold midpoint in Hm1.
    cbn [fadd fdiv fconst IEEE] in Hm1 |- *. injection Hm1 as Hmx Hmy.
    rewrite Hmx, Hmy. now apply distance_same_ieee. }
  assert (Hd2 : Weld.distToMid seg2 ix iy = 0%float).
  { unfold Weld.distToMid. unfold midpoint in Hm2.
    cbn [fadd fdiv fconst IEEE] in Hm2 |- *. injection Hm2 as Hmx Hmy.
    rewrite Hmx, Hmy. now apply distance_same_ieee. }
  rewrite Hd1, Hd2. cbn [fmax fdiv fsub fconst IEEE].
  change (ieeeMax 0 0) with 0%float.
  rewrite (zero_div_positive _ (ieeeMax_positive _ _ Ht1 Ht2)).
  reflexivity.
Qed.




(* ================================================================== *)
(** * Further properties of the weld detector *)

(** ** The length filter and the pair table *)

(** X1.  Every pair of lengths that [lengthsMatch] accepts consists of two
    target lengths: the filter [isTargetLength], which the polyline parser
    applies before pairing, never discards a segment of a matching pair.
    Holds for every implementation of the float64 operations. *)
Theorem lengthsMatch_target_lengths {F : Type} `{Float64 F} (len1 len2 : F) :
  Weld.lengthsMatch len1 len2 = true ->
  Weld.isTargetLength len1 = true /\ Weld.isTargetLength len2 = true.
Proof.
  unfold Weld.lengthsMatch, Weld.isTargetLength, Weld.weldLengthPairs, Weld.targetLengths.
  cbn [existsb fst snd].
  repeat rewrite ?orb_true_iff, ?andb_true_iff, ?orb_false_r.
  intuition.
Qed.

Lemma lengthsMatch_target_lengths_witness :
  Weld.isTargetLength 4%float = true /\ Weld.isTargetLength (ieeeConst 6.9%Q) = true.
Proof.
  apply (lengthsMatch_target_lengths 4%float (ieeeConst 6.9%Q)).
  vm_compute. reflexivity.
Defined.

(** ** Spacing of the deduplicated symbols *)

Lemma snoc_cases {A : Type} (l : list A) : l = [] \/ exists l' x, l = l' ++ [x].
Proof.
  destruct l as [| a l]; [now left | right].
  destruct (exists_last (l := a :: l)) as [l' [x Hx]]; [discriminate |].
  now exists l', x.
Qed.

Lemma Spaced_pairwise {F : Type} `{Float64 F}
  (l before between after : list (Weld.WeldSymbol F)) (a b : Weld.WeldSymbol F) :
  Spaced l ->
  l = before ++ a :: between ++ b :: after ->
  flt (Weld.distance (Weld.CenterX b) (Weld.CenterY b) (Weld.CenterX a) (Weld.CenterY a))
      (fconst 5.0%Q) = false.
Proof.
  intros Hsp. revert after.
  induction Hsp as [| unique symbol Hsp IH Hdup]; intros after Heq.
  - destruct before; discriminate.
  - destruct (snoc_cases after) as [-> | [after' [x ->]]].
    + replace (before ++ a :: between ++ [b]) with ((before ++ a :: between) ++ [b]) in Heq
        by (rewrite <- app_assoc; reflexivity).
      apply app_inj_tail in Heq. destruct Heq as [-> ->].
      unfold Weld.isDuplicate in Hdup.
      rewrite <- not_true_iff_false in Hdup.
      apply not_true_iff_false. intros Hlt. apply Hdup.
      apply existsb_exists. exists a. split; [| exact Hlt].
      apply in_or_app. right. now left.
    + replace (before ++ a :: between ++ b :: after' ++ [x])
        with ((before ++ a :: between ++ b :: after') ++ [x]) in Heq
        by (rewrite <- app_assoc; cbn; rewrite <- app_assoc; reflexivity).
      apply app_inj_tail in Heq. destruct Heq as [-> _].
      now apply (IH after').
Qed.

(** X2.  After deduplication no symbol lies within the duplicate threshold
    (5.0) of a symbol that precedes it in the result: for any two symbols
    [a] before [b] of the output, the test [distance(b, a) < 5.0] of the
    loop is false. *)
Theorem removeDuplicateSymbols_spaced {F : Type} `{Float64 F}
  (symbols before between after : list (Weld.WeldSymbol F)) (a b : Weld.WeldSymbol F) :
  Weld.removeDuplicateSymbols symbols = before ++ a :: between ++ b :: after ->
  flt (Weld.distance (Weld.CenterX b) (Weld.CenterY b) (Weld.CenterX a) (Weld.CenterY a))
      (fconst 5.0%Q) = false.
Proof.
  intros Heq.
  apply (Spaced_pairwise (Weld.removeDuplicateSymbols symbols) before between after a b);
    [| exact Heq].
  rewrite removeDuplicateSymbols_dedupeFrom.
  apply dedupeFrom_Spaced. constructor.
Qed.

Lemma removeDuplicateSymbols_spaced_witness :
  (Weld.distance 12 0 0 0 <? 5)%float = false.
Proof.
  exact (removeDuplicateSymbols_spaced
           [ Weld.mkWeldSymbol 0%float 0%float 4%float 4%float "W" 1%float;
             Weld.mkWeldSymbol 3%float 0%float 4%float 4%float "W" 1%float;
             Weld.mkWeldSymbol 12%float 0%float 4%float 4%float "W" 1%float ]
           [] [] []
           (Weld.mkWeldSymbol 0%float 0%float 4%float 4%float "W" 1%float)
           (Weld.mkWeldSymbol 12%float 0%float 4%float 4%float "W" 1%float)
           eq_refl).
Defined.

(* ================================================================== *)
(** * Further properties of the table extractor *)

(** ** The materials pass *)

Lemma In_firstn {A : Type} (n : nat) (l : list A) (x : A) : In x (firstn n l) -> In x l.
Proof.
  intros Hin. rewrite <- (firstn_skipn n l). apply in_or_app. now left.
Qed.

Lemma isCategory_first_cell (row : Row) :
  Materials.isCategory row = true -> nth 0 row "" <> "".
Proof.
  unfold Materials.isCategory, Materials.classifyRow.
  destruct (String.eqb (nth 0 row "") "") eqn:He; cbn [negb fst]; [discriminate |].
  intros _. now apply String.eqb_neq.
Qed.

Lemma finishDataRow_shape (currentCategory : string) (newRow : Row) :
  (6 <= List.length (Materials.finishDataRow currentCategory newRow))%nat /\
  nth 5 (Materials.finishDataRow currentCategory newRow) "" = currentCategory.
Proof.
  unfold Materials.finishDataRow.
  match goal with |- context [Materials.growTo6 ?r] => set (newRow1 := r) end.
  assert (Hlen : (6 <= List.length (Materials.growTo6 newRow1))%nat).
  { unfold Materials.growTo6. rewrite length_app, repeat_length. lia. }
  split.
  - now rewrite length_setAt.
  - rewrite nth_setAt, Nat.eqb_refl.
    destruct (5 <? List.length (Materials.growTo6 newRow1))%nat eqn:Hlt; [reflexivity |].
    apply Nat.ltb_ge in Hlt. lia.
Qed.

(** What the loop keeps true: the current category and column F of every
    emitted row are empty or the first cell of a row already read. *)
Lemma step_keeps_category (repair : Row -> Row) (seen : Row -> Prop)
  (st : list Row * string) (row : Row) :
  let fromFirstCell (s : string) :=
    s = "" \/ exists r, seen r /\ nth 0 r "" <> "" /\ s = nth 0 r "" in
  let good (st : list Row * string) :=
    fromFirstCell (snd st) /\
    Forall (fun out => (6 <= List.length out)%nat /\ fromFirstCell (nth 5 out "")) (fst st) in
  seen row -> good st -> good (Materials.step repair st row).
Proof.
  intros fromFirstCell good Hseen [Hcat Hrows].
  destruct st as [processedRows currentCategory]. cbn [fst snd] in Hcat, Hrows.
  unfold Materials.step.
  destruct row as [| cell cells]; [now split |].
  set (row := cell :: cells) in *.
  destruct (Materials.isCategory row) eqn:Hc.
  - pose proof (isCategory_first_cell row Hc) as Hne.
    destruct (Materials.isTotalRow row).
    + split; [exact Hcat |]. cbn [fst].
      apply Forall_app. split; [exact Hrows |].
      constructor; [| constructor]. unfold Materials.totalRow. cbn [List.length nth].
      split; [lia |]. right. exists row. now repeat split.
    + destruct (negb (Materials.isTotalLabel (nth 0 row ""))).
      * split; [| exact Hrows]. cbn [snd]. right. exists row. now repeat split.
      * now split.
  - split; [exact Hcat |]. cbn [fst].
    apply Forall_app. split; [exact Hrows |].
    constructor; [| constructor].
    destruct (finishDataRow_shape currentCategory (repair row)) as [Hlen H5].
    split; [exact Hlen |]. rewrite H5. exact Hcat.
Qed.

Lemma fold_step_keeps_category (repair : Row -> Row) (seen : Row -> Prop)
  (rows : list Row) (st : list Row * string) :
  let fromFirstCell (s : string) :=
    s = "" \/ exists r, seen r /\ nth 0 r "" <> "" /\ s = nth 0 r "" in
  let good (st : list Row * string) :=
    fromFirstCell (snd st) /\
    Forall (fun out => (6 <= List.length out)%nat /\ fromFirstCell (nth 5 out "")) (fst st) in
  (forall r, In r rows -> seen r) -> good st ->
  good (fold_left (Materials.step repair) rows st).
Proof.
  intros fromFirstCell good. revert st.
  induction rows as [| row rest IH]; intros st Hseen Hgood; cbn [fold_left].
  - exact Hgood.
  - apply IH.
    + intros r Hr. apply Hseen. now right.
    + apply (step_keeps_category repair seen st row); [apply Hseen; now left | exact Hgood].
Qed.

(** X4.  Every row the materials pass emits has at least six cells, and its
    cell in column F (index 5) is empty or the non-empty first cell of an
    input row, the category header or total label it was taken from;
    whatever a data row held in column F is overwritten.  Holds for the pass
    of both programs (any repair of the data rows). *)
Theorem processRows_category_column (repair : Row -> Row) (dataRows : list Row) (out : Row) :
  In out (Materials.processRows repair dataRows) ->
  (6 <= List.length out)%nat /\
  (nth 5 out "" = "" \/
   exists r, In r dataRows /\ nth 0 r "" <> "" /\ nth 5 out "" = nth 0 r "").
Proof.
  unfold Materials.processRows. intros Hin.
  pose proof (fold_step_keeps_category repair (fun r => In r dataRows)
                (firstn (Materials.totalWeightEnd (List.length dataRows) 0 dataRows) dataRows)
                ([], "")) as Hgood.
  cbn zeta in Hgood.
  destruct Hgood as [_ Hrows].
  - intros r Hr. now apply In_firstn in Hr.
  - split; [now left | constructor].
  - rewrite Forall_forall in Hrows. exact (Hrows out Hin).
Qed.

Lemma processRows_category_column_witness :
  (6 <= List.length ["A1"; "DescA"; "25"; "2"; "1.5"; "PIPE"])%nat /\
  (nth 5 ["A1"; "DescA"; "25"; "2"; "1.5"; "PIPE"] "" = "" \/
   exists r, In r [["PIPE"]; ["A1"; "DescA"; "25"; "2M"; "1.5"; "x"]] /\ nth 0 r "" <> "" /\
             nth 5 ["A1"; "DescA"; "25"; "2"; "1.5"; "PIPE"] "" = nth 0 r "").
Proof.
  apply (processRows_category_column (fun row => row)
           [["PIPE"]; ["A1"; "DescA"; "25"; "2M"; "1.5"; "x"]]).
  vm_compute. left. reflexivity.
Defined.

Lemma totalWeightEnd_first (pre post : list Row) (r : Row) (n i : nat) :
  n = (i + List.length (pre ++ r :: post))%nat ->
  Forall (fun row => hasTotalWeight row = false) pre ->
  hasTotalWeight r = true ->
  Materials.totalWeightEnd n i (pre ++ r :: post) = S (i + List.length pre).
Proof.
  revert i. induction pre as [| row pre IH]; intros i Hn Hpre Hr; cbn [app Materials.totalWeightEnd].
  - fold (hasTotalWeight r). rewrite Hr. cbn [app List.length] in *.
    destruct (S i =? n)%nat eqn:He; cbn [negb].
    + apply Nat.eqb_eq in He. destruct post as [| p post]; cbn [List.length] in Hn; [| lia].
      cbn [Materials.totalWeightEnd]. lia.
    + lia.
  - inversion Hpre as [| ? ? Hrow Hpre']; subst.
    fold (hasTotalWeight row). rewrite Hrow, Nat.eqb_refl. cbn [negb].
    rewrite IH; [cbn [List.length]; lia | cbn [List.length app] in *; lia | exact Hpre' | exact Hr].
Qed.

(** X5.  The materials pass ends at the first row with a cell that contains
    TOTAL WEIGHT: the rows after it do not influence the result. *)
Theorem processRows_stops_at_total_weight (repair : Row -> Row)
  (pre post : list Row) (r : Row) :
  Forall (fun row => hasTotalWeight row = false) pre ->
  hasTotalWeight r = true ->
  Materials.processRows repair (pre ++ r :: post) = Materials.processRows repair (pre ++ [r]).
Proof.
  intros Hpre Hr. unfold Materials.processRows.
  rewrite (totalWeightEnd_first pre post r) by (auto; lia).
  rewrite (totalWeightEnd_first pre [] r) by (auto; lia).
  cbn [Nat.add].
  replace (S (List.length pre)) with (List.length (pre ++ [r]))
    by (rewrite length_app; cbn; lia).
  rewrite firstn_all.
  replace (pre ++ r :: post) with ((pre ++ [r]) ++ post)
    by (rewrite <- app_assoc; reflexivity).
  rewrite firstn_app, firstn_all, Nat.sub_diag. cbn [firstn]. now rewrite app_nil_r.
Qed.

Lemma processRows_stops_at_total_weight_witness :
  Materials.processRows (fun row => row)
    ([["PIPE"]; ["1"; "ELBOW"; "25"; "2"; "0.5"]] ++
     ["Total Weight"; "12.5"] :: [["NOTES"]; ["9"; "GASKET"; "25"; "1"; "0.1"]])
  = Materials.processRows (fun row => row)
      ([["PIPE"]; ["1"; "ELBOW"; "25"; "2"; "0.5"]] ++ [["Total Weight"; "12.5"]]).
Proof.
  apply processRows_stops_at_total_weight.
  - repeat constructor.
  - vm_compute. reflexivity.
Defined.

(** ** The CATEGORY column of the materials header *)

Lemma insertCategory_None (header : Row) :
  Table.insertCategory header = None <-> (0 < List.length header < 5)%nat.
Proof.
  unfold Table.insertCategory. destruct header as [| c rest].
  - cbn. split; [discriminate | lia].
  - destruct (List.length (c :: rest) <? 5)%nat eqn:Hlt.
    + apply Nat.ltb_lt in Hlt. cbn [List.length] in *. split; [lia | reflexivity].
    + apply Nat.ltb_ge in Hlt. split; [discriminate | lia].
Qed.

Lemma category_inserted (l : Row) :
  (5 <= List.length l)%nat ->
  (6 <= List.length (firstn 5 l ++ ["CATEGORY"] ++ skipn 5 l))%nat /\
  nth 5 (firstn 5 l ++ ["CATEGORY"] ++ skipn 5 l) "" = "CATEGORY".
Proof.
  intros Hlen.
  assert (Hf : List.length (firstn 5 l) = 5%nat) by (rewrite length_firstn; lia).
  split.
  - rewrite length_app, Hf. cbn [app List.length]. lia.
  - rewrite app_nth2; rewrite Hf; [reflexivity | lia].
Qed.

Lemma insertCategory_Some (header0 header : Row) :
  Table.insertCategory header0 = Some header ->
  header = [] \/ ((6 <= List.length header)%nat /\ nth 5 header "" = "CATEGORY").
Proof.
  unfold Table.insertCategory. destruct header0 as [| c rest].
  - intros [= <-]. now left.
  - remember (c :: rest) as l eqn:Hl.
    destruct (List.length l <? 5)%nat eqn:Hlt; [discriminate |].
    apply Nat.ltb_ge in Hlt. intros Hsome. injection Hsome as <-. right.
    now apply category_inserted.
Qed.

(** A materials table with three header columns stops both programs. *)
Example threeColumnMaterials_panics :
  WeldDetector.extractTable threeColumnMaterials "ERECTION MATERIALS" = None /\
  TableExtraction.extractTable threeColumnMaterials "ERECTION MATERIALS" = None.
Proof. split; vm_compute; reflexivity. Qed.

(** ** Cut-length rows *)

Lemma fold_setAt_length (row c : Row) (n : nat) :
  List.length (fold_left (fun c i => setAt i (nth i row "") c) (seq 0 n) c) = List.length c.
Proof.
  induction n as [| n IH].
  - reflexivity.
  - rewrite seq_S, fold_left_app. cbn [fold_left Nat.add]. now rewrite length_setAt.
Qed.

Lemma fold_setAt_nth (row c : Row) (n j : nat) :
  (n <= List.length c)%nat ->
  nth j (fold_left (fun c i => setAt i (nth i row "") c) (seq 0 n) c) ""
  = if (j <? n)%nat then nth j row "" else nth j c "".
Proof.
  induction n as [| n IH]; intros Hn.
  - reflexivity.
  - rewrite seq_S, fold_left_app. cbn [fold_left Nat.add].
    rewrite nth_setAt, fold_setAt_length, IH by lia.
    replace (n <? List.length c)%nat with true by (symmetry; apply Nat.ltb_lt; lia).
    rewrite andb_true_r.
    destruct (j =? n)%nat eqn:Hjn.
    + apply Nat.eqb_eq in Hjn. subst j.
      replace (n <? S n)%nat with true by (symmetry; apply Nat.ltb_lt; lia). reflexivity.
    + apply Nat.eqb_neq in Hjn.
      destruct (j <? n)%nat eqn:Hlt.
      * apply Nat.ltb_lt in Hlt.
        replace (j <? S n)%nat with true by (symmetry; apply Nat.ltb_lt; lia). reflexivity.
      * apply Nat.ltb_ge in Hlt.
        replace (j <? S n)%nat with false by (symmetry; apply Nat.ltb_ge; lia). reflexivity.
Qed.

Lemma fold_setAt_copy (row : Row) :
  fold_left (fun c i => setAt i (nth i row "") c)
            (seq 0 (Nat.min 8 (List.length row))) (repeat "" 8)
  = firstn 8 row ++ repeat "" (8 - List.length row).
Proof.
  apply nth_ext with (d := "") (d' := "").
  - rewrite fold_setAt_length, length_app, length_firstn, !repeat_length. lia.
  - intros j _. rewrite fold_setAt_nth by (rewrite repeat_length; lia).
    rewrite nth_repeat.
    destruct (j <? Nat.min 8 (List.length row))%nat eqn:Hlt.
    + apply Nat.ltb_lt in Hlt.
      rewrite app_nth1 by (rewrite length_firstn; lia).
      rewrite nth_firstn.
      replace (j <? 8)%nat with true by (symmetry; apply Nat.ltb_lt; lia). reflexivity.
    + apply Nat.ltb_ge in Hlt.
      destruct (Nat.lt_ge_cases j (List.length (firstn 8 row))) as [Hj | Hj].
      * rewrite length_firstn in Hj. lia.
      * rewrite app_nth2 by exact Hj. now rewrite nth_repeat.
Qed.

(** X7.  Row validation returns exactly eight columns for every row that
    is not empty; a row without any piece number is copied: its first eight
    cells, padded with empty strings. *)
Theorem validateAndCorrectCutLengthRow_eight_columns (row : Row) :
  row <> [] ->
  List.length (CutLength.validateAndCorrectCutLengthRow row) = 8%nat /\
  (CutLength.findPieces 0 row = [] ->
   CutLength.validateAndCorrectCutLengthRow row
   = firstn 8 row ++ repeat "" (8 - List.length row)).
Proof.
  intros Hne. unfold CutLength.validateAndCorrectCutLengthRow.
  destruct row as [| cell rest]; [now contradiction Hne |].
  set (row := cell :: rest) in *.
  destruct (CutLength.findPieces 0 row) as [| [idx v] ps] eqn:Hp.
  - rewrite fold_setAt_copy. split; [| reflexivity].
    rewrite length_app, length_firstn, repeat_length. lia.
  - split; [| discriminate].
    destruct ps as [| [idx' v'] ps'].
    + cbn [CutLength.groupPieces List.length Nat.min seq fold_left nth nth_error].
      now rewrite fillGroup_first.
    + cbn [CutLength.groupPieces List.length Nat.min seq fold_left nth nth_error].
      now rewrite fillGroup_first, fillGroup_second.
Qed.

Lemma validateAndCorrectCutLengthRow_eight_columns_witness :
  List.length (CutLength.validateAndCorrectCutLengthRow ["< 5 >"; "120"]) = 8%nat /\
  (CutLength.findPieces 0 ["< 5 >"; "120"] = [] ->
   CutLength.validateAndCorrectCutLengthRow ["< 5 >"; "120"]
   = firstn 8 ["< 5 >"; "120"] ++ repeat "" (8 - 2)).
Proof.
  apply (validateAndCorrectCutLengthRow_eight_columns ["< 5 >"; "120"]). discriminate.
Defined.

Lemma pieceRow_In (row : Row) (base : nat) (pd md dn pc : string) (out : Row) :
  (base + 4 <= List.length row)%nat ->
  (In out (CutLengthFormat.pieceRow row base pd md dn pc) <->
   Strings.TrimSpace (nth base row "") <> "" /\
   out = [ Strings.TrimSpace (nth base row "");
           Strings.TrimSpace (nth (base + 1) row "");
           Strings.TrimSpace (nth (base + 2) row "");
           Strings.TrimSpace (nth (base + 3) row "");
           pd; md; dn; pc ]).
Proof.
  intros Hlen. unfold CutLengthFormat.pieceRow, CutLengthFormat.trimmedCell.
  replace (base <? List.length row)%nat with true by (symmetry; apply Nat.ltb_lt; lia).
  replace (base + 1 <? List.length row)%nat with true by (symmetry; apply Nat.ltb_lt; lia).
  replace (base + 2 <? List.length row)%nat with true by (symmetry; apply Nat.ltb_lt; lia).
  replace (base + 3 <? List.length row)%nat with true by (symmetry; apply Nat.ltb_lt; lia).
  destruct (String.eqb (Strings.TrimSpace (nth base row "")) "") eqn:He; cbn [negb].
  - apply String.eqb_eq in He. split; [intros [] | intros [Hne _]; now contradiction Hne].
  - apply String.eqb_neq in He. cbn [In]. split.
    + intros [<- | []]. now split.
    + intros [_ ->]. now left.
Qed.


(* ================================================================== *)
(** * Further properties of the field locator and the patterns *)

(** ** The drawing-number pattern *)

Lemma string_of_list_ascii_app (l1 l2 : list ascii) :
  string_of_list_ascii (l1 ++ l2)
  = (string_of_list_ascii l1 ++ string_of_list_ascii l2)%string.
Proof.
  induction l1 as [| c l1 IH]; cbn; [reflexivity | now rewrite IH].
Qed.

Lemma kksHere_shape (s : list ascii) :
  Patterns.kksHere s = true ->
  Forall2 (fun c class => class c = true) (firstn 11 s) kksClasses.
Proof.
  unfold Patterns.kksHere.
  do 11 (destruct s as [| ? s]; [discriminate |]).
  repeat rewrite andb_true_iff. intros [[[[[[[[[[[H0 H1] H2] H3] H4] H5] H6] H7] H8] H9] H10] _].
  cbn [firstn]. unfold kksClasses.
  repeat constructor; try assumption.
  - apply Ascii.eqb_eq. apply Nat.eqb_eq in H6. unfold Strings.byte in H6.
    rewrite <- (ascii_nat_embedding a5), H6. reflexivity.
  - apply Ascii.eqb_eq. apply Nat.eqb_eq in H7. unfold Strings.byte in H7.
    rewrite <- (ascii_nat_embedding a6), H7. reflexivity.
Qed.

Lemma kksScan_found (s : list ascii) (prevWord : bool) :
  Patterns.kksScan prevWord s <> "" ->
  exists pre s',
    s = pre ++ s' /\ Patterns.kksHere s' = true /\
    Patterns.kksScan prevWord s = string_of_list_ascii (firstn 11 s').
Proof.
  revert prevWord. induction s as [| c rest IH]; intros prevWord Hne.
  - now contradiction Hne.
  - cbn [Patterns.kksScan] in *.
    destruct (negb prevWord && Patterns.kksHere (c :: rest)) eqn:Hhere.
    + apply andb_true_iff in Hhere. destruct Hhere as [_ Hhere].
      exists [], (c :: rest). now repeat split.
    + destruct (IH _ Hne) as [pre [s' [Hs [Hh Hr]]]].
      exists (c :: pre), s'. subst rest. now repeat split.
Qed.

Lemma kksFindString_shape (str : string) :
  Patterns.kksFindString str <> "" ->
  kksShaped (Patterns.kksFindString str) /\ occursIn (Patterns.kksFindString str) str.
Proof.
  unfold Patterns.kksFindString. intros Hne.
  destruct (kksScan_found _ _ Hne) as [pre [s' [Hs [Hh Hr]]]].
  rewrite Hr. split.
  - unfold kksShaped. rewrite list_ascii_of_string_of_list_ascii. now apply kksHere_shape.
  - exists (string_of_list_ascii pre), (string_of_list_ascii (skipn 11 s')).
    rewrite <- !string_of_list_ascii_app, firstn_skipn, <- Hs.
    now rewrite string_of_list_ascii_of_string.
Qed.

Lemma Slice_nil {A : Type} (less : A -> A -> bool) (data : list A) :
  Sort.Slice less data = [] -> data = [].
Proof.
  intros Hnil. destruct data as [| x rest]; [reflexivity |].
  assert (Hin : In x (Sort.Slice less (x :: rest))) by (apply Slice_In; now left).
  rewrite Hnil in Hin. destruct Hin.
Qed.

(** X9.  When the candidate loop of the drawing-number locator finds a
    candidate, the drawing number returned is a KKS code - a digit, three
    capital letters, two digits, BR, three digits - that occurs in the
    content of a fragment of the drawing.  [upper] stands for
    [strings.ToUpper] of the Go library in the anchor search: the statement
    holds for every case mapping, so whichever anchor the program finds. *)
Theorem findDrawingNo_kks_shape (upper : string -> string) (textEntities : list TextEntity) :
  FieldLocator.collectCandidates (FieldLocator.findErectionWith upper textEntities)
    textEntities <> [] ->
  kksShaped (FieldLocator.findDrawingNoWith upper textEntities) /\
  exists entity,
    In entity textEntities /\
    occursIn (FieldLocator.findDrawingNoWith upper textEntities) (Content entity).
Proof.
  intros Hne. unfold FieldLocator.findDrawingNoWith, FieldLocator.sortCandidates.
  destruct (Sort.Slice _ _) as [| selected rest] eqn:Hsort.
  - apply Slice_nil in Hsort. now contradiction Hne.
  - assert (Hin : In selected
                    (FieldLocator.collectCandidates
                       (FieldLocator.findErectionWith upper textEntities) textEntities)).
    { apply (Slice_In (fun a b => (FieldLocator.absY a <? FieldLocator.absY b)%float)).
      rewrite Hsort. now left. }
    apply collectCandidates_In in Hin. destruct Hin as [entity [Hentity Hcand]].
    apply candidateOf_Some in Hcand. destruct Hcand as [Hmatch [-> _]].
    cbn [FieldLocator.value].
    destruct (kksFindString_shape _ Hmatch) as [Hshape Hocc].
    split; [exact Hshape |]. now exists entity.
Qed.

Lemma findDrawingNo_kks_shape_witness :
  kksShaped (FieldLocator.findDrawingNoWith Strings.ToUpper titleBlockDrawing) /\
  exists entity,
    In entity titleBlockDrawing /\
    occursIn (FieldLocator.findDrawingNoWith Strings.ToUpper titleBlockDrawing)
             (Content entity).
Proof.
  apply findDrawingNo_kks_shape. vm_compute. discriminate.
Defined.

(** ** The piece-number pattern *)

Lemma byte_eqb (c : ascii) (n : nat) :
  (Strings.byte c =? n)%nat = true -> c = ascii_of_nat n.
Proof.
  intros H. apply Nat.eqb_eq in H. unfold Strings.byte in H.
  now rewrite <- (ascii_nat_embedding c), H.
Qed.

Lemma digitsThenClose_iff (s : list ascii) (seen : bool) :
  Patterns.digitsThenClose seen s = true <->
  exists digits,
    (seen = true \/ digits <> []) /\
    Forall (fun c => Patterns.isDigit c = true) digits /\
    s = digits ++ [">"%char].
Proof.
  revert seen. induction s as [| c rest IH]; intros seen.
  - cbn. split; [discriminate |]. intros [digits [_ [_ H]]]. destruct digits; discriminate.
  - destruct rest as [| c' rest'].
    + cbn [Patterns.digitsThenClose]. rewrite andb_true_iff. split.
      * intros [-> Hc]. exists []. repeat split; [now left | constructor |].
        apply byte_eqb in Hc. now subst c.
      * intros [digits [Hseen [_ Heq]]].
        destruct digits as [| d [| d' ds]]; try discriminate.
        injection Heq as ->. destruct Hseen as [-> | Hne]; [now split | now contradiction Hne].
    + change (Patterns.digitsThenClose seen (c :: c' :: rest'))
        with (Patterns.isDigit c && Patterns.digitsThenClose true (c' :: rest')).
      rewrite andb_true_iff, IH. split.
      * intros [Hc [digits [_ [Hd Heq]]]]. exists (c :: digits).
        repeat split; [right; discriminate | now constructor | now rewrite Heq].
      * intros [digits [_ [Hd Heq]]].
        destruct digits as [| d ds]; [discriminate |].
        injection Heq as -> Heq. inversion Hd as [| ? ? Hd1 Hd2]; subst.
        split; [assumption |]. exists ds. repeat split; [now left | assumption | assumption].
Qed.

(** X10.  [isPieceNumber] accepts exactly the texts that, with surrounding
    white space removed, are an opening angle bracket, one or more decimal
    digits and a closing angle bracket. *)
Theorem isPieceNumber_iff (text : string) :
  CutLength.isPieceNumber text = true <->
  exists digits,
    digits <> [] /\
    Forall (fun c => Patterns.isDigit c = true) digits /\
    Strings.TrimSpace text = string_of_list_ascii ("<"%char :: digits ++ [">"%char]).
Proof.
  unfold CutLength.isPieceNumber, Patterns.pieceNumberMatch.
  set (t := Strings.TrimSpace text).
  assert (Ht : t = string_of_list_ascii (list_ascii_of_string t))
    by (now rewrite string_of_list_ascii_of_string).
  destruct (list_ascii_of_string t) as [| c rest].
  - split; [discriminate |]. intros [digits [_ [_ H]]]. rewrite Ht in H. discriminate.
  - rewrite andb_true_iff, digitsThenClose_iff. split.
    + intros [Hc [digits [[Hf | Hne] [Hd ->]]]]; [discriminate |].
      apply byte_eqb in Hc. subst c. exists digits. repeat split; assumption.
    + intros [digits [Hne [Hd Heq]]]. rewrite Ht in Heq.
      apply (f_equal list_ascii_of_string) in Heq.
      rewrite !list_ascii_of_string_of_list_ascii in Heq.
      injection Heq as -> ->. split; [reflexivity |].
      exists digits. repeat split; [now right | assumption].
Qed.

(** ** Files the post-processing pass leaves alone *)

Lemma columnIndex_missing (name : string) (header : Row) (i : nat) :
  (forall col, In col header -> Strings.TrimSpace col <> name) ->
  BomUtils.columnIndex name i header = None.
Proof.
  revert i. induction header as [| col rest IH]; intros i Hno; cbn [BomUtils.columnIndex].
  - reflexivity.
  - rewrite IH by (intros c Hc; apply Hno; now right).
    destruct (String.eqb (Strings.TrimSpace col) name) eqn:He; [| reflexivity].
    apply String.eqb_eq in He. exfalso. apply (Hno col); [now left | exact He].
Qed.

(** X11.  A materials file whose header lacks one of the columns PT NO,
    N.S., QTY and WEIGHT (compared after trimming white space) is never
    rewritten by [fixMissingNSColumns]: its records stay as they are. *)
Theorem fixMissingNSColumns_missing_column (header : Row) (rows : list Row) (name : string) :
  In name ["PT NO"; "N.S."; "QTY"; "WEIGHT"] ->
  (forall col, In col header -> Strings.TrimSpace col <> name) ->
  (forall header' rows',
     BomUtils.fixMissingNSColumns (header :: rows) <> BomUtils.Rewritten header' rows') /\
  BomUtils.recordsAfter (header :: rows) = header :: rows.
Proof.
  intros Hname Hno.
  assert (Hidx : BomUtils.columnIndex name 0 header = None) by now apply columnIndex_missing.
  assert (Hnot : forall header' rows',
             BomUtils.fixMissingNSColumns (header :: rows) <> BomUtils.Rewritten header' rows').
  { intros header' rows'. unfold BomUtils.fixMissingNSColumns.
    destruct (negb (BomUtils.sameFieldCount (header :: rows))); [discriminate |].
    cbn [In] in Hname.
    destruct Hname as [<- | [<- | [<- | [<- | []]]]]; rewrite Hidx;
      repeat match goal with
             | |- context [match BomUtils.columnIndex ?n 0 header with _ => _ end] =>
                 destruct (BomUtils.columnIndex n 0 header)
             end; discriminate. }
  split; [exact Hnot |].
  unfold BomUtils.recordsAfter.
  destruct (BomUtils.fixMissingNSColumns (header :: rows)) as [| | header' rows'] eqn:Hfix;
    try reflexivity.
  now contradiction (Hnot header' rows').
Qed.

Lemma fixMissingNSColumns_missing_column_witness :
  BomUtils.recordsAfter
    [materialsTableHeader; ["1"; "PIPE SCH40"; "25"; "2M"; ""; "PIPE"]]
  = [materialsTableHeader; ["1"; "PIPE SCH40"; "25"; "2M"; ""; "PIPE"]].
Proof.
  apply (fixMissingNSColumns_missing_column materialsTableHeader
           [["1"; "PIPE SCH40"; "25"; "2M"; ""; "PIPE"]] "QTY").
  - cbn. tauto.
  - intros col Hcol.
    cbn in Hcol. destruct Hcol as [<- | [<- | [<- | [<- | [<- | [<- | []]]]]]];
      vm_compute; discriminate.
Defined.

(** ** The hand-written sort of [weld_integration.go] *)

Section ExchangeFacts.

Context {A : Type} (greater : A -> A -> bool).

Lemma sweep_perm (rest : list A) (cur m : A) (r : list A) :
  WeldIntegration.sweep greater cur rest = (m, r) -> Permutation (m :: r) (cur :: rest).
Proof.
  revert cur m r. induction rest as [| y rest IH]; intros cur m r; cbn [WeldIntegration.sweep].
  - intros [= <- <-]. reflexivity.
  - destruct (greater cur y).
    + destruct (WeldIntegration.sweep greater y rest) as [m' r'] eqn:Hs.
      intros [= <- <-]. apply IH in Hs.
      apply perm_trans with (cur :: m' :: r'); [apply perm_swap | now apply perm_skip].
    + destruct (WeldIntegration.sweep greater cur rest) as [m' r'] eqn:Hs.
      intros [= <- <-]. apply IH in Hs.
      apply perm_trans with (y :: m' :: r'); [apply perm_swap |].
      apply perm_trans with (y :: cur :: rest); [now apply perm_skip | apply perm_swap].
Qed.

Lemma exchangeLoop_perm (n : nat) (c : list A) :
  Permutation (WeldIntegration.exchangeLoop greater n c) c.
Proof.
  revert c. induction n as [| n IH]; intros c; cbn [WeldIntegration.exchangeLoop].
  - reflexivity.
  - destruct c as [| x rest]; [reflexivity |].
    destruct (WeldIntegration.sweep greater x rest) as [m r] eqn:Hs.
    rewrite IH. now apply sweep_perm.
Qed.

Lemma exchangeSort_perm (c : list A) :
  Permutation (WeldIntegration.exchangeSort greater c) c.
Proof. apply exchangeLoop_perm. Qed.

(** [R] is the order the comparison decides on the elements that satisfy
    [P] (for floats: the elements that are not NaN). *)
Variable P : A -> Prop.
Variable R : A -> A -> Prop.
Hypothesis R_of_not_greater : forall a b, P a -> P b -> greater a b = false -> R a b.
Hypothesis R_of_greater : forall a b, greater a b = true -> R b a.
Hypothesis R_trans : forall a b c, R a b -> R b c -> R a c.
Hypothesis R_refl : forall a, P a -> R a a.

Lemma sweep_least (rest : list A) (cur m : A) (r : list A) :
  Forall P (cur :: rest) ->
  WeldIntegration.sweep greater cur rest = (m, r) ->
  forall z, In z (cur :: rest) -> R m z.
Proof.
  revert cur m r. induction rest as [| y rest IH]; intros cur m r HP;
    cbn [WeldIntegration.sweep].
  - intros [= <- <-] z [<- | []]. apply R_refl. now inversion HP.
  - inversion HP as [| ? ? Pcur HP']; subst. inversion HP' as [| ? ? Py HPrest]; subst.
    destruct (greater cur y) eqn:Hg.
    + destruct (WeldIntegration.sweep greater y rest) as [m' r'] eqn:Hs.
      intros [= <- <-] z Hz.
      assert (Hy : R m' y) by (apply (IH y m' r' HP' Hs); now left).
      destruct Hz as [<- | Hz].
      * apply (R_trans _ y); [exact Hy | now apply R_of_greater].
      * now apply (IH y m' r' HP' Hs).
    + destruct (WeldIntegration.sweep greater cur rest) as [m' r'] eqn:Hs.
      intros [= <- <-] z Hz.
      assert (HP'' : Forall P (cur :: rest)) by now constructor.
      assert (Hc : R m' cur) by (apply (IH cur m' r' HP'' Hs); now left).
      destruct Hz as [<- | [<- | Hz]].
      * exact Hc.
      * apply (R_trans _ cur); [exact Hc | now apply R_of_not_greater].
      * apply (IH cur m' r' HP'' Hs). now right.
Qed.

Lemma exchangeLoop_sorted (n : nat) (c : list A) :
  (List.length c <= n)%nat -> Forall P c ->
  StronglySorted R (WeldIntegration.exchangeLoop greater n c).
Proof.
  revert c. induction n as [| n IH]; intros c Hlen HP; cbn [WeldIntegration.exchangeLoop].
  - destruct c; [constructor | cbn in Hlen; lia].
  - destruct c as [| x rest]; [constructor |].
    destruct (WeldIntegration.sweep greater x rest) as [m r] eqn:Hs.
    pose proof (sweep_perm _ _ _ _ Hs) as Hperm.
    assert (HPmr : Forall P (m :: r)).
    { apply Forall_forall. intros z Hz. rewrite Forall_forall in HP. apply HP.
      now apply (Permutation_in _ Hperm). }
    inversion HPmr as [| ? ? Pm HPr]; subst.
    constructor.
    + apply IH; [| exact HPr].
      apply Permutation_length in Hperm. cbn [List.length] in *. lia.
    + apply Forall_forall. intros z Hz.
      apply (sweep_least _ _ _ _ HP Hs).
      apply (Permutation_in _ Hperm). right.
      now apply (Permutation_in _ (exchangeLoop_perm n r)).
Qed.

Lemma exchangeSort_sorted (c : list A) :
  Forall P c -> StronglySorted R (WeldIntegration.exchangeSort greater c).
Proof. intros HP. now apply exchangeLoop_sorted. Qed.

Lemma exchangeSort_head_least (c : list A) (selected : A) (others : list A) :
  Forall P c ->
  WeldIntegration.exchangeSort greater c = selected :: others ->
  forall z, In z c -> R selected z.
Proof.
  intros HP Hsort z Hz.
  pose proof (exchangeSort_sorted c HP) as Hsorted. rewrite Hsort in Hsorted.
  pose proof (exchangeSort_perm c) as Hperm. rewrite Hsort in Hperm.
  apply Permutation_sym in Hperm. apply (Permutation_in _ Hperm) in Hz.
  inversion Hsorted as [| ? ? _ Hall]; subst. rewrite Forall_forall in Hall.
  destruct Hz as [<- | Hz]; [| now apply Hall].
  apply R_refl. rewrite Forall_forall in HP. apply HP.
  apply (Permutation_in _ (exchangeSort_perm c)). rewrite Hsort. now left.
Qed.

End ExchangeFacts.

(** X12.  The drawing-number locator of the integrated tool,
    [findDrawingNoFromEntities], builds the candidates of [findDrawingNo] and
    returns the match of a candidate of least absolute Y (when an anchor
    exists or no candidate has a NaN coordinate); without a candidate it
    returns the empty string: it has no label-adjacency fallback.  [upper]
    stands for [strings.ToUpper] of the Go library in the anchor search: the
    statement holds for every case mapping. *)
Theorem findDrawingNoFromEntities_selection (upper : string -> string)
  (entities : list TextEntity) :
  let erection := FieldLocator.findErectionWith upper entities in
  let candidates := FieldLocator.collectCandidates erection entities in
  (candidates = [] -> WeldIntegration.findDrawingNoFromEntitiesWith upper entities = "") /\
  (candidates <> [] ->
     exists c, In c candidates /\
       WeldIntegration.findDrawingNoFromEntitiesWith upper entities = FieldLocator.value c /\
       ((erection <> None \/
         forall c', In c' candidates -> notNaN (FieldLocator.candY c')) ->
        forall c', In c' candidates ->
          (FieldLocator.absY c <=? FieldLocator.absY c')%float = true)).
Proof.
  cbv zeta. unfold WeldIntegration.findDrawingNoFromEntitiesWith.
  set (erection := FieldLocator.findErectionWith upper entities).
  set (candidates := FieldLocator.collectCandidates erection entities).
  set (greater := fun a b => (FieldLocator.absY b <? FieldLocator.absY a)%float).
  split.
  - intros ->. reflexivity.
  - intros Hsome.
    destruct candidates as [| c0 others] eqn:Hcands; [now contradiction Hsome |].
    rewrite <- Hcands in *.
    pose proof (exchangeSort_perm greater candidates) as Hperm.
    destruct (WeldIntegration.exchangeSort greater candidates) as [| c rest] eqn:Hsorted.
    + apply Permutation_nil in Hperm. congruence.
    + exists c. split; [| split; [reflexivity |]].
      * apply (Permutation_in _ Hperm). now left.
      * intros Hvalid.
        assert (HP : Forall (fun c' => notNaN (FieldLocator.absY c')) candidates).
        { apply Forall_forall. intros c' Hc'.
          pose proof Hc' as Hc''. subst candidates.
          apply collectCandidates_In in Hc''. destruct Hc'' as (entity & _ & Hcand).
          apply candidateOf_Some in Hcand. destruct Hcand as (_ & -> & Hregion).
          cbn [FieldLocator.absY]. apply abs_notNaN.
          destruct Hvalid as [Hanchor | Hnan].
          - destruct erection as [[erectionX erectionY] |]; [| now contradiction Hanchor].
            destruct Hregion as [_ Hy]. now apply float_leb_notNaN in Hy.
          - apply (Hnan _ Hc'). }
        apply (exchangeSort_head_least greater
                 (fun c' => notNaN (FieldLocator.absY c'))
                 (fun a b => (FieldLocator.absY a <=? FieldLocator.absY b)%float = true))
          with (others := rest) (c := candidates); try assumption.
        -- intros a b Pa Pb Hg. unfold greater in Hg. now apply float_ltb_false_leb.
        -- intros a b Hg. unfold greater in Hg. now apply float_ltb_leb.
        -- intros a b c1. apply float_leb_trans.
        -- intros a Pa. now apply float_leb_refl.
Qed.

Lemma findDrawingNoFromEntities_selection_witness :
  exists c,
    In c (FieldLocator.collectCandidates
            (FieldLocator.findErectionWith Strings.ToUpper titleBlockDrawing)
            titleBlockDrawing) /\
    WeldIntegration.findDrawingNoFromEntitiesWith Strings.ToUpper titleBlockDrawing
      = FieldLocator.value c /\
    forall c', In c' (FieldLocator.collectCandidates
                        (FieldLocator.findErectionWith Strings.ToUpper titleBlockDrawing)
            titleBlockDrawing) ->
      (FieldLocator.absY c <=? FieldLocator.absY c')%float = true.
Proof.
  destruct (proj2 (findDrawingNoFromEntities_selection Strings.ToUpper titleBlockDrawing))
    as [c [Hin [Hval Hleast]]].
  - vm_compute. discriminate.
  - exists c. split; [exact Hin |]. split; [exact Hval |].
    apply Hleast. left. vm_compute. discriminate.
Defined.

Example drawing_number_locators :
  WeldIntegration.findDrawingNoFromEntities titleBlockDrawing = "1ABC23BR456" /\
  FieldLocator.findDrawingNo labelledDrawing = "ISO-17" /\
  WeldIntegration.findDrawingNoFromEntities labelledDrawing = "".
Proof. repeat split; vm_compute; reflexivity. Qed.

(* ================================================================== *)
(** * Properties of the spatial analyzer *)

(** ** The bounding box *)

Lemma min_step (m x : float) :
  notNaN m -> notNaN x ->
  let m' := if (x <? m)%float then x else m in
  notNaN m' /\ (m' <=? x)%float = true /\
  forall z, (m <=? z)%float = true -> (m' <=? z)%float = true.
Proof.
  intros Hm Hx. cbn zeta. destruct (x <? m)%float eqn:Hlt.
  - split; [exact Hx |]. split; [now apply float_leb_refl |].
    intros z Hz. apply float_leb_trans with m; [now apply float_ltb_leb | exact Hz].
  - split; [exact Hm |]. split; [now apply float_ltb_false_leb |]. auto.
Qed.

Lemma max_step (m x : float) :
  notNaN m -> notNaN x ->
  let m' := if (m <? x)%float then x else m in
  notNaN m' /\ (x <=? m')%float = true /\
  forall z, (z <=? m)%float = true -> (z <=? m')%float = true.
Proof.
  intros Hm Hx. cbn zeta. destruct (m <? x)%float eqn:Hlt.
  - split; [exact Hx |]. split; [now apply float_leb_refl |].
    intros z Hz. apply float_leb_trans with m; [exact Hz | now apply float_ltb_leb].
  - split; [exact Hm |]. split; [now apply float_ltb_false_leb |]. auto.
Qed.

Lemma growBox_encloses (bbox : Spatial.BoundingBox) (entity : TextEntity) :
  numericBox bbox -> positioned entity ->
  numericBox (Spatial.growBox bbox entity) /\
  inBox (Spatial.growBox bbox entity) entity /\
  forall e, inBox bbox e -> inBox (Spatial.growBox bbox entity) e.
Proof.
  intros (HminX & HmaxX & HminY & HmaxY) [Hx Hy].
  destruct (min_step _ _ HminX Hx) as (Ha1 & Ha2 & Ha3).
  destruct (max_step _ _ HmaxX Hx) as (Hb1 & Hb2 & Hb3).
  destruct (min_step _ _ HminY Hy) as (Hc1 & Hc2 & Hc3).
  destruct (max_step _ _ HmaxY Hy) as (Hd1 & Hd2 & Hd3).
  unfold Spatial.growBox, numericBox, inBox.
  cbn [Spatial.MinX Spatial.MaxX Spatial.MinY Spatial.MaxY].
  repeat split; try assumption.
  - now apply Ha3.
  - now apply Hb3.
  - now apply Hc3.
  - now apply Hd3.
Qed.

Lemma fold_growBox_encloses (entities : list TextEntity) (bbox : Spatial.BoundingBox) :
  numericBox bbox -> Forall positioned entities ->
  let final := fold_left Spatial.growBox entities bbox in
  numericBox final /\
  (forall e, In e entities -> inBox final e) /\
  (forall e, inBox bbox e -> inBox final e).
Proof.
  revert bbox. induction entities as [| entity rest IH]; intros bbox Hbox Hpos; cbn [fold_left].
  - split; [exact Hbox |]. split; [intros e [] | auto].
  - inversion Hpos as [| ? ? He Hrest]; subst.
    destruct (growBox_encloses bbox entity Hbox He) as (Hbox' & Hin & Hkeep).
    destruct (IH _ Hbox' Hrest) as (Hfinal & Hall & Hmono).
    split; [exact Hfinal |]. split; [| auto].
    intros e [<- | He']; [now apply Hmono | now apply Hall].
Qed.

Lemma filter_all {A : Type} (f : A -> bool) (l : list A) :
  (forall x, In x l -> f x = true) -> filter f l = l.
Proof.
  induction l as [| x l IH]; intros Hall; cbn [filter]; [reflexivity |].
  rewrite (Hall x) by now left. f_equal. apply IH. intros y Hy. apply Hall. now right.
Qed.

(** X13.  When the coordinates of all entities are numbers, the bounding
    box encloses every entity, borders included, so that a range query with
    the corners of the box returns all entities, in their order. *)
Theorem GetBoundingBox_encloses (entities : list TextEntity) :
  Forall positioned entities ->
  let bbox := Spatial.GetBoundingBox entities in
  (forall entity, In entity entities -> inBox bbox entity) /\
  Spatial.FindEntitiesInRange entities
    (Spatial.MinX bbox) (Spatial.MinY bbox) (Spatial.MaxX bbox) (Spatial.MaxY bbox)
  = entities.
Proof.
  intros Hpos. cbn zeta.
  assert (Hall : forall entity, In entity entities ->
                                 inBox (Spatial.GetBoundingBox entities) entity).
  { unfold Spatial.GetBoundingBox. destruct entities as [| first rest]; [intros e [] |].
    inversion Hpos as [| ? ? [Hx Hy] _]; subst.
    apply fold_growBox_encloses; [| exact Hpos].
    unfold numericBox. cbn. auto. }
  split; [exact Hall |].
  unfold Spatial.FindEntitiesInRange. apply filter_all.
  intros entity Hin. destruct (Hall entity Hin) as (H1 & H2 & H3 & H4).
  now rewrite H1, H2, H3, H4.
Qed.

Lemma GetBoundingBox_encloses_witness :
  Spatial.FindEntitiesInRange analyzerEntities (-10) (-10) 20 20 = analyzerEntities.
Proof.
  refine (proj2 (GetBoundingBox_encloses analyzerEntities _)).
  repeat constructor.
Defined.

(** The values the unit test of the analyzer expects. *)
Example analyzer_unit_test :
  Spatial.GetBoundingBox analyzerEntities = Spatial.mkBoundingBox (-10) (-10) 20 20 /\
  map Content (Spatial.FindEntitiesInRange analyzerEntities 5 5 15 15) = ["B"] /\
  List.length (Spatial.FindEntitiesInRadius analyzerEntities 0 0 15) = 3%nat /\
  List.length (Spatial.FindNearestEntities analyzerEntities 0 0 2) = 2%nat /\
  map (fun r => Content (Spatial.Entity r))
      (firstn 1 (Spatial.FindNearestEntities analyzerEntities 0 0 2)) = ["A"] /\
  List.length (Spatial.GetQuadrant analyzerEntities 0 0 1) = 3%nat /\
  Spatial.Distance 0 0 3 4 = 5%float /\
  Spatial.containsText "Hello World" "WORLD" = true /\
  Spatial.containsText "Hello" "xyz" = false /\
  Spatial.toLower "HELLO" = "hello" /\
  Spatial.stringContains "testing" "test" = true.
Proof. repeat split; vm_compute; reflexivity. Qed.

(** ** The radius query *)

Lemma mul_opp_opp (r : float) : (- r * - r)%float = (r * r)%float.
Proof.
  apply FloatAxioms.Prim2SF_inj.
  rewrite !FloatAxioms.mul_spec, !FloatAxioms.opp_spec.
  destruct (Prim2SF r) as [s | s | | s m e]; try destruct s; reflexivity.
Qed.

(** X14.  The radius query compares squared distances with the squared
    radius: a negative radius is not rejected and selects exactly what its
    absolute value selects. *)
Theorem FindEntitiesInRadius_negative_radius
  (entities : list TextEntity) (centerX centerY radius : float) :
  Spatial.FindEntitiesInRadius entities centerX centerY (- radius)
  = Spatial.FindEntitiesInRadius entities centerX centerY radius.
Proof.
  unfold Spatial.FindEntitiesInRadius. now rewrite mul_opp_opp.
Qed.

(** ** The quadrants *)

Lemma float_leb_total (x y : float) :
  notNaN x -> notNaN y -> (x <=? y)%float = true \/ (y <=? x)%float = true.
Proof.
  intros Hx Hy. destruct (x <? y)%float eqn:Hlt.
  - left. now apply float_ltb_leb.
  - right. now apply float_ltb_false_leb.
Qed.

(** X15.  The four quadrants include their borders and together cover the
    drawing: an entity whose offsets from the reference point are numbers is
    returned for at least one quadrant from 1 to 4; for any other quadrant
    number the result is empty. *)
Theorem GetQuadrant_cover (entities : list TextEntity) (refX refY : float)
  (entity : TextEntity) :
  In entity entities ->
  notNaN (X entity - refX) -> notNaN (Y entity - refY) ->
  (exists quadrant, (1 <= quadrant <= 4)%Z /\
     In entity (Spatial.GetQuadrant entities refX refY quadrant)) /\
  forall quadrant, (quadrant < 1 \/ 4 < quadrant)%Z ->
    Spatial.GetQuadrant entities refX refY quadrant = [].
Proof.
  intros Hin Hdx Hdy. split.
  - assert (H0 : notNaN 0%float) by reflexivity.
    destruct (float_leb_total 0 _ H0 Hdx) as [Hx | Hx];
      destruct (float_leb_total 0 _ H0 Hdy) as [Hy | Hy].
    + exists 1%Z. split; [lia |]. apply filter_In. split; [exact Hin |]. cbn zeta.
      now rewrite Hx, Hy.
    + exists 4%Z. split; [lia |]. apply filter_In. split; [exact Hin |]. cbn zeta.
      now rewrite Hx, Hy.
    + exists 2%Z. split; [lia |]. apply filter_In. split; [exact Hin |]. cbn zeta.
      now rewrite Hx, Hy.
    + exists 3%Z. split; [lia |]. apply filter_In. split; [exact Hin |]. cbn zeta.
      now rewrite Hx, Hy.
  - intros quadrant Hq. unfold Spatial.GetQuadrant.
    assert (Hnone : forall (f : TextEntity -> bool) l,
               (forall e, f e = false) -> filter f l = []).
    { intros f l Hf. induction l as [| e rest IH]; cbn [filter]; [reflexivity |].
      now rewrite Hf. }
    apply Hnone. intros e. cbn zeta.
    destruct quadrant as [| p | p]; try reflexivity.
    destruct p as [q | q |];
      [destruct q as [? | ? |]
      | destruct q as [? | r |]; [| destruct r as [? | ? |] |]
      |]; try reflexivity; lia.
Qed.

Lemma GetQuadrant_cover_witness :
  exists quadrant, (1 <= quadrant <= 4)%Z /\
    In (mkTextEntity "D" (-10) (-10) 0 "TEXT" "")
       (Spatial.GetQuadrant analyzerEntities 0 0 quadrant).
Proof.
  refine (proj1 (GetQuadrant_cover analyzerEntities 0 0
                   (mkTextEntity "D" (-10) (-10) 0 "TEXT" "") _ _ _)).
  - cbn. tauto.
  - reflexivity.
  - reflexivity.
Defined.

(** ** [sort.Slice] returns a sorted permutation *)

Section SliceSorted.

Context {A : Type} (less : A -> A -> bool).

Lemma bubble_perm (x : A) (revPrefix : list A) :
  Permutation (Sort.bubble less x revPrefix) (x :: revPrefix).
Proof.
  induction revPrefix as [| y rest IH]; cbn [Sort.bubble]; [reflexivity |].
  destruct (less x y); [| reflexivity].
  apply perm_trans with (y :: x :: rest); [now apply perm_skip | apply perm_swap].
Qed.

Lemma fold_bubble_perm (data acc : list A) :
  Permutation (fold_left (fun acc x => Sort.bubble less x acc) data acc) (rev data ++ acc).
Proof.
  revert acc. induction data as [| x data IH]; intros acc; cbn [fold_left rev].
  - reflexivity.
  - rewrite IH, <- app_assoc. cbn [app].
    apply Permutation_app_head. apply bubble_perm.
Qed.

Lemma Slice_perm (data : list A) : Permutation (Sort.Slice less data) data.
Proof.
  unfold Sort.Slice.
  apply perm_trans with (fold_left (fun acc x => Sort.bubble less x acc) data []);
    [symmetry; apply Permutation_rev |].
  apply perm_trans with (rev data ++ []); [apply fold_bubble_perm |].
  rewrite app_nil_r. symmetry. apply Permutation_rev.
Qed.

Lemma Slice_length (data : list A) : List.length (Sort.Slice less data) = List.length data.
Proof. apply Permutation_length, Slice_perm. Qed.

Variable P : A -> Prop.
Variable R : A -> A -> Prop.
Hypothesis R_of_not_less : forall a b, P a -> P b -> less a b = false -> R b a.
Hypothesis R_of_less : forall a b, less a b = true -> R a b.
Hypothesis R_trans : forall a b c, R a b -> R b c -> R a c.

Lemma StronglySorted_app (l1 l2 : list A) :
  StronglySorted R l1 -> StronglySorted R l2 ->
  (forall a b, In a l1 -> In b l2 -> R a b) ->
  StronglySorted R (l1 ++ l2).
Proof.
  induction 1 as [| x l1 Hs IH Hx]; intros H2 Hcross; cbn [app]; [exact H2 |].
  constructor.
  - apply IH; [exact H2 |]. intros a b Ha Hb. apply Hcross; [now right | exact Hb].
  - apply Forall_app. split; [exact Hx |].
    apply Forall_forall. intros b Hb. apply Hcross; [now left | exact Hb].
Qed.

Lemma StronglySorted_rev (l : list A) :
  StronglySorted (fun a b => R b a) l -> StronglySorted R (rev l).
Proof.
  induction 1 as [| x l Hs IH Hx]; cbn [rev]; [constructor |].
  apply StronglySorted_app; [exact IH | repeat constructor |].
  intros a b Ha [<- | []]. rewrite Forall_forall in Hx. apply Hx. now apply in_rev.
Qed.

Lemma StronglySorted_split (l1 l2 : list A) :
  StronglySorted R (l1 ++ l2) ->
  StronglySorted R l1 /\ forall a b, In a l1 -> In b l2 -> R a b.
Proof.
  induction l1 as [| x l1 IH]; cbn [app]; intros Hs.
  - split; [constructor | intros a b []].
  - inversion Hs as [| ? ? Hs' Hx]; subst. destruct (IH Hs') as [H1 Hcross].
    apply Forall_app in Hx. destruct Hx as [Hx1 Hx2].
    split; [now constructor |].
    intros a b [<- | Ha] Hb; [| now apply Hcross].
    rewrite Forall_forall in Hx2. now apply Hx2.
Qed.

Lemma Slice_sorted (data : list A) :
  Forall P data -> StronglySorted R (Sort.Slice less data).
Proof.
  intros HP. unfold Sort.Slice. apply StronglySorted_rev.
  apply (fold_bubble_sorted less P R R_of_not_less R_of_less R_trans);
    [exact HP | constructor | constructor].
Qed.

End SliceSorted.

(** ** The nearest entities *)

(** X16.  For a positive count [n] and distances that are numbers,
    [FindNearestEntities] returns min(n, number of entities) records in
    order of non-decreasing distance, and they are nearest: the records of
    all entities are the returned records together with others, none of
    which is nearer than a returned one. *)
Theorem FindNearestEntities_nearest (entities : list TextEntity) (x y : float) (n : Z) :
  (0 < n)%Z ->
  Forall (fun entity => notNaN (Spatial.Distance x y (X entity) (Y entity))) entities ->
  let result := Spatial.FindNearestEntities entities x y n in
  List.length result = Nat.min (Z.to_nat n) (List.length entities) /\
  StronglySorted
    (fun a b => (Spatial.EntityDistance a <=? Spatial.EntityDistance b)%float = true) result /\
  exists others,
    Permutation (result ++ others)
      (map (fun entity =>
              Spatial.mkEntityWithDistance entity (Spatial.Distance x y (X entity) (Y entity)))
           entities) /\
    forall r o, In r result -> In o others ->
      (Spatial.EntityDistance r <=? Spatial.EntityDistance o)%float = true.
Proof.
  intros Hn Hnum. cbn zeta. unfold Spatial.FindNearestEntities.
  replace (n <=? 0)%Z with false by (symmetry; apply Z.leb_gt; lia). cbn [orb].
  destruct (List.length entities =? 0)%nat eqn:Hlen.
  - apply Nat.eqb_eq in Hlen. destruct entities; [| discriminate]. cbn.
    split; [lia |]. split; [constructor |]. exists []. split; [constructor | intros r o []].
  - apply Nat.eqb_neq in Hlen.
    set (mk := fun entity =>
                 Spatial.mkEntityWithDistance entity
                   (Spatial.Distance x y (X entity) (Y entity))).
    set (less := fun a b => (Spatial.EntityDistance a <? Spatial.EntityDistance b)%float).
    set (sorted := Sort.Slice less (map mk entities)).
    assert (Hslen : List.length sorted = List.length entities)
      by (unfold sorted; now rewrite Slice_length, length_map).
    set (k := Z.to_nat (if (Z.of_nat (List.length sorted) <? n)%Z
                        then Z.of_nat (List.length sorted) else n)).
    assert (Hk : k = Nat.min (Z.to_nat n) (List.length entities)).
    { unfold k. rewrite Hslen.
      destruct (Z.of_nat (List.length entities) <? n)%Z eqn:Hlt.
      - apply Z.ltb_lt in Hlt. lia.
      - apply Z.ltb_ge in Hlt. lia. }
    assert (Hsorted : StronglySorted
              (fun a b => (Spatial.EntityDistance a <=? Spatial.EntityDistance b)%float = true)
              sorted).
    { apply (Slice_sorted less (fun r => notNaN (Spatial.EntityDistance r))).
      - intros a b Pa Pb Hl. now apply float_ltb_false_leb.
      - intros a b Hl. now apply float_ltb_leb.
      - intros a b c. apply float_leb_trans.
      - apply Forall_forall. intros r Hr. apply in_map_iff in Hr. destruct Hr as [e [<- He]].
        rewrite Forall_forall in Hnum. cbn. now apply Hnum. }
    rewrite <- (firstn_skipn k sorted) in Hsorted.
    apply StronglySorted_split in Hsorted. destruct Hsorted as [Hfirst Hcross].
    split; [rewrite length_firstn; lia |]. split; [exact Hfirst |].
    exists (skipn k sorted). split; [| exact Hcross].
    rewrite firstn_skipn. apply Slice_perm.
Qed.

Lemma FindNearestEntities_nearest_witness :
  List.length (Spatial.FindNearestEntities analyzerEntities 0 0 2) = 2%nat.
Proof.
  refine (proj1 (FindNearestEntities_nearest analyzerEntities 0 0 2 _ _)).
  - reflexivity.
  - repeat constructor.
Defined.

(** ** The substring search *)

Lemma substring_skip (pre s : string) (n : nat) :
  substring (String.length pre) n (pre ++ s) = substring 0 n s.
Proof.
  induction pre as [| c pre IH]; cbn [String.length String.append]; [reflexivity |].
  cbn [substring]. exact IH.
Qed.

Lemma substring_found (i : nat) (s sub : string) :
  (i + String.length sub <= String.length s)%nat ->
  substring i (String.length sub) s = sub ->
  exists pre post : string, String.length pre = i /\ s = (pre ++ sub ++ post)%string.
Proof.
  revert s. induction i as [| i IH]; intros s Hlen Heq.
  - exists "", (substring (String.length sub) (String.length s - String.length sub) s).
    split; [reflexivity |]. cbn [String.append].
    rewrite <- Heq at 1. apply substring_split. lia.
  - destruct s as [| c s]; [cbn in Hlen; lia |].
    cbn [substring] in Heq. cbn [String.length] in Hlen.
    destruct (IH s ltac:(lia) Heq) as [pre [post [Hpre ->]]].
    exists (String c pre), post. split; [cbn; lia | reflexivity].
Qed.

Lemma stringContains_occurs (s sub : string) :
  Spatial.stringContains s sub = true <-> occursIn sub s.
Proof.
  unfold Spatial.stringContains, occursIn.
  destruct (String.length sub =? 0)%nat eqn:H0.
  - apply Nat.eqb_eq in H0. destruct sub; [| discriminate].
    split; [| reflexivity]. intros _. now exists "", s.
  - apply Nat.eqb_neq in H0.
    destruct (String.length s <? String.length sub)%nat eqn:Hlt.
    + apply Nat.ltb_lt in Hlt. split; [discriminate |].
      intros [pre [post ->]]. rewrite !string_length_append in Hlt. lia.
    + apply Nat.ltb_ge in Hlt. rewrite existsb_exists. split.
      * intros [i [Hi Heq]]. apply in_seq in Hi. apply String.eqb_eq in Heq.
        destruct (substring_found i s sub ltac:(lia) Heq) as [pre [post [_ ->]]].
        now exists pre, post.
      * intros [pre [post ->]]. exists (String.length pre). split.
        -- apply in_seq. rewrite !string_length_append. lia.
        -- apply String.eqb_eq. rewrite substring_skip. apply substring_append_left.
Qed.

Lemma toLower_fold_case (s : string) :
  Spatial.toLower (Strings.ToUpper s) = Spatial.toLower s /\
  Spatial.toLower (Strings.ToLower s) = Spatial.toLower s.
Proof.
  unfold Spatial.toLower, Strings.ToUpper, Strings.ToLower.
  induction s as [| c s [IH1 IH2]]; cbn [Strings.mapBytes]; [now split |].
  rewrite IH1, IH2.
  assert (Hc : forall b : ascii,
             (let low b := if (65 <=? Strings.byte b)%nat && (Strings.byte b <=? 90)%nat
                           then ascii_of_nat (Strings.byte b + 32) else b in
              low (Strings.toUpperByte b) = low b /\ low (Strings.toLowerByte b) = low b)).
  { intros [[|] [|] [|] [|] [|] [|] [|] [|]]; vm_compute; split; reflexivity. }
  destruct (Hc c) as [Hu Hl]. cbn zeta in Hu, Hl. now rewrite Hu, Hl.
Qed.

Lemma mapBytes_length (f : ascii -> ascii) (s : string) :
  String.length (Strings.mapBytes f s) = String.length s.
Proof. induction s as [| c s IH]; cbn; [reflexivity | now rewrite IH]. Qed.

(** X17.  The hand-written search [stringContains] decides the substring
    relation; [containsText] holds exactly when both texts are non-empty and
    the lower-cased search text occurs in the lower-cased content, and it
    does not depend on the case of the ASCII letters of either argument. *)
Theorem containsText_substring (content searchText : string) :
  (Spatial.stringContains content searchText = true <-> occursIn searchText content) /\
  (Spatial.containsText content searchText = true <->
   content <> "" /\ searchText <> "" /\
   occursIn (Spatial.toLower searchText) (Spatial.toLower content)) /\
  Spatial.containsText (Strings.ToUpper content) searchText
    = Spatial.containsText content searchText /\
  Spatial.containsText content (Strings.ToUpper searchText)
    = Spatial.containsText content searchText.
Proof.
  split; [apply stringContains_occurs |]. split.
  - unfold Spatial.containsText, Spatial.stringContainsIgnoreCase.
    rewrite !andb_true_iff, stringContains_occurs.
    assert (Hpos : forall s : string, (0 <? String.length s)%nat = true <-> s <> "").
    { intros s. destruct s; cbn; split; congruence. }
    rewrite !Hpos. tauto.
  - unfold Spatial.containsText, Spatial.stringContainsIgnoreCase, Strings.ToUpper.
    rewrite !mapBytes_length.
    fold (Strings.ToUpper content). fold (Strings.ToUpper searchText).
    rewrite !(proj1 (toLower_fold_case _)). split; reflexivity.
Qed.

(** ** Entities near a text *)

Lemma nearStep_state (entities referenceEntities : list TextEntity) (maxDistance : float)
  (refEntity : TextEntity) (st : list Spatial.EntityWithDistance * list nat)
  (i : nat) (entity : TextEntity) :
  In refEntity referenceEntities -> nth_error entities i = Some entity ->
  nearState entities referenceEntities maxDistance st ->
  nearState entities referenceEntities maxDistance
    (Spatial.nearStep refEntity maxDistance st (i, entity)).
Proof.
  intros Href Hi (Hnodup & Hidx & Hrec).
  destruct st as [result seen]. cbn [fst snd] in *. unfold Spatial.nearStep.
  destruct (existsb (Nat.eqb i) seen) eqn:Hseen; [now repeat split |].
  destruct (Spatial.Distance (X refEntity) (Y refEntity) (X entity) (Y entity) <=? maxDistance)%float
    eqn:Hd; [| now repeat split].
  unfold nearState. cbn [fst snd]. split; [| split].
  - constructor; [| exact Hnodup]. intros Hin.
    rewrite <- not_true_iff_false in Hseen. apply Hseen.
    apply existsb_exists. exists i. split; [exact Hin | apply Nat.eqb_refl].
  - cbn [rev]. apply Forall2_app; [exact Hidx |].
    constructor; [exact Hi | constructor].
  - intros r Hr. apply in_app_or in Hr. destruct Hr as [Hr | [<- | []]]; [now apply Hrec |].
    exists refEntity. cbn [Spatial.Entity Spatial.EntityDistance]. now repeat split.
Qed.

Lemma fold_nearStep_state (entities referenceEntities : list TextEntity) (maxDistance : float)
  (refEntity : TextEntity) (indexed : list (nat * TextEntity))
  (st : list Spatial.EntityWithDistance * list nat) :
  In refEntity referenceEntities ->
  (forall i entity, In (i, entity) indexed -> nth_error entities i = Some entity) ->
  nearState entities referenceEntities maxDistance st ->
  nearState entities referenceEntities maxDistance
    (fold_left (Spatial.nearStep refEntity maxDistance) indexed st).
Proof.
  intros Href. revert st. induction indexed as [| [i entity] rest IH]; intros st Hidx Hst;
    cbn [fold_left]; [exact Hst |].
  apply IH; [intros j e Hj; apply Hidx; now right |].
  apply nearStep_state; [exact Href | apply Hidx; now left | exact Hst].
Qed.

Lemma indexed_from (entities : list TextEntity) (start i : nat) (entity : TextEntity) :
  In (i, entity) (combine (seq start (List.length entities)) entities) ->
  (start <= i)%nat /\ nth_error entities (i - start) = Some entity.
Proof.
  revert start. induction entities as [| e rest IH]; intros start; cbn [List.length seq combine].
  - intros [].
  - intros [Heq | Hin].
    + injection Heq as <- <-. split; [lia |]. now rewrite Nat.sub_diag.
    + destruct (IH (S start) Hin) as [Hle Hnth]. split; [lia |].
      replace (i - start)%nat with (S (i - S start)) by lia. exact Hnth.
Qed.

Lemma indexed_entities (entities : list TextEntity) (i : nat) (entity : TextEntity) :
  In (i, entity) (combine (seq 0 (List.length entities)) entities) ->
  nth_error entities i = Some entity.
Proof.
  intros Hin. destruct (indexed_from entities 0 i entity Hin) as [_ Hnth].
  now rewrite Nat.sub_0_r in Hnth.
Qed.

Lemma Forall2_combine {A B : Type} (P : A -> B -> Prop) (l1 : list A) (l2 : list B) :
  Forall2 P l1 l2 ->
  List.length l1 = List.length l2 /\ forall a b, In (a, b) (combine l1 l2) -> P a b.
Proof.
  induction 1 as [| a b l1 l2 Hab Hrest IH]; cbn [List.length combine].
  - split; [reflexivity | intros a b []].
  - destruct IH as [Hlen Hall]. split; [now rewrite Hlen |].
    intros a' b' [Heq | Hin]; [injection Heq as <- <-; exact Hab | now apply Hall].
Qed.

Lemma map_fst_combine {A B : Type} (l1 : list A) (l2 : list B) :
  List.length l1 = List.length l2 -> map fst (combine l1 l2) = l1.
Proof.
  revert l2. induction l1 as [| a l1 IH]; intros [| b l2] Hlen; cbn in *;
    try reflexivity; try discriminate.
  f_equal. apply IH. lia.
Qed.

Lemma map_snd_combine {A B : Type} (l1 : list A) (l2 : list B) :
  List.length l1 = List.length l2 -> map snd (combine l1 l2) = l2.
Proof.
  revert l2. induction l1 as [| a l1 IH]; intros [| b l2] Hlen; cbn in *;
    try reflexivity; try discriminate.
  f_equal. apply IH. lia.
Qed.

(** X18.  [FindEntitiesNearText] reports every entity at most once: its
    records can be matched with distinct positions of the entity list, each
    record holding the entity at its position.  Every record is an entity
    together with its distance, at most [maxDistance], from an entity whose
    content contains the search text. *)
Theorem FindEntitiesNearText_records (entities : list TextEntity) (searchText : string)
  (maxDistance : float) :
  let result := Spatial.FindEntitiesNearText entities searchText maxDistance in
  (exists reported : list (nat * Spatial.EntityWithDistance),
     NoDup (map fst reported) /\
     Permutation result (map snd reported) /\
     forall i r, In (i, r) reported -> nth_error entities i = Some (Spatial.Entity r)) /\
  forall r, In r result ->
    exists refEntity,
      In refEntity entities /\
      Spatial.containsText (Content refEntity) searchText = true /\
      In (Spatial.Entity r) entities /\
      Spatial.EntityDistance r
        = Spatial.Distance (X refEntity) (Y refEntity)
                           (X (Spatial.Entity r)) (Y (Spatial.Entity r)) /\
      (Spatial.EntityDistance r <=? maxDistance)%float = true.
Proof.
  cbn zeta. unfold Spatial.FindEntitiesNearText.
  set (referenceEntities :=
         filter (fun entity => Spatial.containsText (Content entity) searchText) entities).
  set (indexed := combine (seq 0 (List.length entities)) entities).
  assert (Hstate : forall refs st,
             (forall refEntity, In refEntity refs -> In refEntity referenceEntities) ->
             nearState entities referenceEntities maxDistance st ->
             nearState entities referenceEntities maxDistance
               (fold_left (fun st refEntity =>
                             fold_left (Spatial.nearStep refEntity maxDistance) indexed st)
                          refs st)).
  { induction refs as [| refEntity refs IH]; intros st Hrefs Hst; cbn [fold_left];
      [exact Hst |].
    apply IH; [intros r Hr; apply Hrefs; now right |].
    apply fold_nearStep_state; [apply Hrefs; now left | apply indexed_entities | exact Hst]. }
  assert (Hinit : nearState entities referenceEntities maxDistance ([], [])).
  { unfold nearState. cbn. repeat split; [constructor | constructor | intros r []]. }
  specialize (Hstate referenceEntities ([], []) (fun _ H => H) Hinit).
  destruct referenceEntities as [| ref0 refs] eqn:Hrefs.
  - split; [| intros r []].
    exists []. cbn. split; [constructor |]. split; [constructor | intros i r []].
  - rewrite <- Hrefs in *.
    destruct Hstate as (Hnodup & Hidx & Hrec).
    set (final := fold_left _ referenceEntities ([], [])) in *.
    apply Forall2_flip in Hidx. cbn beta in Hidx.
    destruct (Forall2_combine _ _ _ Hidx) as [Hlen Hpairs].
    split.
    + exists (combine (rev (snd final)) (fst final)).
      split; [| split].
      * rewrite map_fst_combine by exact Hlen. apply NoDup_rev. exact Hnodup.
      * rewrite map_snd_combine by exact Hlen. apply Slice_perm.
      * exact Hpairs.
    + intros r Hr. apply Slice_In in Hr.
      destruct (Hrec r Hr) as [refEntity (Href & Hd & Hle)].
      exists refEntity. unfold referenceEntities in Href. apply filter_In in Href.
      destruct Href as [Href Hct]. repeat split; try assumption.
      destruct (In_nth _ _ (Spatial.mkEntityWithDistance ref0 0%float) Hr) as (n & Hn & Hnth).
      assert (Hin : exists i, In (i, r) (combine (rev (snd final)) (fst final))).
      { exists (nth n (rev (snd final)) 0%nat).
        rewrite <- Hnth. rewrite <- (combine_nth _ _ n 0%nat _ Hlen).
        apply nth_In. rewrite length_combine, Hlen. lia. }
      destruct Hin as [i Hi]. apply Hpairs in Hi. now apply nth_error_In in Hi.
Qed.

(* ================================================================== *)
(** * Properties of the DXF parsers *)

Example parsers_on_fragments :
  MainGo.parseSequential textLines
    = [mkTextEntity "90° ELBOW" 12.5 7.25 2.5 "TEXT" "BOM"] /\
  WeldParsers.parseTextEntities textLines
    = [mkTextEntity "90\U+00B0 ELBOW" 12.5 7.25 2.5 "TEXT" "BOM"] /\
  map (fun seg => (Weld.X1 seg, Weld.Y1 seg, Weld.X2 seg, Weld.Y2 seg))
      (WeldParsers.parsePolylineSegmentsOptimized polylineLines)
    = [(0, 0, 4, 0)%float].
Proof. repeat split; vm_compute; reflexivity. Qed.

(** ** The text parser of the BOM tool *)

Lemma setField_type (code line : string) (e : TextEntity) :
  EntityType (MainGo.setField code line e) = EntityType e.
Proof.
  unfold MainGo.setField.
  repeat match goal with
         | |- context [if ?b then _ else _] => destruct b
         | |- context [match ?o with Some _ => _ | None => _ end] => destruct o
         end; reflexivity.
Qed.

Lemma flush_textLike (entities : list TextEntity) (e : TextEntity) (b : bool) :
  Forall textLike entities ->
  (b = true -> EntityType e = "TEXT" \/ EntityType e = "MTEXT") ->
  Forall textLike
    (if b && negb (String.eqb (Content e) "") then entities ++ [e] else entities).
Proof.
  intros Hall Htype. destruct b; cbn [andb]; [| exact Hall].
  destruct (String.eqb (Content e) "") eqn:He; cbn [negb]; [exact Hall |].
  apply Forall_app. split; [exact Hall |]. constructor; [| constructor].
  split; [now apply String.eqb_neq | now apply Htype].
Qed.

Lemma step_textLike (st : MainGo.state) (text : string) :
  let good (st : MainGo.state) :=
    Forall textLike (MainGo.entities st) /\
    (MainGo.inTextEntity st = true ->
     EntityType (MainGo.currentEntity st) = "TEXT" \/
     EntityType (MainGo.currentEntity st) = "MTEXT") in
  good st -> good (MainGo.step st text).
Proof.
  intros good [Hall Htype]. unfold MainGo.step.
  destruct (negb (MainGo.expectingValue st)).
  - destruct (String.eqb (Strings.TrimSpace text) "0").
    + split; cbn [MainGo.entities MainGo.inTextEntity]; [| discriminate].
      now apply flush_textLike.
    + destruct (MainGo.inTextEntity st) eqn:Hin; split; cbn; auto.
  - destruct (String.eqb (MainGo.lastGroupCode st) "" &&
              (String.eqb (Strings.TrimSpace text) "TEXT" ||
               String.eqb (Strings.TrimSpace text) "MTEXT")) eqn:Hstart.
    + split; cbn [MainGo.entities MainGo.inTextEntity MainGo.currentEntity]; [exact Hall |].
      intros _. cbn [MainGo.withEntityType EntityType].
      apply andb_true_iff in Hstart. destruct Hstart as [_ Hline].
      apply orb_true_iff in Hline. destruct Hline as [Hline | Hline];
        apply String.eqb_eq in Hline; auto.
    + destruct (MainGo.inTextEntity st) eqn:Hin; split;
        cbn [MainGo.entities MainGo.inTextEntity MainGo.currentEntity]; auto.
      intros _. rewrite setField_type. auto.
Qed.

(** X19.  Every entity the text parser of the BOM tool returns has a
    content that is not empty and the entity type TEXT or MTEXT. *)
Theorem parseSequential_textLike (lines : list string) :
  Forall textLike (MainGo.parseSequential lines).
Proof.
  unfold MainGo.parseSequential.
  set (good := fun st : MainGo.state =>
                 Forall textLike (MainGo.entities st) /\
                 (MainGo.inTextEntity st = true ->
                  EntityType (MainGo.currentEntity st) = "TEXT" \/
                  EntityType (MainGo.currentEntity st) = "MTEXT")).
  assert (Hfold : forall lines st, good st -> good (fold_left MainGo.step lines st)).
  { induction lines0 as [| text rest IH]; intros st Hst; cbn [fold_left]; [exact Hst |].
    apply IH. now apply step_textLike. }
  destruct (Hfold lines (MainGo.mkState [] MainGo.emptyEntity false false "")) as [Hall Htype].
  { split; [constructor | discriminate]. }
  now apply flush_textLike.
Qed.

(** ** Unicode escapes *)

Lemma encodeRune_length (codePoint : Z) : (List.length (MainGo.encodeRune codePoint) <= 3)%nat.
Proof.
  unfold MainGo.encodeRune.
  repeat match goal with |- context [if ?b then _ else _] => destruct b end; cbn; lia.
Qed.

Lemma escapeHere_Some (s : list ascii) (codePoint : Z) (rest : list ascii) :
  MainGo.escapeHere s = Some (codePoint, rest) ->
  exists b u p h1 h2 h3 h4,
    s = b :: u :: p :: h1 :: h2 :: h3 :: h4 :: rest /\ b = "\"%char.
Proof.
  unfold MainGo.escapeHere.
  do 7 (destruct s as [| ? s]; [discriminate |]).
  destruct (_ && _) eqn:Hm; [| discriminate].
  intros [= _ <-]. do 7 eexists. split; [reflexivity |].
  repeat rewrite andb_true_iff in Hm. destruct Hm as [[[[[[Hb _] _] _] _] _] _].
  now apply byte_eqb in Hb.
Qed.

Lemma decodeBytes_length (fuel : nat) (s : list ascii) :
  (List.length (MainGo.decodeBytes fuel s) <= List.length s)%nat.
Proof.
  revert s. induction fuel as [| fuel IH]; intros s; cbn [MainGo.decodeBytes]; [lia |].
  destruct s as [| c tl]; [cbn; lia |].
  destruct (MainGo.escapeHere (c :: tl)) as [[codePoint rest] |] eqn:Hesc.
  - apply escapeHere_Some in Hesc.
    destruct Hesc as (b & u & p & h1 & h2 & h3 & h4 & Hs & _). rewrite Hs.
    rewrite length_app. pose proof (encodeRune_length codePoint). specialize (IH rest).
    cbn [List.length]. lia.
  - cbn [List.length]. specialize (IH tl). lia.
Qed.

Lemma decodeBytes_plain (fuel : nat) (s : list ascii) :
  (List.length s <= fuel)%nat ->
  ~ In "\"%char s -> MainGo.decodeBytes fuel s = s.
Proof.
  revert s. induction fuel as [| fuel IH]; intros s Hfuel Hno; cbn [MainGo.decodeBytes];
    [reflexivity |].
  destruct s as [| c tl]; [reflexivity |].
  destruct (MainGo.escapeHere (c :: tl)) as [[codePoint rest] |] eqn:Hesc.
  - apply escapeHere_Some in Hesc.
    destruct Hesc as (b & u & p & h1 & h2 & h3 & h4 & Hs & Hb).
    exfalso. apply Hno. rewrite Hs, Hb. now left.
  - f_equal. apply IH; [cbn in Hfuel; lia |]. intros Hin. apply Hno. now right.
Qed.

Lemma decodeBytes_fuel (fuel1 fuel2 : nat) (s : list ascii) :
  (List.length s <= fuel1)%nat -> (List.length s <= fuel2)%nat ->
  MainGo.decodeBytes fuel1 s = MainGo.decodeBytes fuel2 s.
Proof.
  revert fuel2 s. induction fuel1 as [| fuel1 IH]; intros fuel2 s H1 H2.
  - destruct s; [| cbn in H1; lia]. destruct fuel2; reflexivity.
  - destruct fuel2 as [| fuel2].
    + destruct s; [reflexivity | cbn in H2; lia].
    + cbn [MainGo.decodeBytes]. destruct s as [| c tl]; [reflexivity |].
      destruct (MainGo.escapeHere (c :: tl)) as [[codePoint rest] |] eqn:Hesc.
      * apply escapeHere_Some in Hesc.
        destruct Hesc as (b & u & p & h1 & h2 & h3 & h4 & Hs & _).
        rewrite Hs in H1, H2. cbn [List.length] in H1, H2.
        f_equal. apply IH; lia.
      * f_equal. apply IH; cbn [List.length] in *; lia.
Qed.

Lemma decodeBytes_app_plain (pre s : list ascii) (fuel : nat) :
  ~ In "\"%char pre -> (List.length (pre ++ s) <= fuel)%nat ->
  MainGo.decodeBytes fuel (pre ++ s) = pre ++ MainGo.decodeBytes (List.length s) s.
Proof.
  revert fuel. induction pre as [| c pre IH]; intros fuel Hno Hfuel; cbn [app].
  - apply decodeBytes_fuel; [exact Hfuel | lia].
  - destruct fuel as [| fuel]; [cbn in Hfuel; lia |]. cbn [MainGo.decodeBytes].
    destruct (MainGo.escapeHere (c :: pre ++ s)) as [[codePoint rest] |] eqn:Hesc.
    + apply escapeHere_Some in Hesc.
      destruct Hesc as (b & u & p & h1 & h2 & h3 & h4 & Hs & Hb).
      injection Hs as -> _. exfalso. apply Hno. rewrite Hb. now left.
    + f_equal. apply IH; [intros Hin; apply Hno; now right | cbn in Hfuel; lia].
Qed.

Lemma decodeBytes_escape (fuel : nat) (h1 h2 h3 h4 : ascii) (rest : list ascii) :
  MainGo.isHexDigit h1 = true -> MainGo.isHexDigit h2 = true ->
  MainGo.isHexDigit h3 = true -> MainGo.isHexDigit h4 = true ->
  MainGo.decodeBytes (S fuel)
    ("\"%char :: "U"%char :: "+"%char :: h1 :: h2 :: h3 :: h4 :: rest)
  = MainGo.encodeRune (MainGo.hexValue h1 * 4096 + MainGo.hexValue h2 * 256 +
                       MainGo.hexValue h3 * 16 + MainGo.hexValue h4)
    ++ MainGo.decodeBytes fuel rest.
Proof.
  intros H1 H2 H3 H4. cbn [MainGo.decodeBytes MainGo.escapeHere].
  replace (Strings.byte "\" =? 92)%nat with true by reflexivity.
  replace (Strings.byte "U" =? 85)%nat with true by reflexivity.
  replace (Strings.byte "+" =? 43)%nat with true by reflexivity.
  now rewrite H1, H2, H3, H4.
Qed.

Lemma list_ascii_of_string_app (s1 s2 : string) :
  list_ascii_of_string (s1 ++ s2) = list_ascii_of_string s1 ++ list_ascii_of_string s2.
Proof.
  induction s1 as [| c s1 IH]; cbn [String.append list_ascii_of_string app];
    [reflexivity | now rewrite IH].
Qed.

(** X20.  [decodeUnicode] never lengthens a text and returns a text without
    a backslash unchanged; a text that begins with a part free of
    backslashes followed by an escape \U+hhhh is decoded to that part, the
    UTF-8 encoding of the code point hhhh, and the decoded rest. *)
Theorem decodeUnicode_escapes (text : string) :
  (String.length (MainGo.decodeUnicode text) <= String.length text)%nat /\
  (~ In "\"%char (list_ascii_of_string text) -> MainGo.decodeUnicode text = text) /\
  forall (pre post : string) (h1 h2 h3 h4 : ascii),
    ~ In "\"%char (list_ascii_of_string pre) ->
    MainGo.isHexDigit h1 = true -> MainGo.isHexDigit h2 = true ->
    MainGo.isHexDigit h3 = true -> MainGo.isHexDigit h4 = true ->
    text = (pre ++ "\U+" ++ string_of_list_ascii [h1; h2; h3; h4] ++ post)%string ->
    MainGo.decodeUnicode text
    = (pre ++
       string_of_list_ascii
         (MainGo.encodeRune (MainGo.hexValue h1 * 4096 + MainGo.hexValue h2 * 256 +
                             MainGo.hexValue h3 * 16 + MainGo.hexValue h4)) ++
       MainGo.decodeUnicode post)%string.
Proof.
  unfold MainGo.decodeUnicode. split; [| split].
  - rewrite length_string_of_list_ascii, <- length_list_ascii_of_string.
    apply decodeBytes_length.
  - intros Hno. rewrite decodeBytes_plain by (auto; lia).
    apply string_of_list_ascii_of_string.
  - intros pre post h1 h2 h3 h4 Hno H1 H2 H3 H4 ->.
    assert (Hbytes : list_ascii_of_string
                       (pre ++ "\U+" ++ string_of_list_ascii [h1; h2; h3; h4] ++ post)
                     = list_ascii_of_string pre ++
                       "\"%char :: "U"%char :: "+"%char :: h1 :: h2 :: h3 :: h4 ::
                       list_ascii_of_string post).
    { rewrite list_ascii_of_string_app. reflexivity. }
    rewrite Hbytes, decodeBytes_app_plain by (auto; lia).
    cbn [List.length]. rewrite decodeBytes_escape by assumption.
    rewrite !string_of_list_ascii_app, string_of_list_ascii_of_string.
    do 3 f_equal.
    apply decodeBytes_fuel; lia.
Qed.

Example decodeUnicode_degree :
  MainGo.decodeUnicode "90\U+00B0 LR-Elbow" = "90° LR-Elbow" /\
  MainGo.decodeUnicode "\U+005CU+00B0" = "\U+00B0".
Proof. split; vm_compute; reflexivity. Qed.

(** ** The text parser of the weld detector *)

Lemma append_empty_r (s : string) : (s ++ "")%string = s.
Proof. induction s as [| c s IH]; cbn; [reflexivity | now rewrite IH]. Qed.

Lemma append_assoc (s1 s2 s3 : string) :
  ((s1 ++ s2) ++ s3)%string = (s1 ++ s2 ++ s3)%string.
Proof. induction s1 as [| c s1 IH]; cbn; [reflexivity | now rewrite IH]. Qed.

Lemma joined_snoc (parts : list string) (line : string) :
  joined (parts ++ [line]) = (joined parts ++ line)%string.
Proof.
  induction parts as [| p parts IH]; cbn [joined app fold_right].
  - apply append_empty_r.
  - fold (joined (parts ++ [line])). fold (joined parts).
    now rewrite IH, append_assoc.
Qed.

Lemma flush_parsed (lines : list string) (entities : list TextEntity)
  (current : option TextEntity) :
  Forall (fun e => Content e <> "" /\ parsedFrom lines e) entities ->
  (forall e, current = Some e -> parsedFrom lines e) ->
  Forall (fun e => Content e <> "" /\ parsedFrom lines e)
         (WeldParsers.flush entities current).
Proof.
  intros Hall Hcur. unfold WeldParsers.flush.
  destruct current as [e |]; [| exact Hall].
  destruct (String.eqb (Content e) "") eqn:He; cbn [negb]; [exact Hall |].
  apply Forall_app. split; [exact Hall |]. constructor; [| constructor].
  split; [now apply String.eqb_neq | now apply Hcur].
Qed.

Lemma textStep_parsed (lines : list string) (st : WeldParsers.textState) (text : string) :
  let good (st : WeldParsers.textState) :=
    Forall (fun e => Content e <> "" /\ parsedFrom lines e) (WeldParsers.textEntities st) /\
    forall e, WeldParsers.currentEntity st = Some e -> parsedFrom lines e in
  In text lines -> good st -> good (WeldParsers.textStep st text).
Proof.
  intros good Hin [Hall Hcur]. unfold WeldParsers.textStep.
  set (line := Strings.TrimSpace text).
  destruct (String.eqb line "") eqn:Hblank; [now split |].
  apply String.eqb_neq in Hblank.
  destruct (WeldParsers.Atoi line) as [code |] eqn:Hcode.
  - destruct (((code =? 0)%Z || (code =? 8)%Z) &&
              WeldParsers.hasContent (WeldParsers.currentEntity st)).
    + split; cbn [WeldParsers.textEntities WeldParsers.currentEntity]; [| discriminate].
      now apply flush_parsed.
    + now split.
  - assert (Hline : valueLine lines line).
    { split; [exact Hblank |]. split; [exact Hcode |]. now exists text. }
    unfold WeldParsers.textValue.
    destruct (String.eqb (WeldParsers.currentCode st) "0").
    + destruct (String.eqb line "TEXT" || String.eqb line "MTEXT") eqn:Htype.
      * split; cbn [WeldParsers.textEntities WeldParsers.currentEntity]; [exact Hall |].
        intros e [= <-]. split.
        -- cbn. apply orb_true_iff in Htype.
           destruct Htype as [H | H]; apply String.eqb_eq in H; auto.
        -- exists []. split; [reflexivity | constructor].
      * split; cbn [WeldParsers.textEntities WeldParsers.currentEntity]; [| discriminate].
        now apply flush_parsed.
    + destruct (WeldParsers.currentEntity st) as [e |] eqn:Hce; [| split; [exact Hall |]].
      2:{ rewrite Hce. discriminate. }
      split; cbn [WeldParsers.textEntities WeldParsers.currentEntity]; [exact Hall |].
      intros e' [= <-]. destruct (Hcur e eq_refl) as [Htype [parts [Hparts Hvalues]]].
      destruct (String.eqb (WeldParsers.currentCode st) "1" ||
                String.eqb (WeldParsers.currentCode st) "3").
      * split; [exact Htype |]. exists (parts ++ [line]). split.
        -- cbn [MainGo.withContent Content]. now rewrite joined_snoc, Hparts.
        -- apply Forall_app. split; [exact Hvalues | now constructor].
      * repeat match goal with
               | |- context [if ?b then _ else _] => destruct b
               | |- context [match ?o with Some _ => _ | None => _ end] => destruct o
               end; (split; [exact Htype | now exists parts]).
Qed.

(** X21.  Every entity the text parser of the weld detector returns has the
    type TEXT or MTEXT and a content that is not empty; the content is the
    concatenation of scanned lines (trimmed) none of which is blank or a
    decimal integer: a line that [strconv.Atoi] accepts is always read as a
    group code, never as a value. *)
Theorem parseTextEntities_parsed (lines : list string) :
  Forall (fun entity => textLike entity /\ parsedFrom lines entity)
         (WeldParsers.parseTextEntities lines).
Proof.
  unfold WeldParsers.parseTextEntities.
  set (good := fun st : WeldParsers.textState =>
                 Forall (fun e => Content e <> "" /\ parsedFrom lines e)
                        (WeldParsers.textEntities st) /\
                 forall e, WeldParsers.currentEntity st = Some e -> parsedFrom lines e).
  assert (Hfold : forall rest st,
             (forall text, In text rest -> In text lines) ->
             good st -> good (fold_left WeldParsers.textStep rest st)).
  { induction rest as [| text rest IH]; intros st Hsub Hst; cbn [fold_left]; [exact Hst |].
    apply IH; [intros t Ht; apply Hsub; now right |].
    apply textStep_parsed; [apply Hsub; now left | exact Hst]. }
  destruct (Hfold lines (WeldParsers.mkTextState [] None "") (fun _ H => H)) as [Hall Hcur].
  { split; [constructor | discriminate]. }
  pose proof (flush_parsed lines _ _ Hall Hcur) as Hflush.
  rewrite Forall_forall in *. intros e He. destruct (Hflush e He) as [Hne Hp].
  split; [| exact Hp]. split; [exact Hne | exact (proj1 Hp)].
Qed.

Example numeric_text_is_lost :
  MainGo.parseSequential numericTextLines = [mkTextEntity "25" 12.5 7.25 0 "TEXT" "BOM"] /\
  WeldParsers.parseTextEntities numericTextLines = [].
Proof. split; vm_compute; reflexivity. Qed.

(** ** The polyline parser *)

Lemma targetSegments_target (layer : string) (vertices : list (float * float)) :
  Forall targetSegment (WeldParsers.targetSegments layer vertices).
Proof.
  induction vertices as [| [x1 y1] rest IH]; [constructor |].
  destruct rest as [| [x2 y2] rest']; [constructor |].
  cbn [WeldParsers.targetSegments] in *.
  destruct (Weld.isTargetLength (Weld.distance x1 y1 x2 y2)) eqn:Ht; [| exact IH].
  constructor; [| exact IH]. split; [reflexivity | exact Ht].
Qed.

Lemma polyStep_target (st : WeldParsers.polyState) (text : string) :
  Forall targetSegment (WeldParsers.segments st) ->
  Forall targetSegment (WeldParsers.segments (WeldParsers.polyStep st text)).
Proof.
  intros Hall. unfold WeldParsers.polyStep.
  destruct (negb (WeldParsers.expectingValue st)); [exact Hall |].
  unfold WeldParsers.polyValue.
  repeat match goal with
         | |- context [if ?b then _ else _] => destruct b
         | |- context [match ?o with Some _ => _ | None => _ end] => destruct o
         end; cbn [WeldParsers.segments]; try exact Hall;
    try (rewrite app_nil_r; exact Hall).
  all: apply Forall_app; split; [exact Hall | apply targetSegments_target].
Qed.

Lemma polyStep_open (st : WeldParsers.polyState) (text : string) :
  Strings.TrimSpace text <> "SEQEND" ->
  WeldParsers.segments st = [] ->
  WeldParsers.segments (WeldParsers.polyStep st text) = [].
Proof.
  intros Hline Hnil. unfold WeldParsers.polyStep.
  destruct (negb (WeldParsers.expectingValue st)); [exact Hnil |].
  unfold WeldParsers.polyValue.
  destruct (String.eqb (Strings.TrimSpace text) "SEQEND") eqn:Hs;
    [apply String.eqb_eq in Hs; now contradiction Hline |].
  cbn [andb].
  repeat match goal with
         | |- context [if ?b then _ else _] => destruct b
         | |- context [match ?o with Some _ => _ | None => _ end] => destruct o
         end; cbn [WeldParsers.segments]; exact Hnil.
Qed.

Lemma parsed_segments_target (lines : list string) :
  Forall targetSegment (WeldParsers.parsePolylineSegmentsOptimized lines).
Proof.
  unfold WeldParsers.parsePolylineSegmentsOptimized.
  assert (Hfold : forall rest st,
             Forall targetSegment (WeldParsers.segments st) ->
             Forall targetSegment
               (WeldParsers.segments (fold_left WeldParsers.polyStep rest st))).
  { induction rest as [| text rest IH]; intros st Hst; cbn [fold_left]; [exact Hst |].
    apply IH. now apply polyStep_target. }
  apply Hfold. constructor.
Qed.

(** X22.  Every segment the polyline parser returns carries as its length
    the distance of its end points, and that length passes the
    target-length filter; no segment is returned unless a SEQEND line closes
    a polyline. *)
Theorem parsePolylineSegments_target (lines : list string) :
  Forall targetSegment (WeldParsers.parsePolylineSegmentsOptimized lines) /\
  ((forall text, In text lines -> Strings.TrimSpace text <> "SEQEND") ->
   WeldParsers.parsePolylineSegmentsOptimized lines = []).
Proof.
  split; [apply parsed_segments_target |].
  unfold WeldParsers.parsePolylineSegmentsOptimized.
  assert (Hfold : forall rest st,
             (forall text, In text rest -> Strings.TrimSpace text <> "SEQEND") ->
             WeldParsers.segments st = [] ->
             WeldParsers.segments (fold_left WeldParsers.polyStep rest st) = []).
  { induction rest as [| text rest IH]; intros st Hno Hst; cbn [fold_left]; [exact Hst |].
    apply IH; [intros t Ht; apply Hno; now right |].
    apply polyStep_open; [apply Hno; now left | exact Hst]. }
  intros Hno. now apply Hfold.
Qed.

Lemma pairSymbol_Some {F : Type} `{Float64 F}
  (seg1 seg2 : Weld.PolylineSegment F) (w : Weld.WeldSymbol F) :
  Weld.pairSymbol seg1 seg2 = Some w ->
  Weld.lengthsMatch (Weld.Length seg1) (Weld.Length seg2) = true /\
  Weld.Length1 w = Weld.Length seg1 /\ Weld.Length2 w = Weld.Length seg2 /\
  Weld.SymbolLayer w = Weld.Layer seg1.
Proof.
  unfold Weld.pairSymbol.
  destruct (Weld.lengthsMatch (Weld.Length seg1) (Weld.Length seg2)); cbn [negb];
    [| discriminate].
  destruct (Weld.linesIntersect seg1 seg2) as [[ix iy] |]; [| discriminate].
  match goal with |- context [if ?b then _ else _] => destruct b end; [discriminate |].
  intros [= <-]. now repeat split.
Qed.

(** X23.  Every weld symbol detected in a parsed file joins two segments of
    the file whose lengths are the distances of their end points, pass the
    target-length filter and match a known weld pair; the symbol carries
    these two lengths and the layer of the first segment. *)
Theorem parsed_welds_join_target_segments (lines : list string) (w : Weld.WeldSymbol float) :
  In w (Weld.detectWeldSymbols (WeldParsers.parsePolylineSegmentsOptimized lines)) ->
  exists seg1 seg2,
    In seg1 (WeldParsers.parsePolylineSegmentsOptimized lines) /\
    In seg2 (WeldParsers.parsePolylineSegmentsOptimized lines) /\
    targetSegment seg1 /\ targetSegment seg2 /\
    Weld.lengthsMatch (Weld.Length seg1) (Weld.Length seg2) = true /\
    Weld.Length1 w = Weld.Length seg1 /\ Weld.Length2 w = Weld.Length seg2 /\
    Weld.SymbolLayer w = Weld.Layer seg1.
Proof.
  intros Hin. apply detectWeldSymbols_from_pairs in Hin.
  destruct Hin as [seg1 [seg2 [H1 [H2 Hpair]]]].
  pose proof (parsed_segments_target lines) as Hall.
  rewrite Forall_forall in Hall.
  exists seg1, seg2. apply pairSymbol_Some in Hpair.
  destruct Hpair as (Hm & Hl1 & Hl2 & Hlayer).
  repeat split; auto; now apply Hall.
Qed.

Lemma parsed_welds_join_target_segments_witness :
  exists w seg1 seg2,
    In w (Weld.detectWeldSymbols (WeldParsers.parsePolylineSegmentsOptimized crossedPolylines)) /\
    targetSegment seg1 /\ targetSegment seg2 /\
    Weld.Length1 w = Weld.Length seg1 /\ Weld.Length2 w = Weld.Length seg2.
Proof.
  assert (Hw : exists w,
             In w (Weld.detectWeldSymbols
                     (WeldParsers.parsePolylineSegmentsOptimized crossedPolylines))).
  { vm_compute. eexists. left. reflexivity. }
  destruct Hw as [w Hw].
  destruct (parsed_welds_join_target_segments crossedPolylines w Hw)
    as (seg1 & seg2 & _ & _ & Ht1 & Ht2 & _ & Hl1 & Hl2 & _).
  exists w, seg1, seg2.
  exact (conj Hw (conj Ht1 (conj Ht2 (conj Hl1 Hl2)))).
Defined.

Example crossedPolylines_one_weld :
  WeldParsers.extractWeldsFromRawContent crossedPolylines = 1%nat /\
  WeldParsers.extractWeldsFromRawContent polylineLines = 0%nat.
Proof. split; vm_compute; reflexivity. Qed.

(* ================================================================== *)
(** * Properties of the pipe-class locators *)

Example pipe_class_scenarios :
  PipeClass.findPipeClass labelledClassDrawing = ("AHDX", labelledClassDrawing) /\
  PipeClass.findPipeClassFromEntities labelledClassDrawing = ("AHDX", labelledClassDrawing) /\
  PipeClass.findPipeClass highDrawing
    = ("BCDE", [ fragment "BCDE" 10 120; fragment "AHDX rev" 50 150;
                 fragment "ISO" 20 300; fragment "REV B" 300 400 ]) /\
  PipeClass.findPipeClassFromEntities highDrawing
    = ("BCDE", [ fragment "BCDE" 10 120; fragment "AHDX rev" 50 150;
                 fragment "ISO" 20 300; fragment "REV B" 300 400 ]) /\
  PipeClass.findPipeClassOfDetector highDrawing = "AHDX".
Proof. repeat split; vm_compute; reflexivity. Qed.

(** ** Trimming keeps a part of the text *)

Lemma trimLeftBytes_suffix (fuel : nat) (l : list ascii) :
  exists pre, l = pre ++ Strings.trimLeftBytes fuel l.
Proof.
  revert l. induction fuel as [| fuel IH]; intros l; cbn [Strings.trimLeftBytes];
    [now exists [] |].
  destruct l as [| a rest1]; [now exists [] |].
  destruct (Strings.isAsciiSpace a).
  { destruct (IH rest1) as [pre Hpre]. exists (a :: pre). cbn. now rewrite <- Hpre. }
  destruct rest1 as [| b rest2]; [now exists [] |].
  destruct (Strings.spaceSeq2 (Strings.byte a) (Strings.byte b)).
  { destruct (IH rest2) as [pre Hpre]. exists (a :: b :: pre). cbn. now rewrite <- Hpre. }
  destruct rest2 as [| c rest3]; [now exists [] |].
  destruct (Strings.spaceSeq3 (Strings.byte a) (Strings.byte b) (Strings.byte c)).
  { destruct (IH rest3) as [pre Hpre]. exists (a :: b :: c :: pre). cbn. now rewrite <- Hpre. }
  now exists [].
Qed.

Lemma trimRightRev_suffix (fuel : nat) (l : list ascii) :
  exists pre, l = pre ++ Strings.trimRightRev fuel l.
Proof.
  revert l. induction fuel as [| fuel IH]; intros l; cbn [Strings.trimRightRev];
    [now exists [] |].
  destruct l as [| a rest1]; [now exists [] |].
  destruct (Strings.isAsciiSpace a).
  { destruct (IH rest1) as [pre Hpre]. exists (a :: pre). cbn. now rewrite <- Hpre. }
  destruct rest1 as [| b rest2]; [now exists [] |].
  destruct (Strings.spaceSeq2 (Strings.byte b) (Strings.byte a)).
  { destruct (IH rest2) as [pre Hpre]. exists (a :: b :: pre). cbn. now rewrite <- Hpre. }
  destruct rest2 as [| c rest3]; [now exists [] |].
  destruct (Strings.spaceSeq3 (Strings.byte c) (Strings.byte b) (Strings.byte a)).
  { destruct (IH rest3) as [pre Hpre]. exists (a :: b :: c :: pre). cbn. now rewrite <- Hpre. }
  now exists [].
Qed.

Lemma TrimSpace_occurs (s : string) : occursIn (Strings.TrimSpace s) s.
Proof.
  unfold Strings.TrimSpace, occursIn. cbn zeta.
  set (l := list_ascii_of_string s).
  set (l1 := Strings.trimLeftBytes (List.length l) l).
  set (t := Strings.trimRightRev (List.length l1) (rev l1)).
  destruct (trimLeftBytes_suffix (List.length l) l) as [pre1 H1]. fold l1 in H1.
  destruct (trimRightRev_suffix (List.length l1) (rev l1)) as [pre2 H2]. fold t in H2.
  exists (string_of_list_ascii pre1), (string_of_list_ascii (rev pre2)).
  rewrite <- !string_of_list_ascii_app.
  rewrite <- (string_of_list_ascii_of_string s). fold l. f_equal.
  rewrite H1 at 1. f_equal. rewrite <- rev_app_distr, <- H2. now rewrite rev_involutive.
Qed.

Lemma occursIn_trans (a b c : string) : occursIn a b -> occursIn b c -> occursIn a c.
Proof.
  intros [pre1 [post1 ->]] [pre2 [post2 ->]].
  exists (pre2 ++ pre1)%string, (post1 ++ post2)%string.
  now rewrite !append_assoc.
Qed.

(** ** The pipe-class pattern *)

Lemma pipeClassScan_found (s : list ascii) (prevWord : bool) :
  PipeClass.pipeClassScan prevWord s <> "" ->
  exists pre s',
    s = pre ++ s' /\ PipeClass.pipeClassHere s' = true /\
    PipeClass.pipeClassScan prevWord s = string_of_list_ascii (firstn 4 s').
Proof.
  revert prevWord. induction s as [| c rest IH]; intros prevWord Hne.
  - now contradiction Hne.
  - cbn [PipeClass.pipeClassScan] in *.
    destruct (negb prevWord && PipeClass.pipeClassHere (c :: rest)) eqn:Hhere.
    + apply andb_true_iff in Hhere. destruct Hhere as [_ Hhere].
      exists [], (c :: rest). now repeat split.
    + destruct (IH _ Hne) as [pre [s' [Hs [Hh Hr]]]].
      exists (c :: pre), s'. subst rest. now repeat split.
Qed.

Lemma pipeClassFindString_shape (str : string) :
  PipeClass.pipeClassFindString str <> "" ->
  fourCapitals (PipeClass.pipeClassFindString str) /\
  occursIn (PipeClass.pipeClassFindString str) str.
Proof.
  unfold PipeClass.pipeClassFindString. intros Hne.
  destruct (pipeClassScan_found _ _ Hne) as [pre [s' [Hs [Hh Hr]]]].
  rewrite Hr. split.
  - unfold PipeClass.pipeClassHere in Hh.
    do 4 (destruct s' as [| ? s']; [discriminate |]).
    repeat rewrite andb_true_iff in Hh. destruct Hh as [[[[H0 H1] H2] H3] _].
    unfold fourCapitals. cbn [firstn]. rewrite list_ascii_of_string_of_list_ascii.
    split; [reflexivity | repeat constructor; assumption].
  - exists (string_of_list_ascii pre), (string_of_list_ascii (skipn 4 s')).
    rewrite <- !string_of_list_ascii_app, firstn_skipn, <- Hs.
    now rewrite string_of_list_ascii_of_string.
Qed.

Lemma trimmed_match_shape (entities : list TextEntity) (entity : TextEntity) :
  In entity entities ->
  PipeClass.pipeClassFindString (Strings.TrimSpace (Content entity)) <> "" ->
  pipeClassOf entities (PipeClass.pipeClassFindString (Strings.TrimSpace (Content entity))).
Proof.
  intros Hin Hne. right. destruct (pipeClassFindString_shape _ Hne) as [Hshape Hocc].
  split; [exact Hshape |]. exists entity. split; [exact Hin |].
  apply occursIn_trans with (Strings.TrimSpace (Content entity)); [exact Hocc |].
  apply TrimSpace_occurs.
Qed.

Lemma labelCandidates_shape (labelX labelY : float) (entities sub : list TextEntity)
  (c : PipeClass.candidate) :
  (forall e, In e sub -> In e entities) ->
  In c (PipeClass.labelCandidates labelX labelY sub) ->
  pipeClassOf entities (PipeClass.value c).
Proof.
  induction sub as [| entity rest IH]; intros Hsub Hin; [destruct Hin |].
  cbn [PipeClass.labelCandidates] in Hin.
  assert (Hrest : forall e, In e rest -> In e entities) by (intros e He; apply Hsub; now right).
  destruct (PipeClass.labelCandidate labelX labelY entity) as [c' |] eqn:Hc; [| now apply IH].
  destruct Hin as [<- | Hin]; [| now apply IH].
  unfold PipeClass.labelCandidate in Hc.
  destruct (_ && _); [| discriminate].
  destruct (String.eqb _ "") eqn:He; cbn [negb] in Hc; [discriminate |].
  injection Hc as <-. cbn [PipeClass.value].
  apply trimmed_match_shape; [apply Hsub; now left | now apply String.eqb_neq].
Qed.

Lemma designDataMatch_shape (designDataY : float) (entities sub : list TextEntity)
  (m : string) :
  (forall e, In e sub -> In e entities) ->
  PipeClass.designDataMatch designDataY sub = Some m ->
  pipeClassOf entities m.
Proof.
  induction sub as [| entity rest IH]; intros Hsub Hm; [discriminate |].
  cbn [PipeClass.designDataMatch] in Hm.
  assert (Hrest : forall e, In e rest -> In e entities) by (intros e He; apply Hsub; now right).
  destruct (_ && _); [| now apply IH].
  destruct (String.eqb _ "") eqn:He; cbn [negb] in Hm; [now apply IH |].
  injection Hm as <-.
  apply trimmed_match_shape; [apply Hsub; now left | now apply String.eqb_neq].
Qed.

Lemma centerCandidates_shape (entities sub : list TextEntity)
  (c : PipeClass.centerCandidate) :
  (forall e, In e sub -> In e entities) ->
  In c (PipeClass.centerCandidates sub) ->
  pipeClassOf entities (PipeClass.centerValue c).
Proof.
  induction sub as [| entity rest IH]; intros Hsub Hin; [destruct Hin |].
  cbn [PipeClass.centerCandidates] in Hin.
  assert (Hrest : forall e, In e rest -> In e entities) by (intros e He; apply Hsub; now right).
  destruct (X entity <? 500)%float; [| now apply IH].
  destruct (String.eqb _ "") eqn:He; cbn [negb] in Hin; [now apply IH |].
  destruct Hin as [<- | Hin]; [| now apply IH].
  cbn [PipeClass.centerValue].
  apply trimmed_match_shape; [apply Hsub; now left | now apply String.eqb_neq].
Qed.

Section LocateFacts.

Variable sortBy : forall A : Type, (A -> A -> bool) -> list A -> list A.
Hypothesis sortBy_perm : forall A less l, Permutation (sortBy A less l) l.

Lemma locate_shape (entities : list TextEntity) :
  pipeClassOf entities (fst (PipeClass.locate sortBy entities)).
Proof.
  unfold PipeClass.locate.
  match goal with
  | |- context [match ?fl with Some pipeClass => (pipeClass, entities) | None => _ end] =>
      assert (Hlabel : forall v, fl = Some v -> pipeClassOf entities v);
      [| destruct fl as [v |]; [cbn [fst]; now apply Hlabel |]]
  end.
  { intros v. destruct (PipeClass.findLabel entities) as [[labelX labelY] |]; [| discriminate].
    destruct (sortBy PipeClass.candidate _ _) as [| closest others] eqn:Hsort; [discriminate |].
    intros [= <-].
    apply (labelCandidates_shape labelX labelY entities entities); [auto |].
    match type of Hsort with
    | sortBy ?A ?less ?l = _ => pose proof (sortBy_perm A less l) as Hperm
    end.
    rewrite Hsort in Hperm. apply (Permutation_in _ Hperm). now left. }
  match goal with
  | |- context [match ?fd with Some pipeClass => (pipeClass, entities) | None => _ end] =>
      assert (Hdesign : forall v, fd = Some v -> pipeClassOf entities v);
      [| destruct fd as [v |]; [cbn [fst]; now apply Hdesign |]]
  end.
  { intros v. destruct (PipeClass.findDesignData entities) as [designDataY |];
      [| discriminate].
    now apply designDataMatch_shape. }
  set (below := filter (fun entity => (Y entity <? 100)%float) entities).
  match goal with
  | |- context [let '(bottomEntities, entities') := ?p in _] =>
      assert (Hbottom : forall e, In e (fst p) -> In e entities); [| destruct p as [bottom left]]
  end.
  { destruct below as [| b0 rest] eqn:Hbelow; cbn [fst].
    - intros e He. apply In_firstn in He.
      exact (Permutation_in _ (sortBy_perm TextEntity _ entities) He).
    - intros e He. rewrite <- Hbelow in He. unfold below in He.
      now apply filter_In in He. }
  cbn [fst] in Hbottom.
  destruct (sortBy PipeClass.centerCandidate _ _) as [| first others] eqn:Hsort; cbn [fst].
  - now left.
  - apply (centerCandidates_shape entities bottom); [exact Hbottom |].
    match type of Hsort with
    | sortBy ?A ?less ?l = _ => pose proof (sortBy_perm A less l) as Hperm
    end.
    rewrite Hsort in Hperm. apply (Permutation_in _ Hperm). now left.
Qed.

Lemma locate_permutation (entities : list TextEntity) :
  Permutation (snd (PipeClass.locate sortBy entities)) entities.
Proof.
  unfold PipeClass.locate.
  repeat match goal with
         | |- context [match ?o with Some _ => _ | None => _ end] => destruct o
         | |- context [match ?l with [] => _ | _ :: _ => _ end] => destruct l
         | |- context [let '(_, _) := ?p in _] => destruct p
         end; cbn [snd]; try reflexivity; try apply sortBy_perm.
Qed.

Lemma locate_after (entities : list TextEntity) :
  snd (PipeClass.locate sortBy entities) = entities \/
  (filter (fun entity => (Y entity <? 100)%float) entities = [] /\
   snd (PipeClass.locate sortBy entities)
   = sortBy TextEntity (fun a b => (Y a <? Y b)%float) entities).
Proof.
  unfold PipeClass.locate.
  repeat match goal with
         | |- context [match ?o with Some _ => _ | None => _ end] => destruct o
         end; cbn [snd]; try (now left).
  all: destruct (filter (fun entity => (Y entity <? 100)%float) entities);
    match goal with
    | |- context [match ?l with [] => _ | _ :: _ => _ end] => destruct l
    end; cbn [snd]; auto.
Qed.

End LocateFacts.

Lemma Slice_permutation (A : Type) (less : A -> A -> bool) (l : list A) :
  Permutation (Sort.Slice less l) l.
Proof. apply Slice_perm. Qed.

Lemma exchangeSort_permutation (A : Type) (less : A -> A -> bool) (l : list A) :
  Permutation (WeldIntegration.exchangeSort (fun a b => less b a) l) l.
Proof. apply exchangeSort_perm. Qed.

(** X24.  The pipe class returned by each of the three locators
    ([findPipeClass] of the BOM tool, [findPipeClassFromEntities] of the
    integrated tool, [findPipeClass] of the weld detector) is empty or
    consists of four capital letters that occur in the content of a
    fragment of the drawing. *)
Theorem pipe_class_shape (entities : list TextEntity) :
  pipeClassOf entities (fst (PipeClass.findPipeClass entities)) /\
  pipeClassOf entities (fst (PipeClass.findPipeClassFromEntities entities)) /\
  pipeClassOf entities (PipeClass.findPipeClassOfDetector entities).
Proof.
  split; [| split].
  - apply (locate_shape (fun A less => Sort.Slice less) Slice_permutation).
  - apply (locate_shape
             (fun A less => WeldIntegration.exchangeSort (fun a b => less b a))
             exchangeSort_permutation).
  - unfold PipeClass.findPipeClassOfDetector.
    destruct entities as [| e0 rest]; [now left |].
    set (entities := e0 :: rest).
    set (bottom := if (100 <? List.length entities)%nat then _ else _).
    assert (Hbottom : forall e, In e bottom -> In e entities).
    { intros e He. unfold bottom in He.
      destruct (100 <? List.length entities)%nat.
      - rewrite <- (firstn_skipn (List.length entities / 4) entities).
        apply in_or_app. now right.
      - now apply In_firstn in He. }
    destruct (Sort.Slice _ _) as [| first others] eqn:Hsort; [now left |].
    apply (centerCandidates_shape entities bottom); [exact Hbottom |].
    apply (Slice_In (fun a b => (PipeClass.centerX a <? PipeClass.centerX b)%float)).
    rewrite Hsort. now left.
Qed.

(** X25.  The pipe-class locators of the BOM tool and of the integrated
    tool sort the caller's entity slice in place in their last fallback.
    The slice they leave behind is a permutation of the one they received;
    it is unchanged whenever a fragment lies below Y = 100; and when all Y
    are numbers it is either unchanged or in order of non-decreasing Y. *)
Theorem pipe_class_reorders_entities (entities : list TextEntity) :
  let afterTool := snd (PipeClass.findPipeClass entities) in
  let afterIntegration := snd (PipeClass.findPipeClassFromEntities entities) in
  Permutation afterTool entities /\ Permutation afterIntegration entities /\
  ((exists entity, In entity entities /\ (Y entity <? 100)%float = true) ->
   afterTool = entities /\ afterIntegration = entities) /\
  (Forall (fun entity => notNaN (Y entity)) entities ->
   (afterTool = entities \/
    StronglySorted (fun a b => (Y a <=? Y b)%float = true) afterTool) /\
   (afterIntegration = entities \/
    StronglySorted (fun a b => (Y a <=? Y b)%float = true) afterIntegration)).
Proof.
  cbn zeta. unfold PipeClass.findPipeClass, PipeClass.findPipeClassFromEntities.
  split; [apply (locate_permutation _ Slice_permutation) |].
  split; [apply (locate_permutation _ exchangeSort_permutation) |].
  pose proof (locate_after (fun A less => Sort.Slice less) entities) as H1.
  pose proof (locate_after
                (fun A less => WeldIntegration.exchangeSort (fun a b => less b a))
                entities) as H2.
  split.
  - intros [entity [Hin Hy]].
    assert (Hne : filter (fun entity => (Y entity <? 100)%float) entities <> []).
    { intros Hnil. assert (Hf : In entity (filter (fun e => (Y e <? 100)%float) entities))
        by (apply filter_In; now split).
      rewrite Hnil in Hf. destruct Hf. }
    destruct H1 as [H1 | [H1 _]]; [| now contradiction Hne].
    destruct H2 as [H2 | [H2 _]]; [| now contradiction Hne].
    now split.
  - intros Hnum. split.
    + destruct H1 as [H1 | [_ H1]]; [now left | right]. rewrite H1.
      apply (Slice_sorted _ (fun e => notNaN (Y e))).
      * intros a b Pa Pb Hl. now apply float_ltb_false_leb.
      * intros a b Hl. now apply float_ltb_leb.
      * intros a b c. apply float_leb_trans.
      * exact Hnum.
    + destruct H2 as [H2 | [_ H2]]; [now left | right]. rewrite H2.
      apply (exchangeSort_sorted _ (fun e => notNaN (Y e))).
      * intros a b Pa Pb Hg. now apply float_ltb_false_leb.
      * intros a b Hg. now apply float_ltb_leb.
      * intros a b c. apply float_leb_trans.
      * intros a Pa. now apply float_leb_refl.
      * exact Hnum.
Qed.

(* ================================================================== *)
(** ** The order of the rows and of the cells of a table *)

Lemma float_leb_apart_ltb (x y : float) :
  (x <=? y)%float = true -> (x =? y)%float = false -> (x <? y)%float = true.
Proof.
  rewrite FloatAxioms.ltb_spec, FloatAxioms.leb_spec, FloatAxioms.eqb_spec.
  unfold SFltb, SFleb, SFeqb. destruct (SFcompare _ _) as [[] |]; congruence.
Qed.

Lemma bubble_map {A B : Type} (f : A -> B) (less : B -> B -> bool) (x : A) (l : list A) :
  Sort.bubble less (f x) (map f l)
    = map f (Sort.bubble (fun a b => less (f a) (f b)) x l).
Proof.
  induction l as [| y l IH]; cbn [Sort.bubble map]; [reflexivity |].
  destruct (less (f x) (f y)); cbn [map]; [now rewrite IH | reflexivity].
Qed.

Lemma Slice_map {A B : Type} (f : A -> B) (less : B -> B -> bool) (l : list A) :
  Sort.Slice less (map f l) = map f (Sort.Slice (fun a b => less (f a) (f b)) l).
Proof.
  unfold Sort.Slice. rewrite map_rev. f_equal.
  change (@nil B) with (map f []). generalize (@nil A) as acc.
  induction l as [| x l IH]; intros acc; cbn [fold_left map]; [reflexivity |].
  rewrite bubble_map. apply IH.
Qed.

Lemma StronglySorted_map {A B : Type} (f : A -> B) (R : B -> B -> Prop) (l : list A) :
  StronglySorted (fun a b => R (f a) (f b)) l -> StronglySorted R (map f l).
Proof.
  induction 1 as [| x l Hs IH Hx]; cbn [map]; constructor; [exact IH |].
  apply Forall_forall. intros b Hb. apply in_map_iff in Hb. destruct Hb as (a & <- & Ha).
  rewrite Forall_forall in Hx. now apply Hx.
Qed.

Lemma StronglySorted_strict {A : Type} (R R' : A -> A -> Prop) (l : list A) :
  StronglySorted R l -> NoDup l ->
  (forall a b, In a l -> In b l -> a <> b -> R a b -> R' a b) ->
  StronglySorted R' l.
Proof.
  induction 1 as [| x l Hs IH Hx]; intros Hnd Hstrict; constructor.
  - apply IH; [now inversion Hnd |].
    intros a b Ha Hb. apply Hstrict; now right.
  - inversion Hnd as [| ? ? Hnotin Hnd']; subst.
    apply Forall_forall. intros b Hb. rewrite Forall_forall in Hx.
    apply Hstrict; [now left | now right | | now apply Hx].
    intros ->. now apply Hnotin.
Qed.

(** Every key of the dictionary is the row key of a fragment. *)
Lemma groupRows_keys (filteredEntities : list TextEntity) (k : float) (cells : list TableCell) :
  In (k, cells) (Table.groupRows filteredEntities) ->
  exists entity, In entity filteredEntities /\ k = Table.yKey entity.
Proof.
  unfold Table.groupRows.
  assert (Hgen : forall rest m,
            In (k, cells) (fold_left Table.groupStep rest m) ->
            In k (map fst m) \/ exists entity, In entity rest /\ k = Table.yKey entity).
  { induction rest as [| entity rest IH]; intros m; cbn [fold_left].
    - intros Hin. left. apply in_map_iff. now exists (k, cells).
    - intros Hin. destruct (IH _ Hin) as [Hk | (e & He & Hk)].
      + unfold Table.groupStep in Hk. apply in_map_iff in Hk.
        destruct Hk as (b & Hfst & Hb).
        apply dictStore_In in Hb. destruct Hb as [-> | Hb].
        * right. exists entity. split; [now left | now symmetry].
        * destruct (Table.dictLookup m (Table.yKey entity)).
          -- left. apply in_map_iff. now exists b.
          -- apply dictStore_In in Hb. destruct Hb as [-> | Hb].
             ++ right. exists entity. split; [now left | now symmetry].
             ++ left. apply in_map_iff. now exists b.
      + right. exists e. split; [now right | exact Hk]. }
  intros Hin. destruct (Hgen _ _ Hin) as [[] | H]. exact H.
Qed.

Lemma keysApart_In (m : Table.RowsDict) (b1 b2 : float * list TableCell) :
  keysApart m -> In b1 m -> In b2 m -> b1 <> b2 -> (fst b1 =? fst b2)%float = false.
Proof.
  induction m as [| [k c] rest IH]; cbn [keysApart In]; [intros _ [] |].
  intros [Hhead Hrest] [<- | H1] [<- | H2] Hne.
  - now contradiction Hne.
  - now apply Hhead.
  - rewrite float_eqb_sym. now apply Hhead.
  - now apply IH.
Qed.

Lemma keysApart_NoDup (m : Table.RowsDict) :
  keysApart m -> (forall b, In b m -> notNaN (fst b)) ->
  NoDup (map (fun kv => mkRowData (fst kv) (snd kv)) m).
Proof.
  induction m as [| [k c] rest IH]; cbn [keysApart map]; intros Hapart Hkeys;
    [constructor |].
  destruct Hapart as [Hhead Hrest]. constructor.
  - intros Hin. apply in_map_iff in Hin. destruct Hin as (b & Hb & Hin).
    cbn [fst snd] in Hb. injection Hb as Hk _.
    specialize (Hhead b Hin). rewrite Hk in Hhead.
    specialize (Hkeys (k, c) (or_introl eq_refl)). cbn [fst] in Hkeys.
    unfold notNaN in Hkeys. congruence.
  - apply IH; [exact Hrest |]. intros b Hb. apply Hkeys. now right.
Qed.

(** X26.  For fragments whose row keys and X positions are numbers, the
    table rows are built like this: one row for every row key that occurs,
    the rows in order of strictly descending key (top of the drawing first);
    a row lists the texts of exactly the fragments with its key, in order of
    non-decreasing X; every fragment is listed in a row. *)
Theorem buildTableRows_order (filteredEntities : list TextEntity) :
  Forall (fun entity => notNaN (Table.yKey entity) /\ notNaN (X entity)) filteredEntities ->
  exists rows : list (float * list TextEntity),
    Table.buildTableRows filteredEntities = map (fun r => map Content (snd r)) rows /\
    StronglySorted (fun a b => (fst b <? fst a)%float = true) rows /\
    Forall (fun r =>
              snd r <> [] /\
              Permutation (snd r)
                (filter (fun entity => (Table.yKey entity =? fst r)%float) filteredEntities) /\
              StronglySorted (fun a b => (X a <=? X b)%float = true) (snd r)) rows /\
    (forall entity, In entity filteredEntities ->
       exists r, In r rows /\ In entity (snd r)).
Proof.
  intros Hnum. rewrite Forall_forall in Hnum.
  destruct (groupRows_grouped filteredEntities) as (Hapart & Hrows & Hcover).
  set (m := Table.groupRows filteredEntities) in *.
  set (mk := fun kv : float * list TableCell => mkRowData (fst kv) (snd kv)).
  set (sorted := Table.sortRows m).
  assert (Hperm : Permutation sorted (map mk m)) by apply Slice_perm.
  assert (Hkeys : forall b, In b m -> notNaN (fst b)).
  { intros [k c] Hb. destruct (groupRows_keys _ _ _ Hb) as (e & He & ->).
    apply (Hnum e He). }
  assert (Hrow : forall rd, In rd sorted ->
            notNaN (rowY rd) /\ rowCells rd = rowOfKey (rowY rd) filteredEntities).
  { intros rd Hrd. apply (Permutation_in _ Hperm) in Hrd.
    apply in_map_iff in Hrd. destruct Hrd as ([k c] & <- & Hb). cbn [mk rowY rowCells fst snd].
    split; [apply (Hkeys _ Hb) | apply (Hrows _ _ Hb), (Hkeys _ Hb)]. }
  exists (map (fun rd => (rowY rd, rowFragments filteredEntities (rowY rd))) sorted).
  split; [| split; [| split]].
  - unfold Table.buildTableRows. fold m. fold sorted. rewrite map_map.
    apply map_ext_in. intros rd Hrd. cbn [snd].
    unfold Table.rowTexts. rewrite (proj2 (Hrow rd Hrd)). unfold rowOfKey, rowFragments.
    rewrite (Slice_map cellOf (fun a b => (cellX a <? cellX b)%float)), map_map.
    reflexivity.
  - apply StronglySorted_map. cbn [fst].
    apply (StronglySorted_strict (fun a b => (rowY b <=? rowY a)%float = true)).
    + apply (Slice_sorted _ (fun rd => notNaN (rowY rd))).
      * intros a b Pa Pb Hless. cbn beta in Hless.
        destruct (float_leb_total (rowY b) (rowY a) Pb Pa) as [H | H]; [| exact H].
        pose proof (float_ltb_false_leb (rowY b) (rowY a)) as Hx.
        tauto.
      * intros a b Hless. now apply float_ltb_leb.
      * intros a b c Hab Hbc. now apply (float_leb_trans _ (rowY b)).
      * apply Forall_forall. intros rd Hrd. apply in_map_iff in Hrd.
        destruct Hrd as (b & <- & Hb). apply (Hkeys _ Hb).
    + apply (Permutation_NoDup (Permutation_sym Hperm)).
      now apply keysApart_NoDup.
    + intros a b Ha Hb Hne Hle.
      apply float_leb_apart_ltb; [exact Hle |].
      apply (Permutation_in _ Hperm) in Ha. apply (Permutation_in _ Hperm) in Hb.
      apply in_map_iff in Ha. destruct Ha as (ba & <- & Ha).
      apply in_map_iff in Hb. destruct Hb as (bb & <- & Hb).
      cbn [mk rowY]. apply (keysApart_In m); try assumption.
      intros ->. now apply Hne.
  - apply Forall_forall. intros r Hr. apply in_map_iff in Hr.
    destruct Hr as (rd & <- & Hrd). cbn [fst snd].
    destruct (Hrow rd Hrd) as [Hk _].
    assert (Hp : Permutation (rowFragments filteredEntities (rowY rd))
                   (filter (fun entity => (Table.yKey entity =? rowY rd)%float)
                           filteredEntities)) by apply Slice_perm.
    split; [| split; [exact Hp |]].
    + apply (Permutation_in _ Hperm) in Hrd. apply in_map_iff in Hrd.
      destruct Hrd as ([k c] & <- & Hb). cbn [mk rowY fst] in *.
      destruct (groupRows_keys _ _ _ Hb) as (e & He & Hke).
      intros Hnil. rewrite Hnil in Hp. apply Permutation_nil in Hp.
      assert (Hin : In e (filter (fun entity => (Table.yKey entity =? k)%float)
                                 filteredEntities)).
      { apply filter_In. split; [exact He |]. rewrite <- Hke. exact Hk. }
      rewrite Hp in Hin. exact Hin.
    + apply (Slice_sorted _ (fun e => notNaN (X e))).
      * intros a b Pa Pb Hless.
        destruct (float_leb_total (X b) (X a) Pb Pa) as [H | H]; [exact H |].
        pose proof (float_ltb_false_leb (X a) (X b)) as Hx. tauto.
      * intros a b Hless. now apply float_ltb_leb.
      * intros a b c Hab Hbc. now apply (float_leb_trans _ (X b)).
      * apply Forall_forall. intros e He. apply filter_In in He.
        apply (Hnum e (proj1 He)).
  - intros entity He.
    destruct (Hcover entity He (proj1 (Hnum entity He))) as (k & cells & Hb & Hk).
    exists (k, rowFragments filteredEntities k). split.
    + apply in_map_iff. exists (mk (k, cells)). split; [reflexivity |].
      apply (Permutation_in _ (Permutation_sym Hperm)). now apply in_map.
    + cbn [snd]. unfold rowFragments.
      apply (Permutation_in _ (Permutation_sym (Slice_perm _ _))).
      apply filter_In. split; [exact He |]. now rewrite float_eqb_sym.
Qed.

Lemma buildTableRows_order_witness :
  exists rows : list (float * list TextEntity),
    Table.buildTableRows (Table.filterEntities closeFragmentsDrawing 10 0)
      = map (fun r => map Content (snd r)) rows /\
    StronglySorted (fun a b => (fst b <? fst a)%float = true) rows /\
    Forall (fun r =>
              snd r <> [] /\
              Permutation (snd r)
                (filter (fun entity => (Table.yKey entity =? fst r)%float)
                        (Table.filterEntities closeFragmentsDrawing 10 0)) /\
              StronglySorted (fun a b => (X a <=? X b)%float = true) (snd r)) rows /\
    (forall entity, In entity (Table.filterEntities closeFragmentsDrawing 10 0) ->
       exists r, In r rows /\ In entity (snd r)).
Proof.
  apply (buildTableRows_order (Table.filterEntities closeFragmentsDrawing 10 0)).
  vm_compute. repeat constructor.
Defined.

(* ================================================================== *)
(** ** The tables of the BOM tool *)

Lemma extractTable_padded
  (processErectionMaterialsTable : list Row -> list Row)
  (validateAndCorrectCutLengthRow : Row -> Row)
  (textEntities : list TextEntity) (tableTitle : string)
  (header : Row) (rows : list Row) :
  Table.extractTable processErectionMaterialsTable validateAndCorrectCutLengthRow
    textEntities tableTitle = Some (header, rows) ->
  Forall (fun row => List.length row = List.length header) rows.
Proof.
  unfold Table.extractTable. intros Hext.
  destruct (Table.findTitle textEntities tableTitle) as [t |].
  - destruct (Table.processTable _ _ _ _) as [[h dataRows] |]; [| discriminate].
    injection Hext as <- <-. unfold Table.padRows. apply Forall_forall. intros row Hin.
    apply in_map_iff in Hin. destruct Hin as [r [<- _]]. apply padRow_length.
  - injection Hext as <- <-. constructor.
Qed.

Lemma convertCutLength_eight (header : Row) (rows : list Row)
  (drawingNo pipeClass : string) (pipeDescriptions : list string) :
  Forall (fun row => List.length row = 8%nat)
    (snd (CutLengthFormat.convertCutLengthToSingleRowFormat
            header rows drawingNo pipeClass pipeDescriptions)).
Proof.
  unfold CutLengthFormat.convertCutLengthToSingleRowFormat.
  destruct rows as [| row0 rest]; [constructor |].
  destruct (CutLengthFormat.pipeDescription pipeDescriptions) as [pipeDesc multipleDesc].
  cbn [snd]. apply Forall_forall. intros out Hin.
  apply in_flat_map in Hin. destruct Hin as (row & _ & Hin).
  assert (Hpiece : forall base, In out (CutLengthFormat.pieceRow row base pipeDesc multipleDesc
                                          drawingNo pipeClass) -> List.length out = 8%nat).
  { intros base. unfold CutLengthFormat.pieceRow.
    destruct (negb _); [intros [<- | []]; reflexivity | intros []]. }
  apply in_app_or in Hin. destruct Hin as [Hin | Hin].
  - destruct (4 <=? List.length row)%nat; [now apply (Hpiece 0%nat) | destruct Hin].
  - destruct (8 <=? List.length row)%nat; [now apply (Hpiece 4%nat) | destruct Hin].
Qed.

Lemma convertCutLength_header (header : Row) (rows : list Row)
  (drawingNo pipeClass : string) (pipeDescriptions : list string) :
  fst (CutLengthFormat.convertCutLengthToSingleRowFormat
         header rows drawingNo pipeClass pipeDescriptions) = CutLengthFormat.singleRowHeader.
Proof.
  unfold CutLengthFormat.convertCutLengthToSingleRowFormat.
  destruct rows as [| row0 rest]; [reflexivity |].
  now destruct (CutLengthFormat.pipeDescription pipeDescriptions).
Qed.

Lemma processDXFFile_wellFormed (weldFlag : bool) (textEntities : list TextEntity)
  (result : BomTool.DXFResult) :
  BomTool.processDXFFileWithCaching weldFlag textEntities = Some result -> wellFormed result.
Proof.
  unfold BomTool.processDXFFileWithCaching.
  set (textEntities0 :=
         if weldFlag then snd (PipeClass.findPipeClass textEntities) else textEntities).
  destruct (PipeClass.findPipeClass textEntities0) as [pipeClass textEntities1].
  destruct (TableExtraction.extractTable textEntities1 "ERECTION MATERIALS")
    as [[matHeader matRows] |] eqn:Hmat; [| discriminate].
  destruct (TableExtraction.extractTable textEntities1 "CUT PIPE LENGTH")
    as [[cutHeader cutRows] |] eqn:Hcut; [| discriminate].
  apply extractTable_padded in Hmat.
  set (drawingNo := FieldLocator.findDrawingNo textEntities0).
  assert (Hm : forall h rs,
            (match matRows with
             | [] => ([], [])
             | _ => (matHeader ++ ["Drawing-No."; "Pipe Class"],
                     map (fun row => row ++ [drawingNo; pipeClass]) matRows)
             end) = (h, rs) ->
            Forall (fun row => List.length row = List.length h) rs /\ (rs <> [] -> h <> [])).
  { intros h rs. destruct matRows as [| r0 rest].
    - intros Heq. injection Heq as <- <-. split; [constructor | intros H; now contradiction H].
    - intros Heq. injection Heq as <- <-. split.
      + apply Forall_forall. intros row Hin.
        change (In row (map (fun row => row ++ [drawingNo; pipeClass]) (r0 :: rest))) in Hin.
        apply in_map_iff in Hin.
        destruct Hin as (r & <- & Hr). rewrite Forall_forall in Hmat.
        rewrite !length_app, (Hmat r Hr). reflexivity.
      + intros _ Hnil. now destruct matHeader. }
  assert (Hc : forall h rs,
            (match cutRows with
             | [] => ([], [])
             | _ => CutLengthFormat.convertCutLengthToSingleRowFormat
                      cutHeader cutRows drawingNo pipeClass
                      (CutLengthFormat.extractPipeDescriptions matRows)
             end) = (h, rs) ->
            Forall (fun row => List.length row = 8%nat) rs /\
            (rs <> [] -> h = CutLengthFormat.singleRowHeader)).
  { intros h rs. destruct cutRows as [| r0 rest].
    - intros Heq. injection Heq as <- <-. split; [constructor | intros H; now contradiction H].
    - intros Heq.
      pose proof (convertCutLength_eight cutHeader (r0 :: rest) drawingNo pipeClass
                    (CutLengthFormat.extractPipeDescriptions matRows)) as H8.
      pose proof (convertCutLength_header cutHeader (r0 :: rest) drawingNo pipeClass
                    (CutLengthFormat.extractPipeDescriptions matRows)) as Hh.
      rewrite Heq in H8, Hh. cbn [fst snd] in H8, Hh. split; [exact H8 | now intros _]. }
  destruct (match matRows with [] => _ | _ => _ end) as [h1 rs1].
  destruct (match cutRows with [] => _ | _ => _ end) as [h2 rs2].
  intros Heq. injection Heq as <-. unfold wellFormed. cbn.
  destruct (Hm _ _ eq_refl) as [Hm1 Hm2]. destruct (Hc _ _ eq_refl) as [Hc1 Hc2].
  repeat split; assumption.
Qed.

Lemma addResult_fields (t : BomTool.totals) (r : BomTool.DXFResult) :
  BomTool.materialRows (BomTool.addResult t r) = BomTool.materialRows t ++ BomTool.MatRows r /\
  BomTool.cutRows (BomTool.addResult t r) = BomTool.cutRows t ++ BomTool.CutRows r /\
  BomTool.matHeader (BomTool.addResult t r) =
    match BomTool.MatRows r, BomTool.matHeader t with
    | _ :: _, [] => BomTool.MatHeader r
    | _, _ => BomTool.matHeader t
    end /\
  BomTool.cutHeader (BomTool.addResult t r) =
    match BomTool.CutRows r, BomTool.cutHeader t with
    | _ :: _, [] => BomTool.CutHeader r
    | _, _ => BomTool.cutHeader t
    end.
Proof.
  unfold BomTool.addResult.
  destruct (BomTool.MatRows r), (BomTool.CutRows r), (BomTool.matHeader t) eqn:Hm,
    (BomTool.cutHeader t) eqn:Hc;
    cbn [BomTool.materialRows BomTool.cutRows BomTool.matHeader BomTool.cutHeader];
    rewrite ?app_nil_r, ?Hm, ?Hc; repeat split; reflexivity.
Qed.

(** The aggregation loop from any state of its accumulators. *)
Lemma fold_addResult (results : list BomTool.DXFResult) (t : BomTool.totals) :
  Forall wellFormed results ->
  let t' := fold_left BomTool.addResult results t in
  BomTool.materialRows t' = BomTool.materialRows t ++ List.concat (map BomTool.MatRows results) /\
  BomTool.cutRows t' = BomTool.cutRows t ++ List.concat (map BomTool.CutRows results) /\
  BomTool.matHeader t' =
    match BomTool.matHeader t with [] => firstMatHeader results | h => h end /\
  (BomTool.cutHeader t = CutLengthFormat.singleRowHeader \/
   (BomTool.cutHeader t = [] /\ BomTool.cutRows t = []) ->
   BomTool.cutRows t' <> [] -> BomTool.cutHeader t' = CutLengthFormat.singleRowHeader).
Proof.
  revert t. induction results as [| r results IH]; intros t Hwf; cbn zeta;
    cbn [fold_left map List.concat].
  - rewrite !app_nil_r. unfold firstMatHeader. cbn [find].
    split; [reflexivity |]. split; [reflexivity |]. split; [now destruct (BomTool.matHeader t) |].
    intros [H | [_ H]] Hne; [exact H | now contradiction Hne].
  - inversion Hwf as [| ? ? Hr Hrest]; subst.
    destruct Hr as (_ & Hmh & _ & Hch).
    destruct (IH (BomTool.addResult t r) Hrest) as (Hm & Hc & Hh & Hk). cbn zeta in *.
    destruct (addResult_fields t r) as (Fm & Fc & Fmh & Fch).
    set (t1 := BomTool.addResult t r) in *.
    rewrite Hm, Hc, Hh, Fm, Fc, Fmh, <- !app_assoc. clear Hm Hh IH.
    split; [reflexivity |]. split; [reflexivity |]. split.
    + unfold firstMatHeader. cbn [find].
      destruct (BomTool.MatRows r) as [| m0 mrest]; [reflexivity |].
      destruct (BomTool.matHeader t) as [| h0 hrest]; [| reflexivity].
      destruct (BomTool.MatHeader r) as [| x xs] eqn:Hx; [| reflexivity].
      exfalso. apply Hmh; [discriminate | reflexivity].
    + intros Hstart Hne. apply Hk; [| rewrite Hc, Fc, <- app_assoc; exact Hne].
      rewrite Fch, Fc.
      destruct (BomTool.CutRows r) as [| c0 crest].
      * rewrite app_nil_r.
        destruct Hstart as [-> | [-> ->]]; [now left | right; now split].
      * left. destruct Hstart as [-> | [-> _]]; [reflexivity |].
        apply Hch. discriminate.
Qed.

(** X27.  Over the results of any drawings, with or without the weld
    flag, the aggregation loop of the BOM tool concatenates the material rows and the cut-length rows in the order
    of the results.  Every aggregated cut-length row has eight cells and the
    cut-length header, once there is a row, is the fixed eight-column header.
    The materials header is the header of the first result that has
    material rows; the material rows of a result fit the header of that
    result, which need not be the header kept. *)
Theorem aggregate_tables (results : list BomTool.DXFResult) :
  Forall (fun result =>
            exists weldFlag textEntities,
              BomTool.processDXFFileWithCaching weldFlag textEntities = Some result)
         results ->
  let t := BomTool.aggregate results in
  BomTool.materialRows t = List.concat (map BomTool.MatRows results) /\
  BomTool.cutRows t = List.concat (map BomTool.CutRows results) /\
  Forall (fun row => List.length row = 8%nat) (BomTool.cutRows t) /\
  (BomTool.cutRows t <> [] -> BomTool.cutHeader t = CutLengthFormat.singleRowHeader) /\
  BomTool.matHeader t = firstMatHeader results /\
  Forall (fun result =>
            Forall (fun row => List.length row = List.length (BomTool.MatHeader result))
                   (BomTool.MatRows result))
         results.
Proof.
  intros Hres.
  assert (Hwf : Forall wellFormed results).
  { apply Forall_forall. intros r Hr. rewrite Forall_forall in Hres.
    destruct (Hres r Hr) as (weldFlag & ents & He).
    now apply (processDXFFile_wellFormed weldFlag ents). }
  destruct (fold_addResult results (BomTool.mkTotals [] [] [] []) Hwf) as (Hm & Hc & Hh & Hk).
  cbn zeta in *. unfold BomTool.aggregate.
  cbn [BomTool.materialRows BomTool.cutRows BomTool.matHeader BomTool.cutHeader app] in *.
  split; [exact Hm |]. split; [exact Hc |]. split; [| split; [| split; [exact Hh |]]].
  - rewrite Hc. apply Forall_concat. apply Forall_forall. intros rows Hin.
    apply in_map_iff in Hin. destruct Hin as (r & <- & Hr).
    rewrite Forall_forall in Hwf. apply (Hwf r Hr).
  - apply Hk. right. now split.
  - apply Forall_forall. intros r Hr. rewrite Forall_forall in Hwf. apply (Hwf r Hr).
Qed.

Lemma aggregate_tables_witness :
  BomTool.matHeader (BomTool.aggregate [fiveColumnResult; sixColumnResult])
    = firstMatHeader [fiveColumnResult; sixColumnResult].
Proof.
  assert (H : Forall (fun result =>
                        exists weldFlag textEntities,
                          BomTool.processDXFFileWithCaching weldFlag textEntities
                            = Some result)
                     [fiveColumnResult; sixColumnResult]).
  { constructor; [| constructor; [| constructor]].
    - exists false, fiveColumnDrawing. vm_compute. reflexivity.
    - exists true, sixColumnDrawing. vm_compute. reflexivity. }
  exact (proj1 (proj2 (proj2 (proj2 (proj2
           (aggregate_tables [fiveColumnResult; sixColumnResult] H)))))).
Defined.

(** The materials rows of two drawings whose parts lists differ in width do
    not fit one header; in the second drawing the cell under the sixth
    header column has been overwritten by the category. *)
Example ragged_materials :
  BomTool.processDXFFile fiveColumnDrawing = Some fiveColumnResult /\
  BomTool.processDXFFileWithCaching true sixColumnDrawing = Some sixColumnResult /\
  List.length (BomTool.matHeader (BomTool.aggregate [fiveColumnResult; sixColumnResult]))
    = 8%nat /\
  map (@List.length string)
      (BomTool.materialRows (BomTool.aggregate [fiveColumnResult; sixColumnResult]))
    = [8%nat; 9%nat].
Proof. repeat split; vm_compute; reflexivity. Qed.
